(** * AP_Filesystem: FATFS and ROMFS backends

    A shallow embedding of
      libraries/AP_Filesystem/AP_Filesystem_FATFS.cpp
      libraries/AP_Filesystem/AP_Filesystem_ROMFS.cpp
    and the properties of the recovery and resource-management layer.

    The FatFs engine, the SD-card session driver, the scheduler and the
    allocator are external collaborators: they are a record of functions
    over an abstract world [W], threaded through every call.  Every call
    to a collaborator is also appended to a trace, so that statements
    such as "no backend call was attempted" can be made. *)

From Stdlib Require Import ZArith Lia Bool.
From Stdlib.Strings Require Import Byte.
From stdpp Require Import base list strings.

Local Open Scope Z_scope.

(** ** POSIX error numbers

    [errno] is an [int] whose numeric values come from the C library;
    the sources only use the symbolic names, which are kept here.
    [E_OK] is the value 0. *)
Inductive errno_t : Set :=
| E_OK | EPERM | ENOENT | EIO | ENXIO | EBADF | ENOMEM | EACCES | EBUSY
| EEXIST | EINVAL | ENFILE | EMFILE | ENOSPC | EROFS | EBADMSG.

(** ** FatFs result codes (the [FRESULT] enum of ff.h)

    An enum is an integer in C; the numbering is the one quoted in the
    comments of [fatfs_to_errno]. *)
Definition FRESULT := Z.

Definition FR_OK : FRESULT := 0.
Definition FR_DISK_ERR : FRESULT := 1.
Definition FR_INT_ERR : FRESULT := 2.
Definition FR_NOT_READY : FRESULT := 3.
Definition FR_NO_FILE : FRESULT := 4.
Definition FR_NO_PATH : FRESULT := 5.
Definition FR_INVALID_NAME : FRESULT := 6.
Definition FR_DENIED : FRESULT := 7.
Definition FR_EXIST : FRESULT := 8.
Definition FR_INVALID_OBJECT : FRESULT := 9.
Definition FR_WRITE_PROTECTED : FRESULT := 10.
Definition FR_INVALID_DRIVE : FRESULT := 11.
Definition FR_NOT_ENABLED : FRESULT := 12.
Definition FR_NO_FILESYSTEM : FRESULT := 13.
Definition FR_MKFS_ABORTED : FRESULT := 14.
Definition FR_TIMEOUT : FRESULT := 15.
Definition FR_LOCKED : FRESULT := 16.
Definition FR_NOT_ENOUGH_CORE : FRESULT := 17.
Definition FR_TOO_MANY_OPEN_FILES : FRESULT := 18.
Definition FR_INVALID_PARAMETER : FRESULT := 19.

(** The result codes that have a [case] in [fatfs_to_errno]. *)
Definition mapped_codes : list FRESULT :=
  [FR_OK; FR_DISK_ERR; FR_INT_ERR; FR_NOT_READY; FR_NO_FILE; FR_NO_PATH;
   FR_INVALID_NAME; FR_DENIED; FR_EXIST; FR_INVALID_OBJECT;
   FR_WRITE_PROTECTED; FR_INVALID_DRIVE; FR_NOT_ENABLED; FR_NO_FILESYSTEM;
   FR_MKFS_ABORTED; FR_TIMEOUT; FR_LOCKED; FR_NOT_ENOUGH_CORE;
   FR_TOO_MANY_OPEN_FILES; FR_INVALID_PARAMETER].

(** [static int fatfs_to_errno(FRESULT Result)] *)
Definition fatfs_to_errno (Result : FRESULT) : errno_t :=
  match Result with
  | 0 => E_OK        (* FR_OK *)
  | 1 => EIO         (* FR_DISK_ERR *)
  | 2 => EPERM       (* FR_INT_ERR *)
  | 3 => EBUSY       (* FR_NOT_READY *)
  | 4 => ENOENT      (* FR_NO_FILE *)
  | 5 => ENOENT      (* FR_NO_PATH *)
  | 6 => EINVAL      (* FR_INVALID_NAME *)
  | 7 => EACCES      (* FR_DENIED *)
  | 8 => EEXIST      (* FR_EXIST *)
  | 9 => EINVAL      (* FR_INVALID_OBJECT *)
  | 10 => EROFS      (* FR_WRITE_PROTECTED *)
  | 11 => ENXIO      (* FR_INVALID_DRIVE *)
  | 12 => ENOSPC     (* FR_NOT_ENABLED *)
  | 13 => ENXIO      (* FR_NO_FILESYSTEM *)
  | 14 => EINVAL     (* FR_MKFS_ABORTED *)
  | 15 => EBUSY      (* FR_TIMEOUT *)
  | 16 => EBUSY      (* FR_LOCKED *)
  | 17 => ENOMEM     (* FR_NOT_ENOUGH_CORE *)
  | 18 => EMFILE     (* FR_TOO_MANY_OPEN_FILES *)
  | 19 => EINVAL     (* FR_INVALID_PARAMETER *)
  | _ => EBADMSG
  end.


(** ** Fixed-width integers *)

(** [uint32_t] / [UINT] / [DWORD] arithmetic wraps modulo 2^32. *)
Definition u32 (x : Z) : Z := x mod 2^32.

(** [uint16_t] values wrap modulo 2^16. *)
Definition u16 (x : Z) : Z := x mod 2^16.

(** Conversion of a 32-bit unsigned value to [int32_t], as done by
    [return (ssize_t)total;] in a function returning [int32_t]. *)
Definition to_int32 (x : Z) : Z := if x <? 2^31 then x else x - 2^32.

(** ** Constants of the headers the sources include *)

(** ff.h: access-mode bits of [f_open] and attribute bits of [FILINFO]. *)
Definition FA_READ : Z := 1.
Definition FA_WRITE : Z := 2.
Definition FA_CREATE_ALWAYS : Z := 8.
Definition FA_OPEN_ALWAYS : Z := 16.
Definition AM_RDO : Z := 1.
Definition AM_SYS : Z := 4.
Definition AM_DIR : Z := 16.

(** fcntl.h (newlib, the C library of the ChibiOS builds). *)
Definition O_RDONLY : Z := 0.
Definition O_RDWR : Z := 2.
Definition O_ACCMODE : Z := 3.
Definition O_APPEND : Z := 8.
Definition O_CREAT : Z := 512.
Definition O_TRUNC : Z := 1024.

(** sys/stat.h *)
Definition S_IFDIR : Z := 16384.
Definition S_IFREG : Z := 32768.
Definition FATFS_R : Z := 292.   (* S_IRUSR | S_IRGRP | S_IROTH *)
Definition FATFS_W : Z := 146.   (* S_IWUSR | S_IWGRP | S_IWOTH *)
Definition FATFS_X : Z := 73.    (* S_IXUSR | S_IXGRP | S_IXOTH *)

(** AP_Filesystem_backend.h: [enum class FormatStatus].  Its first
    value, the one before any format request, is the IDLE state. *)
Inductive FormatStatus : Set := IDLE | PENDING | IN_PROGRESS | SUCCESS | FAILURE.

Definition FormatStatus_eqb (a b : FormatStatus) : bool :=
  match a, b with
  | IDLE, IDLE | PENDING, PENDING | IN_PROGRESS, IN_PROGRESS
  | SUCCESS, SUCCESS | FAILURE, FAILURE => true
  | _, _ => false
  end.

(** * The FATFS backend *)
Module FATFS.

(** [MAX_IO_SIZE]: "don't write more than 4k at a time". *)
Definition MAX_IO_SIZE : Z := 4096.

(** [MAX_FILES]: the capacity of [file_table]. *)
Definition MAX_FILES : nat := 16.

(** ** Data *)

(** The FatFs file object [FIL].  This layer reads [fptr], [flag] and
    (through [f_size]) the object size; the remaining bytes of the struct
    are [fil_rest]. *)
Record FIL : Set := mkFIL { fptr : Z; flag : Z; objsize : Z; fil_rest : Z }.

(** The result of [memset(fh, 0, sizeof( *fh))] or of [calloc]. *)
Definition FIL_zero : FIL := mkFIL 0 0 0 0.

(** [typedef struct { FIL fobj; char *name; } FAT_FILE;] *)
Record FAT_FILE : Set := mkFAT_FILE { fobj : FIL; name : string }.

(** The fields of [FILINFO] read by [stat]. *)
Record FILINFO : Set := mkFILINFO { fsize : Z; fdate : Z; ftime : Z; fattrib : Z }.

(** The fields of [struct tm] set by [fat_time_to_unix], the others
    being zeroed by [memset]. *)
Record tm : Set := mktm {
  tm_sec : Z; tm_min : Z; tm_hour : Z; tm_mday : Z; tm_mon : Z; tm_year : Z }.

(** The fields of [struct stat] written by [stat]. *)
Record stat_t : Set := mkstat {
  st_size : Z; st_atime : Z; st_mtime : Z; st_ctime : Z;
  st_uid : Z; st_gid : Z; st_mode : Z }.

(** The FatFs directory object [DIR], opaque to this layer. *)
Definition DIR : Set := Z.

(** The volume figures [disk_free] and [disk_space] read after
    [f_getfree]: the free cluster count, [fs->csize], [fs->n_fatent]. *)
Record getfree_t : Set := mkgetfree { fre_clust : Z; csize : Z; n_fatent : Z }.

(** Calls to the collaborators, with their arguments and results; a file
    object is named by the index of the [file_table] slot that owns it. *)
Inductive event : Set :=
| EvSdcardStop
| EvSdcardRetry (ok : bool)
| EvDelay (ms : Z)
| EvOpen (slot : nat) (fh : FIL) (path : string) (mode : Z) (res : FRESULT)
| EvClose (slot : nat) (res : FRESULT)
| EvLseek (slot : nat) (ofs : Z) (res : FRESULT)
| EvRead (slot : nat) (n : Z) (res : FRESULT) (size : Z)
| EvWrite (slot : nat) (n : Z) (res : FRESULT) (size : Z)
| EvStat (path : string) (res : FRESULT)
| EvOpendir (path : string) (res : FRESULT)
| EvGetfree (res : FRESULT)
| EvMkfs (res : FRESULT)
| EvSendText (msg : string).

(** The collaborators of the backend.  [W] is the state of everything
    outside this layer: the card, the FatFs volume, the scheduler, the
    heap.  [FS_CHECK_ALLOWED] is a macro of AP_Filesystem.h that returns
    its argument when file operations are not allowed; the test it makes
    is [file_op_allowed].  The allocator calls report success or
    failure. *)
Record Driver (W : Type) : Type := mkDriver {
  FF_USE_MKFS : bool;
  file_op_allowed : W -> bool;
  in_main_thread : W -> bool;
  get_soft_armed : W -> bool;
  delay : Z -> W -> W;
  sdcard_stop : W -> W;
  sdcard_retry : W -> bool * W;
  mem_is_dma_safe : Z -> Z -> bool;
  calloc_ok : W -> bool * W;
  strdup_ok : W -> bool * W;
  new_DIR_Wrapper_ok : W -> bool * W;
  malloc_type_ok : W -> bool * W;
  ap_mktime : tm -> Z;
  f_open : FIL -> string -> Z -> W -> FRESULT * FIL * W;
  f_close : FIL -> W -> FRESULT * W;
  f_lseek : FIL -> Z -> W -> FRESULT * FIL * W;
  f_read : FIL -> Z -> W -> FRESULT * Z * list byte * FIL * W;
  f_write : FIL -> list byte -> Z -> W -> FRESULT * Z * FIL * W;
  f_stat : string -> W -> FRESULT * FILINFO * W;
  f_opendir : string -> W -> FRESULT * DIR * W;
  f_getfree : W -> FRESULT * getfree_t * W;
  f_mkfs : W -> FRESULT * W
}.

Arguments FF_USE_MKFS {W}.
Arguments file_op_allowed {W}.
Arguments in_main_thread {W}.
Arguments get_soft_armed {W}.
Arguments delay {W}.
Arguments sdcard_stop {W}.
Arguments sdcard_retry {W}.
Arguments mem_is_dma_safe {W}.
Arguments calloc_ok {W}.
Arguments strdup_ok {W}.
Arguments new_DIR_Wrapper_ok {W}.
Arguments malloc_type_ok {W}.
Arguments ap_mktime {W}.
Arguments f_open {W}.
Arguments f_close {W}.
Arguments f_lseek {W}.
Arguments f_read {W}.
Arguments f_write {W}.
Arguments f_stat {W}.
Arguments f_opendir {W}.
Arguments f_getfree {W}.
Arguments f_mkfs {W}.

(** The static variables of the translation unit ([remount_needed],
    [file_table]), the backend's [format_status], [errno], the world and
    the trace of calls made so far (oldest first). *)
Record fs_state (W : Type) : Type := mkState {
  remount_needed : bool;
  file_table : list (option FAT_FILE);
  format_status : FormatStatus;
  errno : errno_t;
  world : W;
  trace : list event
}.

Arguments mkState {W}.
Arguments remount_needed {W}.
Arguments file_table {W}.
Arguments format_status {W}.
Arguments errno {W}.
Arguments world {W}.
Arguments trace {W}.

(** The state at start-up: statics are zero-initialised. *)
Definition init_state {W : Type} (w : W) : fs_state W :=
  mkState false (replicate MAX_FILES None) IDLE E_OK w [].

Section Model.
Context {W : Type} (drv : Driver W).

Abbreviation state := (fs_state W).

Definition with_remount (b : bool) (s : state) : state :=
  mkState b (file_table s) (format_status s) (errno s) (world s) (trace s).
Definition with_table (t : list (option FAT_FILE)) (s : state) : state :=
  mkState (remount_needed s) t (format_status s) (errno s) (world s) (trace s).
Definition with_format (f : FormatStatus) (s : state) : state :=
  mkState (remount_needed s) (file_table s) f (errno s) (world s) (trace s).
Definition with_errno (e : errno_t) (s : state) : state :=
  mkState (remount_needed s) (file_table s) (format_status s) e (world s) (trace s).
Definition with_world (w : W) (s : state) : state :=
  mkState (remount_needed s) (file_table s) (format_status s) (errno s) w (trace s).
Definition log (e : event) (s : state) : state :=
  mkState (remount_needed s) (file_table s) (format_status s) (errno s) (world s)
          (trace s ++ [e]).

(** *** File objects live in the table

    A [FIL *] always points into a [FAT_FILE] owned by a slot of
    [file_table], so it is the index of that slot: reads and writes of
    the object go through the table, and two pointers to the same slot
    alias. *)
Definition slot_fobj (i : nat) (s : state) : FIL :=
  match file_table s !! i with
  | Some (Some f) => fobj f
  | _ => FIL_zero
  end.

Definition set_slot_fobj (i : nat) (fh : FIL) (s : state) : state :=
  match file_table s !! i with
  | Some (Some f) =>
      with_table (<[i := Some (mkFAT_FILE fh (name f))]> (file_table s)) s
  | _ => s
  end.

(** *** Calls to the collaborators *)

Definition call_sdcard_stop (s : state) : state :=
  log EvSdcardStop (with_world (sdcard_stop drv (world s)) s).

Definition call_sdcard_retry (s : state) : bool * state :=
  let '(ok, w) := sdcard_retry drv (world s) in
  (ok, log (EvSdcardRetry ok) (with_world w s)).

Definition call_delay (ms : Z) (s : state) : state :=
  log (EvDelay ms) (with_world (delay drv ms (world s)) s).

Definition call_f_open (fh : nat) (path : string) (mode : Z) (s : state)
  : FRESULT * state :=
  let fil := slot_fobj fh s in
  let '(res, fil', w) := f_open drv fil path mode (world s) in
  (res, log (EvOpen fh fil path mode res) (with_world w (set_slot_fobj fh fil' s))).

Definition call_f_close (fh : nat) (s : state) : FRESULT * state :=
  let '(res, w) := f_close drv (slot_fobj fh s) (world s) in
  (res, log (EvClose fh res) (with_world w s)).

Definition call_f_lseek (fh : nat) (ofs : Z) (s : state) : FRESULT * state :=
  let '(res, fil', w) := f_lseek drv (slot_fobj fh s) ofs (world s) in
  (res, log (EvLseek fh ofs res) (with_world w (set_slot_fobj fh fil' s))).

(** [size] is a [UINT] out-parameter. *)
Definition call_f_read (fh : nat) (n : Z) (s : state)
  : FRESULT * Z * list byte * state :=
  let '(res, size, data, fil', w) := f_read drv (slot_fobj fh s) n (world s) in
  (res, u32 size, data,
   log (EvRead fh n res (u32 size)) (with_world w (set_slot_fobj fh fil' s))).

Definition call_f_write (fh : nat) (data : list byte) (n : Z) (s : state)
  : FRESULT * Z * state :=
  let '(res, size, fil', w) := f_write drv (slot_fobj fh s) data n (world s) in
  (res, u32 size,
   log (EvWrite fh n res (u32 size)) (with_world w (set_slot_fobj fh fil' s))).

Definition call_f_stat (path : string) (s : state) : FRESULT * FILINFO * state :=
  let '(res, info, w) := f_stat drv path (world s) in
  (res, info, log (EvStat path res) (with_world w s)).

Definition call_f_opendir (path : string) (s : state) : FRESULT * DIR * state :=
  let '(res, d, w) := f_opendir drv path (world s) in
  (res, d, log (EvOpendir path res) (with_world w s)).

Definition call_f_getfree (s : state) : FRESULT * getfree_t * state :=
  let '(res, g, w) := f_getfree drv (world s) in
  (res, g, log (EvGetfree res) (with_world w s)).

Definition call_f_mkfs (s : state) : FRESULT * state :=
  let '(res, w) := f_mkfs drv (world s) in
  (res, log (EvMkfs res) (with_world w s)).

Definition alloc (f : W -> bool * W) (s : state) : bool * state :=
  let '(ok, w) := f (world s) in (ok, with_world w s).

(** *** The handle table *)

(** The scan [for (i=0; i<MAX_FILES; ++i) if (file_table[i] == NULL)]. *)
Fixpoint find_free_slot (idxs : list nat) (t : list (option FAT_FILE))
  : option nat :=
  match idxs with
  | [] => None
  | i :: rest =>
      match t !! i with
      | Some None => Some i
      | _ => find_free_slot rest t
      end
  end.

(** [static int new_file_descriptor(const char *pathname, FIL * &fh)].
    The returned index is also the file object [fh]. *)
Definition new_file_descriptor (pathname : string) (s : state) : Z * state :=
  match find_free_slot (seq 0 MAX_FILES) (file_table s) with
  | Some i =>
      let '(ok, s) := alloc (calloc_ok drv) s in
      if negb ok then (-1, with_errno ENOMEM s)
      else
        let '(ok, s) := alloc (strdup_ok drv) s in
        if negb ok then (-1, with_errno ENOMEM s)
        else
          (Z.of_nat i,
           with_table (<[i := Some (mkFAT_FILE FIL_zero pathname)]> (file_table s)) s)
  | None => (-1, with_errno ENFILE s)
  end.

(** [static FAT_FILE *fileno_to_stream(int fileno)]: the slot index
    stands for the stream found. *)
Definition fileno_to_stream (fileno : Z) (s : state) : option nat * state :=
  if (fileno <? 0) || (Z.of_nat MAX_FILES <=? fileno) then
    (None, with_errno EBADF s)
  else
    match file_table s !! Z.to_nat fileno with
    | Some (Some _) => (Some (Z.to_nat fileno), s)
    | _ => (None, with_errno EBADF s)
    end.

(** [static void free_file_descriptor(int fileno)] *)
Definition free_file_descriptor (fileno : Z) (s : state) : state :=
  match fileno_to_stream fileno s with
  | (Some i, s) => with_table (<[i := None]> (file_table s)) s
  | (None, s) => s
  end.

(** [static FIL *fileno_to_fatfs(int fileno)] *)
Definition fileno_to_fatfs (fileno : Z) (s : state) : option nat * state :=
  fileno_to_stream fileno s.

(** *** Recovery *)

(** [RETRY_ALLOWED()] *)
Definition RETRY_ALLOWED (s : state) : bool :=
  negb (in_main_thread drv (world s)) || negb (get_soft_armed drv (world s)).

(** The body of the loop of [remount_file_system] for slot [i]. *)
Definition reopen_slot (i : nat) (s : state) : state :=
  match file_table s !! i with
  | Some (Some f) =>
      let offset := fptr (fobj f) in
      let flags := Z.land (flag (fobj f)) (Z.lor FA_READ FA_WRITE) in
      let s := set_slot_fobj i FIL_zero s in
      let flags :=
        if Z.land flags FA_WRITE =? 0 then flags else Z.lor flags FA_OPEN_ALWAYS in
      let '(res, s) := call_f_open i (name f) flags s in
      if res =? FR_OK then snd (call_f_lseek i offset s) else s
  | _ => s
  end.

(** [static bool remount_file_system(void)].  [EXPECT_DELAY_MS] only
    informs the scheduler's watchdog. *)
Definition remount_file_system (s : state) : bool * state :=
  let s := if remount_needed s then s else call_sdcard_stop s in
  let '(ok, s) := call_sdcard_retry s in
  if negb ok then (false, with_remount true s)
  else
    (true, foldl (fun s i => reopen_slot i s) (with_remount false s)
                 (seq 0 MAX_FILES)).

(** [CHECK_REMOUNT()] and [CHECK_REMOUNT_NULL()]: [false] when the macro
    makes the caller return. *)
Definition CHECK_REMOUNT (s : state) : bool * state :=
  if remount_needed s then
    let '(ok, s) := remount_file_system s in
    if negb ok then (false, with_errno EIO s) else (true, s)
  else (true, s).

(** *** open and close *)

(** [int AP_Filesystem_FATFS::open(const char *pathname, int flags, bool)] *)
Definition open (pathname : string) (flags : Z) (allow_absolute_path : bool)
  (s : state) : Z * state :=
  if negb (file_op_allowed drv (world s)) then (-1, s)
  else
    let '(ok, s) := CHECK_REMOUNT s in
    if negb ok then (-1, s)
    else
      let s := with_errno E_OK s in
      let fatfs_modes :=
        if Z.land flags O_ACCMODE =? O_RDWR then Z.lor FA_READ FA_WRITE
        else if Z.land flags O_ACCMODE =? O_RDONLY then FA_READ
        else FA_WRITE in
      let fatfs_modes :=
        if Z.land flags O_CREAT =? 0 then fatfs_modes
        else if Z.land flags O_TRUNC =? 0 then Z.lor fatfs_modes FA_OPEN_ALWAYS
        else Z.lor fatfs_modes FA_CREATE_ALWAYS in
      let '(fileno, s) := new_file_descriptor pathname s in
      if fileno <? 0 then (-1, s)
      else
        let fh := Z.to_nat fileno in
        let mode := Z.land fatfs_modes 255 in
        let '(res, s) := call_f_open fh pathname mode s in
        let '(res, s) :=
          if (res =? FR_DISK_ERR) && RETRY_ALLOWED s then
            let s := call_delay 100 s in
            let '(ok, s) := remount_file_system s in
            if ok then call_f_open fh pathname mode s else (res, s)
          else (res, s) in
        if negb (res =? FR_OK) then
          (-1, free_file_descriptor fileno (with_errno (fatfs_to_errno res) s))
        else if Z.land flags O_APPEND =? 0 then (fileno, s)
        else
          let '(res, s) := call_f_lseek fh (objsize (slot_fobj fh s)) s in
          if negb (res =? FR_OK) then
            let s := with_errno (fatfs_to_errno res) s in
            let '(_, s) := call_f_close fh s in
            (-1, free_file_descriptor fileno s)
          else (fileno, s).

(** [int AP_Filesystem_FATFS::close(int fileno)] *)
Definition close (fileno : Z) (s : state) : Z * state :=
  if negb (file_op_allowed drv (world s)) then (-1, s)
  else
    let s := with_errno E_OK s in
    match fileno_to_fatfs fileno s with
    | (None, s) => (-1, s)
    | (Some fh, s) =>
        let '(res, s) := call_f_close fh s in
        let s := free_file_descriptor fileno s in
        if negb (res =? FR_OK) then (-1, with_errno (fatfs_to_errno res) s)
        else (0, s)
    end.

(** *** read and write

    The caller's buffer is the list [buf] of its bytes, located at
    address [addr]; the cursor [cur] is the distance the [buf] pointer of
    the source has advanced.  [mem_is_dma_safe] is asked about the
    advanced pointer and the original [count], as the source does.  Data
    a backend delivers is stored at the cursor, bytes past the end of the
    list being dropped.  The loops take fuel; [None] is "out of fuel". *)

Fixpoint read_loop (fuel : nat) (fh : nat) (addr count : Z)
  (cur bytes total : Z) (buf : list byte) (s : state)
  : option (Z * list byte * state) :=
  match fuel with
  | O => None
  | S fuel =>
      let n := if mem_is_dma_safe drv (addr + cur) count then bytes
               else Z.min bytes MAX_IO_SIZE in
      let '(res, size, data, s) := call_f_read fh n s in
      let buf := list_inserts (Z.to_nat cur) data buf in
      if negb (res =? FR_OK) then
        Some (-1, buf, with_errno (fatfs_to_errno res) s)
      else if size =? 0 then Some (to_int32 total, buf, s)
      else if n <? size then Some (-1, buf, with_errno EIO s)
      else
        let total := u32 (total + size) in
        let cur := cur + size in
        let bytes := u32 (bytes - size) in
        if size <? n then Some (to_int32 total, buf, s)
        else if 0 <? bytes then read_loop fuel fh addr count cur bytes total buf s
        else Some (to_int32 total, buf, s)
  end.

(** [int32_t AP_Filesystem_FATFS::read(int fd, void *buf, uint32_t count)] *)
Definition read (fd : Z) (buf : list byte) (addr count : Z) (s : state)
  : option (Z * list byte * state) :=
  if negb (file_op_allowed drv (world s)) then Some (-1, buf, s)
  else
    let '(ok, s) := CHECK_REMOUNT s in
    if negb ok then Some (-1, buf, s)
    else
      let buf := if 0 <? count then <[0%nat := x00]> buf else buf in
      let s := with_errno E_OK s in
      match fileno_to_fatfs fd s with
      | (None, s) => Some (-1, buf, s)
      | (Some fh, s) =>
          read_loop (S (Z.to_nat count)) fh addr count 0 count 0 buf s
      end.

(** One [f_write] of the loop of [write] with its single retry. *)
Definition write_chunk (fh : nat) (data : list byte) (n : Z) (s : state)
  : FRESULT * Z * state :=
  let '(res, size, s) := call_f_write fh data n s in
  if (res =? FR_DISK_ERR) && RETRY_ALLOWED s then
    let s := call_delay 100 s in
    let '(ok, s) := remount_file_system s in
    if ok then call_f_write fh data n s else (res, size, s)
  else (res, size, s).

Fixpoint write_loop (fuel : nat) (fh : nat) (buf : list byte) (addr count : Z)
  (cur bytes total : Z) (s : state) : option (Z * state) :=
  match fuel with
  | O => None
  | S fuel =>
      let n := if mem_is_dma_safe drv (addr + cur) count then bytes
               else Z.min bytes MAX_IO_SIZE in
      let data := take (Z.to_nat n) (drop (Z.to_nat cur) buf) in
      let '(res, size, s) := write_chunk fh data n s in
      if (n <? size) || (size =? 0) then Some (-1, with_errno EIO s)
      else if negb (res =? FR_OK) || (n <? size) then
        Some (-1, with_errno (fatfs_to_errno res) s)
      else
        let total := u32 (total + size) in
        let cur := cur + size in
        let bytes := u32 (bytes - size) in
        if size <? n then Some (to_int32 total, s)
        else if 0 <? bytes then write_loop fuel fh buf addr count cur bytes total s
        else Some (to_int32 total, s)
  end.

(** [int32_t AP_Filesystem_FATFS::write(int fd, const void *buf, uint32_t count)] *)
Definition write (fd : Z) (buf : list byte) (addr count : Z) (s : state)
  : option (Z * state) :=
  let s := with_errno E_OK s in
  if negb (file_op_allowed drv (world s)) then Some (-1, s)
  else
    let '(ok, s) := CHECK_REMOUNT s in
    if negb ok then Some (-1, s)
    else
      match fileno_to_fatfs fd s with
      | (None, s) => Some (-1, s)
      | (Some fh, s) =>
          write_loop (S (Z.to_nat count)) fh buf addr count 0 count 0 s
      end.

(** *** stat and opendir *)

(** [static time_t fat_time_to_unix(uint16_t date, uint16_t time)] *)
Definition fat_time_to_unix (date time : Z) : Z :=
  ap_mktime drv
    (mktm (Z.land (Z.shiftl time 1) 62)
          (Z.land (Z.shiftr time 5) 63)
          (Z.land (Z.shiftr time 11) 31)
          (Z.land date 31)
          (Z.land (Z.shiftr date 5) 15 - 1)
          (Z.land (Z.shiftr date 9) 127 + 80)).

(** [int AP_Filesystem_FATFS::stat(const char *name, struct stat *buf)] *)
Definition stat (name : string) (buf : stat_t) (s : state) : Z * stat_t * state :=
  if negb (file_op_allowed drv (world s)) then (-1, buf, s)
  else
    let '(ok, s) := CHECK_REMOUNT s in
    if negb ok then (-1, buf, s)
    else
      let s := with_errno E_OK s in
      if String.eqb name "/" || String.eqb name "." then
        (0, mkstat 0 0 0 0 0 0 S_IFDIR, s)
      else
        let '(res, info, s) := call_f_stat name s in
        let '(res, info, s) :=
          if (res =? FR_DISK_ERR) && RETRY_ALLOWED s then
            let '(ok, s) := remount_file_system s in
            if ok then call_f_stat name s else (res, info, s)
          else (res, info, s) in
        if negb (res =? FR_OK) then (-1, buf, with_errno (fatfs_to_errno res) s)
        else
          let epoch := fat_time_to_unix (fdate info) (ftime info) in
          let mode := Z.lor FATFS_R FATFS_X in
          let mode :=
            if Z.land (fattrib info) AM_RDO =? 0 then Z.lor mode FATFS_W else mode in
          (* the assignment of uid and gid 0 for AM_SYS is followed by an
             unconditional block that sets both to 1000 *)
          let mode :=
            if Z.land (fattrib info) AM_DIR =? 0 then Z.lor mode S_IFREG
            else Z.lor mode S_IFDIR in
          (0, mkstat (fsize info) epoch epoch epoch 1000 1000 mode, s).

(** [void *AP_Filesystem_FATFS::opendir(const char *pathdir)]: [None]
    is the null pointer. *)
Definition opendir (pathdir : string) (s : state) : option DIR * state :=
  if negb (file_op_allowed drv (world s)) then (None, s)
  else
    let '(ok, s) := CHECK_REMOUNT s in
    if negb ok then (None, s)
    else
      let '(ok, s) := alloc (new_DIR_Wrapper_ok drv) s in
      if negb ok then (None, s)
      else
        let '(res, d, s) := call_f_opendir pathdir s in
        let '(res, d, s) :=
          if (res =? FR_DISK_ERR) && RETRY_ALLOWED s then
            let '(ok, s) := remount_file_system s in
            if ok then call_f_opendir pathdir s else (res, d, s)
          else (res, d, s) in
        if negb (res =? FR_OK) then (None, with_errno (fatfs_to_errno res) s)
        else (Some d, s).

(** *** Disk usage *)

(** [int64_t AP_Filesystem_FATFS::disk_free(const char *path)] *)
Definition disk_free (path : string) (s : state) : Z * state :=
  if negb (file_op_allowed drv (world s)) then (-1, s)
  else
    let '(ok, s) := CHECK_REMOUNT s in
    if negb ok then (-1, s)
    else
      let '(res, g, s) := call_f_getfree s in
      if negb (res =? 0) then (res, s)
      else
        let fre_sect := u32 (fre_clust g * csize g) in
        (fre_sect * 512, s).

(** [int64_t AP_Filesystem_FATFS::disk_space(const char *path)] *)
Definition disk_space (path : string) (s : state) : Z * state :=
  if negb (file_op_allowed drv (world s)) then (-1, s)
  else
    let '(ok, s) := CHECK_REMOUNT s in
    if negb ok then (-1, s)
    else
      let '(res, g, s) := call_f_getfree s in
      if negb (res =? 0) then (-1, s)
      else
        let tot_sect := u32 (u32 (n_fatent g - 2) * csize g) in
        (tot_sect * 512, s).

(** *** Formatting *)

(** [bool AP_Filesystem_FATFS::format(void)]: the registration of
    [format_handler] with the scheduler's IO thread is not a state
    change of this layer. *)
Definition format (s : state) : bool * state :=
  if FF_USE_MKFS drv then (true, with_format PENDING s) else (false, s).

(** [void AP_Filesystem_FATFS::format_handler(void)] *)
Definition format_handler (s : state) : state :=
  if negb (FF_USE_MKFS drv) then s
  else if negb (FormatStatus_eqb (format_status s) PENDING) then s
  else
    let s := with_format IN_PROGRESS s in
    let s := log (EvSendText "Formatting SDCard") s in
    let '(ok, s) := alloc (malloc_type_ok drv) s in
    if negb ok then s
    else
      let '(ret, s) := call_f_mkfs s in
      let s :=
        if ret =? FR_OK then
          log (EvSendText "Format: OK") (with_format SUCCESS s)
        else
          log (EvSendText "Format: Failed (%d)") (with_format FAILURE s) in
      let s := call_sdcard_stop s in
      snd (call_sdcard_retry s).

(** [FormatStatus AP_Filesystem_FATFS::get_format_status(void) const] *)
Definition get_format_status (s : state) : FormatStatus := format_status s.

(** *** Sequences of open and close

    The states the backend can be in after any number of [open] and
    [close] calls since start-up, the world moving on by itself between
    two calls. *)
Inductive reachable : state -> Prop :=
| reach_init (w : W) : reachable (init_state w)
| reach_world (s : state) (w : W) : reachable s -> reachable (with_world w s)
| reach_open (s : state) (pathname : string) (flags : Z) (abs : bool) :
    reachable s -> reachable (snd (open pathname flags abs s))
| reach_close (s : state) (fileno : Z) :
    reachable s -> reachable (snd (close fileno s)).

End Model.

(** Which slots of a table are occupied, and how many. *)
Definition shape (t : list (option FAT_FILE)) : list bool :=
  (fun o => match o with Some _ => true | None => false end) <$> t.

Definition open_files (t : list (option FAT_FILE)) : nat :=
  length (filter (fun b => b = true) (shape t)).

(** A call keeps the occupancy of the table and the remount flag. *)
Definition keeps {W : Type} (s s' : fs_state W) : Prop :=
  shape (file_table s') = shape (file_table s) /\
  remount_needed s' = remount_needed s.

(** The calls [remount_file_system] makes. *)
Definition recovery_event (e : event) : bool :=
  match e with
  | EvSdcardStop | EvSdcardRetry _ | EvOpen _ _ _ _ _ | EvLseek _ _ _ => true
  | _ => false
  end.

(** *** Chunked transfers

    A chunk is what the loop of [read] or [write] saw of one turn: the
    byte count [n] it asked for, and the result and the byte count
    [size] it went on with. *)
Definition chunk : Set := (Z * FRESULT * Z)%type.

Definition chunk_n (c : chunk) : Z := fst (fst c).
Definition chunk_res (c : chunk) : FRESULT := snd (fst c).
Definition chunk_size (c : chunk) : Z := snd c.

Definition sum_sizes (chunks : list chunk) : Z :=
  foldr (fun c acc => chunk_size c + acc) 0 chunks.

Definition ev_read (fh : nat) (c : chunk) : event :=
  EvRead fh (chunk_n c) (chunk_res c) (chunk_size c).

(** The buffer of a [read] after the data of its chunks has been
    stored, each at the cursor the chunks before it left. *)
Fixpoint store_chunks (cur : Z) (cds : list (chunk * list byte))
  (buf : list byte) : list byte :=
  match cds with
  | [] => buf
  | cd :: rest =>
      store_chunks (cur + chunk_size (fst cd)) rest
                   (list_inserts (Z.to_nat cur) (snd cd) buf)
  end.

(** The shape of a chunked transfer of [remaining] bytes from cursor
    [cur], when the loop asks for [want cur remaining] bytes per turn:
    every chunk but the last moved exactly what was asked for, at least
    one byte, without error, and left something to do; the last one
    ended in an error, in a count other than the one asked for, or with
    nothing left to do. *)
Fixpoint chunked (want : Z -> Z -> Z) (cur remaining : Z) (chunks : list chunk)
  : Prop :=
  match chunks with
  | [] => False
  | c :: rest =>
      chunk_n c = want cur remaining /\
      match rest with
      | [] =>
          chunk_res c <> FR_OK \/ chunk_size c <> chunk_n c \/
          remaining - chunk_size c = 0
      | _ :: _ =>
          chunk_res c = FR_OK /\ chunk_size c = chunk_n c /\
          0 < chunk_size c /\ 0 < remaining - chunk_size c /\
          chunked want (cur + chunk_size c) (remaining - chunk_size c) rest
      end
  end.

(** The calls behind one chunk of [write]: one [f_write], or a first
    [f_write] that returned [FR_DISK_ERR], the delay, and a remount that
    either failed, the chunk keeping the first report, or succeeded and
    was followed by the second [f_write] for the same bytes, whose report
    is the chunk's. *)
Definition write_attempts (fh : nat) (c : chunk) (evs : list event) : Prop :=
  evs = [EvWrite fh (chunk_n c) (chunk_res c) (chunk_size c)] \/
  exists (size0 : Z) (mid : list event),
    Forall (fun e => recovery_event e = true) mid /\
    ((evs = EvWrite fh (chunk_n c) FR_DISK_ERR size0 :: EvDelay 100 :: mid /\
      EvSdcardRetry false ∈ mid /\
      chunk_res c = FR_DISK_ERR /\ chunk_size c = size0) \/
     (evs = EvWrite fh (chunk_n c) FR_DISK_ERR size0 :: EvDelay 100 :: mid
            ++ [EvWrite fh (chunk_n c) (chunk_res c) (chunk_size c)] /\
      EvSdcardRetry true ∈ mid)).

(** A chunk that moved no byte, or more bytes than asked for. *)
Definition bad_count (c : chunk) : Prop :=
  chunk_size c = 0 \/ chunk_n c < chunk_size c.

(** The byte count the loops of [read] and [write] ask for. *)
Definition want {W : Type} (drv : Driver W) (addr count : Z) (cur bytes : Z) : Z :=
  if mem_is_dma_safe drv (addr + cur) count then bytes
  else Z.min bytes MAX_IO_SIZE.

(** The events a call appended to the trace. *)
Definition extends {W : Type} (s s' : fs_state W) (evs : list event) : Prop :=
  trace s' = trace s ++ evs.

(** The backend calls behind the chunks of a [read], in order, from the
    state [s] on: every chunk is the report of one [f_read] asked for
    the chunk's count, on the file object and in the world that the
    chunks before it left, and comes with the data that call
    delivered. *)
Fixpoint read_calls {W : Type} (drv : Driver W) (fh : nat) (s : fs_state W)
  (cds : list (chunk * list byte)) : Prop :=
  match cds with
  | [] => True
  | cd :: rest =>
      exists s1 : fs_state W,
        call_f_read drv fh (chunk_n (fst cd)) s
        = (chunk_res (fst cd), chunk_size (fst cd), snd cd, s1) /\
        read_calls drv fh s1 rest
  end.

(** The same for a [write] from the buffer [buf]: every chunk is the
    report of [write_chunk] handed the bytes of the buffer from the
    cursor on, as many as the chunk asks for, the cursor having advanced
    by the byte count of every chunk before it. *)
Fixpoint write_calls {W : Type} (drv : Driver W) (fh : nat) (buf : list byte)
  (cur : Z) (s : fs_state W) (chunks : list chunk) : Prop :=
  match chunks with
  | [] => True
  | c :: rest =>
      exists s1 : fs_state W,
        write_chunk drv fh
          (take (Z.to_nat (chunk_n c)) (drop (Z.to_nat cur) buf)) (chunk_n c) s
        = (chunk_res c, chunk_size c, s1) /\
        write_calls drv fh buf (cur + chunk_size c) s1 rest
  end.

(** The FatFs access mode that [open] computes from the POSIX flags and
    hands to [f_open]. *)
Definition open_mode (flags : Z) : Z :=
  let fatfs_modes :=
    if Z.land flags O_ACCMODE =? O_RDWR then Z.lor FA_READ FA_WRITE
    else if Z.land flags O_ACCMODE =? O_RDONLY then FA_READ
    else FA_WRITE in
  let fatfs_modes :=
    if Z.land flags O_CREAT =? 0 then fatfs_modes
    else if Z.land flags O_TRUNC =? 0 then Z.lor fatfs_modes FA_OPEN_ALWAYS
    else Z.lor fatfs_modes FA_CREATE_ALWAYS in
  Z.land fatfs_modes 255.

(** *** The remount flag and the calls made

    The flag after the calls [evs], when it was [b] before them: a
    restart of the media session leaves it at whether the restart
    failed, and no other call changes it. *)
Definition flag_after (b : bool) (evs : list event) : bool :=
  foldl (fun b e => match e with EvSdcardRetry ok => negb ok | _ => b end) b evs.

(** [s'] comes from [s] by calls that the remount flag has followed. *)
Definition tracks {W : Type} (s s' : fs_state W) : Prop :=
  exists evs, extends s s' evs /\
              remount_needed s' = flag_after (remount_needed s) evs.

(** What an operation does once its backend call has returned
    [FR_DISK_ERR] and left the state [s1]; [final] is the state in which
    the operation returns and [fails] says that it returns its failure
    value.  With [RETRY_ALLOWED] the file system is remounted at once,
    after a delay of 100 ms when [pause] is set: when the remount
    succeeds the next call made is [again], the backend call repeated,
    and when it fails the operation fails, [finish] being what it still
    does to the state.  Without [RETRY_ALLOWED] the operation fails and
    no remount is attempted. *)
Definition on_disk_error {W : Type} (drv : Driver W) (pause : bool)
  (finish : fs_state W -> fs_state W) (again : event -> Prop)
  (s1 final : fs_state W) (fails : Prop) : Prop :=
  if RETRY_ALLOWED drv s1 then
    let rec := remount_file_system drv (if pause then call_delay drv 100 s1 else s1) in
    if fst rec then
      exists e rest, again e /\ extends (snd rec) final (e :: rest)
    else fails /\ final = finish (snd rec)
  else fails /\ final = finish s1.

(** ** The remaining operations of the FATFS backend

    The collaborators these operations call in addition to those of
    [Driver].  Their calls are not recorded in the trace: what they do is
    in the world they return. *)
Record DriverMore (W : Type) : Type := mkDriverMore {
  f_sync : FIL -> W -> FRESULT * FIL * W;
  f_unlink : string -> W -> FRESULT * W;
  f_mkdir : string -> W -> FRESULT * W;
  f_rename : string -> string -> W -> FRESULT * W;
  (* result, [fno.fname], [fno.fattrib], the directory object *)
  f_readdir : DIR -> W -> FRESULT * string * Z * DIR * W;
  f_closedir : DIR -> W -> FRESULT * W;
  (* the file name, [fno.fdate], [fno.ftime] *)
  f_utime : string -> Z -> Z -> W -> FRESULT * W;
  gmtime_r : Z -> tm
}.

Arguments f_sync {W}.
Arguments f_unlink {W}.
Arguments f_mkdir {W}.
Arguments f_rename {W}.
Arguments f_readdir {W}.
Arguments f_closedir {W}.
Arguments f_utime {W}.
Arguments gmtime_r {W}.

(** The [d_type] of a directory entry; [DT_UNSET] is a value never
    assigned by [readdir]. *)
Inductive d_type_t : Set := DT_DIR | DT_REG | DT_UNSET.

(** [struct dirent], names being strings. *)
Record dirent : Set := mkdirent { d_name : string; d_type : d_type_t }.

(** [struct DIR_Wrapper { DIR d; struct dirent de; }] *)
Record DIR_Wrapper : Set := mkDIR_Wrapper { d : DIR; de : dirent }.

Section ModelMore.
Context {W : Type} (drv : Driver W) (ext : DriverMore W).

Abbreviation state := (fs_state W).

(** [int AP_Filesystem_FATFS::fsync(int fileno)] *)
Definition fsync (fileno : Z) (s : state) : Z * state :=
  if negb (file_op_allowed drv (world s)) then (-1, s)
  else
    let s := with_errno E_OK s in
    match fileno_to_fatfs fileno s with
    | (None, s) => (-1, s)
    | (Some fh, s) =>
        let '(res, fil', w) := f_sync ext (slot_fobj fh s) (world s) in
        let s := with_world w (set_slot_fobj fh fil' s) in
        if negb (res =? FR_OK) then (-1, with_errno (fatfs_to_errno res) s)
        else (0, s)
    end.

(** [int AP_Filesystem_FATFS::unlink(const char *pathname)] *)
Definition unlink (pathname : string) (s : state) : Z * state :=
  if negb (file_op_allowed drv (world s)) then (-1, s)
  else
    let s := with_errno E_OK s in
    let '(res, w) := f_unlink ext pathname (world s) in
    let s := with_world w s in
    if negb (res =? FR_OK) then (-1, with_errno (fatfs_to_errno res) s)
    else (0, s).

(** [int AP_Filesystem_FATFS::mkdir(const char *pathname)] *)
Definition mkdir (pathname : string) (s : state) : Z * state :=
  if negb (file_op_allowed drv (world s)) then (-1, s)
  else
    let s := with_errno E_OK s in
    let '(res, w) := f_mkdir ext pathname (world s) in
    let s := with_world w s in
    if negb (res =? FR_OK) then (-1, with_errno (fatfs_to_errno res) s)
    else (0, s).

(** [int AP_Filesystem_FATFS::rename(const char *oldpath, const char *newpath)] *)
Definition rename (oldpath newpath : string) (s : state) : Z * state :=
  if negb (file_op_allowed drv (world s)) then (-1, s)
  else
    let s := with_errno E_OK s in
    let '(res, w) := f_rename ext oldpath newpath (world s) in
    let s := with_world w s in
    if negb (res =? FR_OK) then (-1, with_errno (fatfs_to_errno res) s)
    else (0, s).

(** [struct dirent *AP_Filesystem_FATFS::readdir(void *dirp_void)]: the
    entry returned, and the wrapper as the call leaves it. *)
Definition readdir (dirp : option DIR_Wrapper) (s : state)
  : option dirent * option DIR_Wrapper * state :=
  if negb (file_op_allowed drv (world s)) then (None, dirp, s)
  else
    match dirp with
    | None => (None, None, with_errno EINVAL s)
    | Some wr =>
        let e0 := mkdirent "" (d_type (de wr)) in
        let '(res, fname, fattrib, d', w) := f_readdir ext (d wr) (world s) in
        let s := with_world w s in
        if negb (res =? FR_OK) || String.eqb fname "" then
          (None, Some (mkDIR_Wrapper d' e0), with_errno (fatfs_to_errno res) s)
        else
          let e :=
            mkdirent fname
              (if Z.land fattrib AM_DIR =? 0 then DT_REG else DT_DIR) in
          (Some e, Some (mkDIR_Wrapper d' e), s)
    end.

(** [int AP_Filesystem_FATFS::closedir(void *dirp_void)]: the wrapper is
    deleted whatever [f_closedir] returns. *)
Definition closedir (dirp : option DIR_Wrapper) (s : state) : Z * state :=
  if negb (file_op_allowed drv (world s)) then (-1, s)
  else
    match dirp with
    | None => (-1, with_errno EINVAL s)
    | Some wr =>
        let '(res, w) := f_closedir ext (d wr) (world s) in
        let s := with_world w s in
        if negb (res =? FR_OK) then (-1, with_errno (fatfs_to_errno res) s)
        else (0, s)
    end.

(** [uint32_t AP_Filesystem_FATFS::bytes_until_fsync(int fd)] *)
Definition bytes_until_fsync (fd : Z) (s : state) : Z * state :=
  if negb (file_op_allowed drv (world s)) then (0, s)
  else
    match fileno_to_fatfs fd s with
    | (None, s) => (0, s)
    | (Some fh, s) =>
        let block_size := MAX_IO_SIZE in
        let block_pos := fptr (slot_fobj fh s) mod block_size in
        (block_size - block_pos, s)
    end.

(** [static void unix_time_to_fat(time_t epoch, uint16_t &date, uint16_t &time)] *)
Definition unix_time_to_fat (epoch : Z) : Z * Z :=
  let t := gmtime_r ext epoch in
  let date :=
    u16 (Z.lor (Z.lor (Z.shiftl (u16 (tm_year t - 80)) 9)
                      (Z.shiftl (u16 (tm_mon t) + 1) 5))
               (u16 (tm_mday t))) in
  let time :=
    u16 (Z.lor (Z.lor (Z.shiftl (u16 (tm_hour t)) 11)
                      (Z.shiftl (u16 (tm_min t)) 5))
               (Z.shiftr (u16 (tm_sec t)) 1)) in
  (date, time).

(** [bool AP_Filesystem_FATFS::set_mtime(const char *filename, const uint32_t mtime_sec)] *)
Definition set_mtime (filename : string) (mtime_sec : Z) (s : state)
  : bool * state :=
  let '(fdate, ftime) := unix_time_to_fat mtime_sec in
  if negb (file_op_allowed drv (world s)) then (false, s)
  else
    let '(res, w) := f_utime ext filename fdate ftime (world s) in
    (res =? FR_OK, with_world w s).

(** [bool AP_Filesystem_FATFS::retry_mount(void)] *)
Definition retry_mount (s : state) : bool * state :=
  if negb (file_op_allowed drv (world s)) then (false, s)
  else call_sdcard_retry drv s.

(** [void AP_Filesystem_FATFS::unmount(void)] *)
Definition unmount (s : state) : state := call_sdcard_stop drv s.

End ModelMore.

(** A broken-down time that a FAT timestamp can hold: the years 1980 to
    2107, seconds up to a leap second. *)
Definition fat_tm_range (t : tm) : Prop :=
  0 <= tm_sec t <= 60 /\ 0 <= tm_min t <= 59 /\ 0 <= tm_hour t <= 23 /\
  0 <= tm_mday t <= 31 /\ 0 <= tm_mon t <= 11 /\ 80 <= tm_year t <= 207.

End FATFS.

(** ** The error texts

    [char *strerror(int errnum)] of AP_Filesystem_FATFS.cpp.  The error
    numbers it knows are those of the cases of its [switch]; any other
    number is [other]. *)
Module Strerror.

Inductive errnum : Set :=
| EPERM | ENOENT | ESRCH | EINTR | EIO | ENXIO | E2BIG | ENOEXEC | EBADF
| ECHILD | EAGAIN | ENOMEM | EACCES | EFAULT | ENOTBLK | EBUSY | EEXIST
| EXDEV | ENODEV | ENOTDIR | EISDIR | EINVAL | ENFILE | EMFILE | ENOTTY
| ETXTBSY | EFBIG | ENOSPC | ESPIPE | EROFS | EMLINK | EPIPE | EDOM | ERANGE
| EBADMSG
| other (n : Z).

(** [None] is the null pointer. *)
Definition strerror (n : errnum) : option string :=
  match n with
  | EPERM => Some "EPERM"
  | ENOENT => Some "ENOENT"
  | ESRCH => Some "ESRCH"
  | EINTR => Some "EINTR"
  | EIO => Some "EIO"
  | ENXIO => Some "ENXIO"
  | E2BIG => Some "E2BIG"
  | ENOEXEC => Some "ENOEXEC"
  | EBADF => Some "EBADF"
  | ECHILD => Some "ECHILD"
  | EAGAIN => Some "EAGAIN"
  | ENOMEM => Some "ENOMEM"
  | EACCES => Some "EACCES"
  | EFAULT => Some "EFAULT"
  | ENOTBLK => Some "ENOTBLK"
  | EBUSY => Some "EBUSY"
  | EEXIST => Some "EEXIST"
  | EXDEV => Some "EXDEV"
  | ENODEV => Some "ENODEV"
  | ENOTDIR => Some "ENOTDIR"
  | EISDIR => Some "EISDIR"
  | EINVAL => Some "EINVAL"
  | ENFILE => Some "ENFILE"
  | EMFILE => Some "EMFILE"
  | ENOTTY => Some "ENOTTY"
  | ETXTBSY => Some "ETXTBSY"
  | EFBIG => Some "EFBIG"
  | ENOSPC => Some "ENOSPC"
  | ESPIPE => Some "ESPIPE"
  | EROFS => Some "EROFS"
  | EMLINK => Some "EMLINK"
  | EPIPE => Some "EPIPE"
  | EDOM => Some "EDOM"
  | ERANGE => Some "ERANGE"
  | EBADMSG => Some "EBADMSG"
  | other _ => None
  end.

End Strerror.

(** The error numbers this layer sets, among those of [strerror]. *)
Definition of_errno (e : errno_t) : Strerror.errnum :=
  match e with
  | E_OK => Strerror.other 0
  | EPERM => Strerror.EPERM
  | ENOENT => Strerror.ENOENT
  | EIO => Strerror.EIO
  | ENXIO => Strerror.ENXIO
  | EBADF => Strerror.EBADF
  | ENOMEM => Strerror.ENOMEM
  | EACCES => Strerror.EACCES
  | EBUSY => Strerror.EBUSY
  | EEXIST => Strerror.EEXIST
  | EINVAL => Strerror.EINVAL
  | ENFILE => Strerror.ENFILE
  | EMFILE => Strerror.EMFILE
  | ENOSPC => Strerror.ENOSPC
  | EROFS => Strerror.EROFS
  | EBADMSG => Strerror.EBADMSG
  end.

(** * The ROMFS backend *)
Module ROMFS.

(** An entry of [file[]]: the decompressed image of an embedded file
    ([None] is the null pointer, a free record), its size and the read
    offset. *)
Record rfile : Set := mkrfile { data : option (list byte); size : Z; ofs : Z }.

(** An entry of [dir[]]: the queried path ([None] for a free record) and
    the enumeration offset. *)
Record rdir : Set := mkrdir { path : option string; dir_ofs : Z }.

(** The members of the backend object and [errno].  [max_open_file] and
    [max_open_dir] are the declared sizes of the two arrays, here the
    lengths of the lists. *)
Record romfs_state : Set := mkState {
  file : list rfile;
  dir : list rdir;
  errno : errno_t
}.

Definition with_errno (e : errno_t) (s : romfs_state) : romfs_state :=
  mkState (file s) (dir s) e.
Definition with_file (f : list rfile) (s : romfs_state) : romfs_state :=
  mkState f (dir s) (errno s).

Definition max_open_file (s : romfs_state) : Z := Z.of_nat (length (file s)).

(** The test [fd < 0 || fd >= max_open_file || file[fd].data == nullptr]
    of [close], [read] and [lseek]: the record of a valid descriptor. *)
Definition lookup_fd (fd : Z) (s : romfs_state) : option rfile :=
  if (fd <? 0) || (max_open_file s <=? fd) then None
  else
    match file s !! Z.to_nat fd with
    | Some r => match data r with Some _ => Some r | None => None end
    | None => None
    end.

(** [int AP_Filesystem_ROMFS::close(int fd)] *)
Definition close (fd : Z) (s : romfs_state) : Z * romfs_state :=
  match lookup_fd fd s with
  | None => (-1, with_errno EBADF s)
  | Some r =>
      (0, with_file (<[Z.to_nat fd := mkrfile None (size r) (ofs r)]> (file s)) s)
  end.

(** [int32_t AP_Filesystem_ROMFS::read(int fd, void *buf, uint32_t count)]:
    the bytes copied are returned with the count. *)
Definition read (fd : Z) (count : Z) (s : romfs_state)
  : Z * list byte * romfs_state :=
  match lookup_fd fd s with
  | None => (-1, [], with_errno EBADF s)
  | Some r =>
      let count := Z.min (u32 (size r - ofs r)) count in
      if count =? 0 then (0, [], s)
      else
        let bytes :=
          take (Z.to_nat count) (drop (Z.to_nat (ofs r)) (default [] (data r))) in
        (to_int32 count, bytes,
         with_file (<[Z.to_nat fd := mkrfile (data r) (size r) (u32 (ofs r + count))]>
                      (file s)) s)
  end.

(** [int32_t AP_Filesystem_ROMFS::write(int fd, const void *buf, uint32_t count)] *)
Definition write (fd : Z) (buf : list byte) (count : Z) (s : romfs_state)
  : Z * romfs_state :=
  (-1, with_errno EROFS s).

(** [int AP_Filesystem_ROMFS::unlink(const char *pathname)] *)
Definition unlink (pathname : string) (s : romfs_state) : Z * romfs_state :=
  (-1, with_errno EROFS s).

(** [int AP_Filesystem_ROMFS::mkdir(const char *pathname)] *)
Definition mkdir (pathname : string) (s : romfs_state) : Z * romfs_state :=
  (-1, with_errno EROFS s).

(** *** The operations that consult the embedded image

    [AP_ROMFS] is outside this backend.  [find_decompress name size]
    takes the value the [size] reference holds and returns the data
    pointer ([None] is null) with the value it leaves in [size];
    [dir_list dirname ofs] returns the next name and the advanced offset. *)
Record Image : Type := mkImage {
  find_decompress : string -> Z -> option (list byte) * Z;
  dir_list : string -> Z -> option string * Z
}.

Definition with_dir (d : list rdir) (s : romfs_state) : romfs_state :=
  mkState (file s) d (errno s).

Definition max_open_dir (s : romfs_state) : Z := Z.of_nat (length (dir s)).

(** stdio.h *)
Definition SEEK_SET : Z := 0.
Definition SEEK_CUR : Z := 1.
Definition SEEK_END : Z := 2.

(** The scan [for (idx=0; idx<max_open_file; idx++) if (file[idx].data
    == nullptr) break;] from index [idx] on: the first free record.  The
    index is a [uint8_t], which the declared sizes of the arrays fit. *)
Fixpoint free_file (l : list rfile) (idx : nat) : option (nat * rfile) :=
  match l with
  | [] => None
  | r :: l =>
      match data r with
      | None => Some (idx, r)
      | Some _ => free_file l (S idx)
      end
  end.

(** The same scan over [dir[]], on [path]. *)
Fixpoint free_dir (l : list rdir) (idx : nat) : option (nat * rdir) :=
  match l with
  | [] => None
  | r :: l =>
      match path r with
      | None => Some (idx, r)
      | Some _ => free_dir l (S idx)
      end
  end.

Section WithImage.
Context (img : Image).

(** [int AP_Filesystem_ROMFS::open(const char *fname, int flags, bool)] *)
Definition open (fname : string) (flags : Z) (allow_absolute_paths : bool)
  (s : romfs_state) : Z * romfs_state :=
  if negb (Z.land flags O_ACCMODE =? O_RDONLY) then (-1, with_errno EROFS s)
  else
    match free_file (file s) 0 with
    | None => (-1, with_errno ENFILE s)
    | Some (idx, r) =>
        let '(dat, sz) := find_decompress img fname (size r) in
        let s := with_file (<[idx := mkrfile dat (u32 sz) (ofs r)]> (file s)) s in
        match dat with
        | None => (-1, with_errno ENOENT s)
        | Some _ =>
            (Z.of_nat idx,
             with_file (<[idx := mkrfile dat (u32 sz) 0]> (file s)) s)
        end
    end.

(** [int32_t AP_Filesystem_ROMFS::lseek(int fd, int32_t offset, int seek_from)] *)
Definition lseek (fd offset seek_from : Z) (s : romfs_state) : Z * romfs_state :=
  match lookup_fd fd s with
  | None => (-1, with_errno EBADF s)
  | Some r =>
      let set (o : Z) :=
        (to_int32 o,
         with_file (<[Z.to_nat fd := mkrfile (data r) (size r) o]> (file s)) s) in
      if seek_from =? SEEK_SET then
        if offset <? 0 then (-1, with_errno EINVAL s)
        else set (Z.min (size r) (u32 offset))
      else if seek_from =? SEEK_CUR then
        set (Z.min (size r) (u32 (offset + ofs r)))
      else if seek_from =? SEEK_END then set (size r)
      else (to_int32 (ofs r), s)
  end.

(** [void *AP_Filesystem_ROMFS::opendir(const char *pathname)]: the
    pointer returned is the index of the record; [strdup_ok] tells
    whether [strdup] succeeds. *)
Definition opendir (pathname : string) (strdup_ok : bool) (s : romfs_state)
  : option Z * romfs_state :=
  match free_dir (dir s) 0 with
  | None => (None, with_errno ENFILE s)
  | Some (idx, _) =>
      if negb strdup_ok then
        (None, with_dir (<[idx := mkrdir None 0]> (dir s)) s)
      else
        let '(name, _) := dir_list img pathname 0 in
        let s := with_dir (<[idx := mkrdir (Some pathname) 0]> (dir s)) s in
        match name with
        | None => (None, s)
        | Some _ => (Some (Z.of_nat idx), s)
        end
  end.

(** [int AP_Filesystem_ROMFS::closedir(void *dirp)]: [dirp] is the
    difference [((rdir * )dirp) - &dir[0]]. *)
Definition closedir (dirp : Z) (s : romfs_state) : Z * romfs_state :=
  let idx := u32 dirp in
  if max_open_dir s <=? idx then (-1, with_errno EBADF s)
  else
    match dir s !! Z.to_nat idx with
    | Some r =>
        (0, with_dir (<[Z.to_nat idx := mkrdir None (dir_ofs r)]> (dir s)) s)
    | None => (-1, with_errno EBADF s)
    end.

End WithImage.

(** The open records are within bounds: offset at most the size, the
    size a 32-bit count. *)
Definition offsets_ok (s : romfs_state) : Prop :=
  forall (i : nat) (r : rfile) (dat : list byte),
    file s !! i = Some r -> data r = Some dat ->
    0 <= ofs r <= size r /\ size r < 2^32.

(** The records hold as many bytes as their size says. *)
Definition sizes_ok (s : romfs_state) : Prop :=
  forall (i : nat) (r : rfile) (dat : list byte),
    file s !! i = Some r -> data r = Some dat ->
    size r = Z.of_nat (length dat).

End ROMFS.

(** * A scripted collaborator

    A concrete world for running the model: the answers the media driver
    and FatFs will give are listed in the world and consumed in order. *)
Module Script.
Import FATFS.

Record world : Set := mkWorld {
  allowed : bool;                          (* file_op_allowed *)
  main_thread_armed : bool;                (* in the main thread and armed *)
  dma_safe : bool;                         (* every buffer is transfer-safe *)
  heap_ok : bool;                          (* allocations succeed *)
  retry_script : list bool;                (* answers of sdcard_retry *)
  open_script : list FRESULT;              (* results of f_open *)
  read_script : list (FRESULT * Z * list byte);   (* f_read: result, size, data *)
  write_script : list (FRESULT * Z);       (* f_write: result, size *)
  getfree_script : list (FRESULT * getfree_t);
  mkfs_script : list FRESULT
}.

Definition pop {A : Type} (d : A) (l : list A) : A * list A :=
  match l with
  | [] => (d, [])
  | x :: l => (x, l)
  end.

Definition s_sdcard_retry (w : world) : bool * world :=
  let '(b, l) := pop true (retry_script w) in
  (b, mkWorld (allowed w) (main_thread_armed w) (dma_safe w) (heap_ok w) l
              (open_script w) (read_script w) (write_script w)
              (getfree_script w) (mkfs_script w)).

(** A successful [f_open] fills the object: position 0, the mode as
    flag, and a non-zero remainder. *)
Definition s_f_open (fh : FIL) (path : string) (mode : Z) (w : world)
  : FRESULT * FIL * world :=
  let '(r, l) := pop FR_OK (open_script w) in
  (r, if r =? FR_OK then mkFIL 0 mode 0 1 else fh,
   mkWorld (allowed w) (main_thread_armed w) (dma_safe w) (heap_ok w)
           (retry_script w) l (read_script w) (write_script w)
           (getfree_script w) (mkfs_script w)).

Definition s_f_lseek (fh : FIL) (ofs : Z) (w : world) : FRESULT * FIL * world :=
  (FR_OK, mkFIL ofs (flag fh) (objsize fh) (fil_rest fh), w).

Definition s_f_read (fh : FIL) (n : Z) (w : world)
  : FRESULT * Z * list byte * FIL * world :=
  let '(r, size, data, l) := pop (FR_OK, 0, []) (read_script w) in
  (r, size, data, mkFIL (fptr fh + size) (flag fh) (objsize fh) (fil_rest fh),
   mkWorld (allowed w) (main_thread_armed w) (dma_safe w) (heap_ok w)
           (retry_script w) (open_script w) l (write_script w)
           (getfree_script w) (mkfs_script w)).

Definition s_f_write (fh : FIL) (data : list byte) (n : Z) (w : world)
  : FRESULT * Z * FIL * world :=
  let '(r, size, l) := pop (FR_OK, n) (write_script w) in
  (r, size, mkFIL (fptr fh + size) (flag fh) (objsize fh) (fil_rest fh),
   mkWorld (allowed w) (main_thread_armed w) (dma_safe w) (heap_ok w)
           (retry_script w) (open_script w) (read_script w) l
           (getfree_script w) (mkfs_script w)).

Definition s_f_getfree (w : world) : FRESULT * getfree_t * world :=
  let '(r, g, l) := pop (FR_OK, mkgetfree 0 0 2) (getfree_script w) in
  (r, g,
   mkWorld (allowed w) (main_thread_armed w) (dma_safe w) (heap_ok w)
           (retry_script w) (open_script w) (read_script w) (write_script w)
           l (mkfs_script w)).

Definition s_f_mkfs (w : world) : FRESULT * world :=
  let '(r, l) := pop FR_OK (mkfs_script w) in
  (r,
   mkWorld (allowed w) (main_thread_armed w) (dma_safe w) (heap_ok w)
           (retry_script w) (open_script w) (read_script w) (write_script w)
           (getfree_script w) l).

(** The collaborators, given the transfer-safety predicate. *)
Definition driver_with (safe : Z -> Z -> bool) : Driver world :=
  mkDriver world
    true
    allowed
    main_thread_armed
    main_thread_armed
    (fun _ w => w)
    (fun w => w)
    s_sdcard_retry
    safe
    (fun w => (heap_ok w, w))
    (fun w => (heap_ok w, w))
    (fun w => (heap_ok w, w))
    (fun w => (heap_ok w, w))
    (fun _ => 0)
    s_f_open
    (fun _ w => (FR_OK, w))
    s_f_lseek
    s_f_read
    s_f_write
    (fun _ w => (FR_OK, mkFILINFO 0 0 0 0, w))
    (fun _ w => (FR_OK, 0, w))
    s_f_getfree
    s_f_mkfs.

(** No buffer is transfer-safe: every request is chunked. *)
Definition driver : Driver world := driver_with (fun _ _ => false).


(** The further collaborators: every call succeeds, a directory has no
    entry, and the calendar says 25 December 2024, 12:15:31. *)
Definition more : DriverMore world :=
  mkDriverMore world
    (fun fh w => (FR_OK, fh, w))
    (fun _ w => (FR_OK, w))
    (fun _ w => (FR_OK, w))
    (fun _ _ w => (FR_OK, w))
    (fun d w => (FR_OK, "", 0, d, w))
    (fun _ w => (FR_OK, w))
    (fun _ _ _ w => (FR_OK, w))
    (fun _ => mktm 31 15 12 25 11 124).

(** A healthy world: everything allowed, every call succeeds, every
    buffer needs chunking. *)
Definition calm : world := mkWorld true false false true [] [] [] [] [] [].

(** One file open for reading and writing at offset 100 in slot 0. *)
Definition one_open (w : world) : fs_state world :=
  FATFS.mkState false
    (<[0%nat := Some (mkFAT_FILE (mkFIL 100 3 500 1) "log.bin")]>
       (replicate MAX_FILES None))
    IDLE E_OK w [].

(** All sixteen slots occupied by read-only files. *)
Definition all_open (remount : bool) (w : world) : fs_state world :=
  FATFS.mkState remount
    (replicate MAX_FILES (Some (mkFAT_FILE (mkFIL 0 1 0 1) "a.txt")))
    IDLE E_OK w [].

(** The volume is mounted and [f_getfree] answers with a disk error. *)
Definition getfree_fails : world :=
  mkWorld true false false true [] [] [] [] [(FR_DISK_ERR, mkgetfree 0 0 2)] [].

(** A format was requested and the scratch buffer cannot be allocated. *)
Definition format_pending_no_memory : fs_state world :=
  snd (format driver
         (init_state (mkWorld true false false false [] [] [] [] [] []))).

(** The card is lost for good: restarting the session fails. *)
Definition card_gone : world :=
  mkWorld true false false true [false; false] [] [] [] [] [].

(** [f_read] answers with a disk error once, then delivers four bytes. *)
Definition read_error_once : world :=
  mkWorld true false false true [] []
    [(FR_DISK_ERR, 0, []); (FR_OK, 4, [x01; x02; x03; x04])] [] [] [].


(** [f_write] answers with a disk error and no byte moved once, then
    writes whatever it is asked to. *)
Definition write_error_once : world :=
  mkWorld true false false true [] [] [] [(FR_DISK_ERR, 0)] [] [].

(** [f_write] answers with a disk error, and the card is lost: the
    restart of the session fails. *)
Definition write_error_card_gone : world :=
  mkWorld true false false true [false] [] [] [(FR_DISK_ERR, 0)] [] [].

(** [f_open] answers with a disk error, and the card is lost. *)
Definition open_error_card_gone : world :=
  mkWorld true false false true [false] [FR_DISK_ERR] [] [] [] [].

(** The collaborators of a card whose directory is out of reach:
    [f_stat] and [f_opendir] answer with a disk error, every time. *)
Definition driver_lost : Driver world :=
  mkDriver world
    true
    allowed
    main_thread_armed
    main_thread_armed
    (fun _ w => w)
    (fun w => w)
    s_sdcard_retry
    (fun _ _ => false)
    (fun w => (heap_ok w, w))
    (fun w => (heap_ok w, w))
    (fun w => (heap_ok w, w))
    (fun w => (heap_ok w, w))
    (fun _ => 0)
    s_f_open
    (fun _ w => (FR_OK, w))
    s_f_lseek
    s_f_read
    s_f_write
    (fun _ w => (FR_DISK_ERR, mkFILINFO 0 0 0 0, w))
    (fun _ w => (FR_DISK_ERR, 0, w))
    s_f_getfree
    s_f_mkfs.

(** File operations are not allowed. *)
Definition refused : world := mkWorld false false false true [] [] [] [] [] [].

(** [f_write] reports nine bytes moved, whatever it was asked for. *)
Definition write_too_many : world :=
  mkWorld true false false true [] [] [] [(FR_OK, 9)] [] [].

(** The state after sixteen successful opens since start-up. *)
Definition sixteen_opens : fs_state world :=
  foldl (fun s _ => snd (open driver "a.txt" O_RDONLY false s))
        (init_state calm) (seq 0 16).

End Script.

(** * An embedded image

    A concrete image for running the ROMFS model: one file of five
    bytes, and one directory with an entry. *)
Module RomScript.
Import ROMFS.

Definition image : Image :=
  mkImage
    (fun name sz =>
       if String.eqb name "defaults.parm"
       then (Some [x01; x02; x03; x04; x05], 5) else (None, sz))
    (fun dirname o =>
       if String.eqb dirname "scripts"
       then (Some "scripts/a.lua", o + 1) else (None, o)).

(** Four file records and four directory records, all free. *)
Definition empty : romfs_state :=
  mkState (replicate 4 (mkrfile None 0 0)) (replicate 4 (mkrdir None 0)) E_OK.

(** The state after opening the file. *)
Definition opened : romfs_state :=
  snd (open image "defaults.parm" O_RDONLY false empty).

(** Three directory records are in use. *)
Definition one_dir_left : romfs_state :=
  mkState (replicate 4 (mkrfile None 0 0))
    [mkrdir (Some "a") 0; mkrdir (Some "b") 0; mkrdir None 0; mkrdir (Some "c") 0]
    E_OK.

End RomScript.

(** * Properties *)

(** ** The result translator *)

Lemma fatfs_to_errno_unmapped (r : FRESULT) :
  r < 0 \/ 19 < r -> fatfs_to_errno r = EBADMSG.
Proof.
  intros H. unfold fatfs_to_errno.
  destruct r as [|p|p]; [lia | | reflexivity].
  do 5 (destruct p as [p|p|]; try reflexivity; try lia).
Qed.

Lemma mapped_codes_range (r : FRESULT) : In r mapped_codes <-> 0 <= r <= 19.
Proof.
  split.
  - intros H. repeat (destruct H as [<-|H]; [vm_compute; split; discriminate|]).
    destruct H.
  - intros H.
    assert (r = 0 \/ r = 1 \/ r = 2 \/ r = 3 \/ r = 4 \/ r = 5 \/ r = 6 \/ r = 7
            \/ r = 8 \/ r = 9 \/ r = 10 \/ r = 11 \/ r = 12 \/ r = 13 \/ r = 14
            \/ r = 15 \/ r = 16 \/ r = 17 \/ r = 18 \/ r = 19) as Hc by lia.
    repeat (destruct Hc as [->|Hc]; [vm_compute; tauto|]).
    subst r. vm_compute. tauto.
Qed.

(** Out-of-space is the translation of the missing work area only. *)
Lemma fatfs_to_errno_enospc (r : FRESULT) :
  fatfs_to_errno r = ENOSPC <-> r = FR_NOT_ENABLED.
Proof.
  split; [|by intros ->].
  intros H.
  destruct (Z_lt_le_dec r 0) as [H0|H0];
    [rewrite fatfs_to_errno_unmapped in H by lia; discriminate|].
  destruct (Z_lt_le_dec 19 r) as [H1|H1];
    [rewrite fatfs_to_errno_unmapped in H by lia; discriminate|].
  assert (r = 0 \/ r = 1 \/ r = 2 \/ r = 3 \/ r = 4 \/ r = 5 \/ r = 6 \/ r = 7
          \/ r = 8 \/ r = 9 \/ r = 10 \/ r = 11 \/ r = 12 \/ r = 13 \/ r = 14
          \/ r = 15 \/ r = 16 \/ r = 17 \/ r = 18 \/ r = 19) as Hc by lia.
  repeat (destruct Hc as [->|Hc]; [first [reflexivity|discriminate H]|]).
  subst r. discriminate H.
Qed.

(** C8 (amended).  [fatfs_to_errno] is a function from every result
    code to one error classification: a device error is an I/O error,
    no-such-file and no-such-path are not-found, an invalid name is
    invalid-argument, a volume without work area is out-of-space, locked
    (sharing policy), not-ready and timeout are resource-busy,
    write-protected is read-only-filesystem, too-many-open-files is
    too-many-files, and every code without a case of its own, whatever
    its value, is the generic bad-message error.  No error code is
    classified as success.  The one code FatFs has for a full directory,
    [FR_DENIED], is permission-denied: out-of-space is the translation of
    the missing work area and of nothing else.  The remaining cases of
    the switch are as listed. *)
Theorem fatfs_to_errno_classification :
  fatfs_to_errno FR_DISK_ERR = EIO /\
  fatfs_to_errno FR_NO_FILE = ENOENT /\
  fatfs_to_errno FR_NO_PATH = ENOENT /\
  fatfs_to_errno FR_INVALID_NAME = EINVAL /\
  fatfs_to_errno FR_NOT_ENABLED = ENOSPC /\
  fatfs_to_errno FR_LOCKED = EBUSY /\
  fatfs_to_errno FR_NOT_READY = EBUSY /\
  fatfs_to_errno FR_TIMEOUT = EBUSY /\
  fatfs_to_errno FR_WRITE_PROTECTED = EROFS /\
  fatfs_to_errno FR_TOO_MANY_OPEN_FILES = EMFILE /\
  (forall r : FRESULT, ~ In r mapped_codes -> fatfs_to_errno r = EBADMSG) /\
  (forall r : FRESULT, exists e : errno_t,
      fatfs_to_errno r = e /\ (r <> FR_OK -> e <> E_OK)) /\
  fatfs_to_errno FR_DENIED = EACCES /\
  (forall r : FRESULT, fatfs_to_errno r = ENOSPC <-> r = FR_NOT_ENABLED) /\
  fatfs_to_errno FR_OK = E_OK /\
  fatfs_to_errno FR_INT_ERR = EPERM /\
  fatfs_to_errno FR_EXIST = EEXIST /\
  fatfs_to_errno FR_INVALID_OBJECT = EINVAL /\
  fatfs_to_errno FR_INVALID_DRIVE = ENXIO /\
  fatfs_to_errno FR_NO_FILESYSTEM = ENXIO /\
  fatfs_to_errno FR_MKFS_ABORTED = EINVAL /\
  fatfs_to_errno FR_NOT_ENOUGH_CORE = ENOMEM /\
  fatfs_to_errno FR_INVALID_PARAMETER = EINVAL.
Proof.
  repeat (split; [reflexivity|]). split; [|split].
  - intros r Hr. apply fatfs_to_errno_unmapped.
    rewrite mapped_codes_range in Hr. lia.
  - intros r. eexists. split; [reflexivity|]. intros Hr.
    destruct (Z_le_dec 0 r) as [H0|H0]; [destruct (Z_le_dec r 19) as [H1|H1]|].
    + assert (r = 1 \/ r = 2 \/ r = 3 \/ r = 4 \/ r = 5 \/ r = 6 \/ r = 7
            \/ r = 8 \/ r = 9 \/ r = 10 \/ r = 11 \/ r = 12 \/ r = 13 \/ r = 14
            \/ r = 15 \/ r = 16 \/ r = 17 \/ r = 18 \/ r = 19) as Hc
        by (unfold FR_OK in Hr; lia).
      repeat (destruct Hc as [->|Hc]; [discriminate|]). subst r. discriminate.
    + rewrite fatfs_to_errno_unmapped by lia. discriminate.
    + rewrite fatfs_to_errno_unmapped by lia. discriminate.
  - split; [reflexivity|]. split; [exact fatfs_to_errno_enospc|].
    repeat split; reflexivity.
Qed.

Lemma fatfs_to_errno_classification_witness :
  ~ In 42 mapped_codes /\ fatfs_to_errno 42 = EBADMSG /\
  fatfs_to_errno (-1) = EBADMSG.
Proof.
  assert (H42 : ~ In 42 mapped_codes)
    by (rewrite mapped_codes_range; lia).
  assert (Hm1 : ~ In (-1) mapped_codes)
    by (rewrite mapped_codes_range; lia).
  pose proof fatfs_to_errno_classification as H.
  destruct H as (_ & _ & _ & _ & _ & _ & _ & _ & _ & _ & H & _).
  split; [exact H42|]. split; [exact (H 42 H42) | exact (H (-1) Hm1)].
Defined.

(** C8, as stated, fails: the code FatFs returns for a full directory,
    [FR_DENIED] ("access denied due to prohibited access or directory
    full"), is translated to [EACCES], not to the out-of-space error, and
    no code other than [FR_NOT_ENABLED] is translated to [ENOSPC]. *)
Lemma directory_full_is_access_denied :
  fatfs_to_errno FR_DENIED = EACCES /\
  fatfs_to_errno FR_DENIED <> ENOSPC /\
  Forall (fun r => r <> FR_NOT_ENABLED -> fatfs_to_errno r <> ENOSPC) mapped_codes.
Proof.
  split; [reflexivity|]. split; [discriminate|].
  unfold mapped_codes.
  repeat (constructor; [first [by intros _|by intros H; destruct H]|]).
  constructor.
Qed.

(** ** The read-only backend *)

(** C9.  On the ROMFS backend [write], [unlink] and [mkdir] return -1
    with [errno] set to [EROFS] for every input and every state, and
    leave the file records and the directory records as they were. *)
Theorem romfs_write_unlink_mkdir_read_only
  (s : ROMFS.romfs_state) (fd count : Z) (buf : list byte) (pathname : string) :
  let check (r : Z * ROMFS.romfs_state) :=
    fst r = -1 /\ ROMFS.errno (snd r) = EROFS /\
    ROMFS.file (snd r) = ROMFS.file s /\ ROMFS.dir (snd r) = ROMFS.dir s in
  check (ROMFS.write fd buf count s) /\
  check (ROMFS.unlink pathname s) /\
  check (ROMFS.mkdir pathname s).
Proof.
  cbv zeta. unfold ROMFS.write, ROMFS.unlink, ROMFS.mkdir. cbn.
  repeat split; reflexivity.
Qed.

(** ** Disk usage and formatting *)

Section DiskAndFormat.
Import FATFS.
Context {W : Type} (drv : Driver W).

(** On a mounted volume, a failing [f_getfree] makes [disk_free] return
    the FatFs result code and [disk_space] return -1. *)
Lemma disk_free_on_failure (path : string) (s : fs_state W) (res : FRESULT)
  (g : getfree_t) (w : W) :
  file_op_allowed drv (world s) = true ->
  remount_needed s = false ->
  f_getfree drv (world s) = (res, g, w) ->
  res <> FR_OK ->
  fst (disk_free drv path s) = res /\ fst (disk_space drv path s) = -1.
Proof.
  intros Ha Hn Hg Hres. unfold disk_free, disk_space, CHECK_REMOUNT, call_f_getfree.
  rewrite Ha, Hn. cbn [negb]. rewrite Hg.
  assert ((res =? 0) = false) as -> by by apply Z.eqb_neq.
  by split.
Qed.

(** The worker does nothing unless a format is pending; a pending format
    ends in [SUCCESS] or [FAILURE] when the scratch buffer is allocated,
    and is left at [IN_PROGRESS] when it is not. *)
Lemma format_handler_outcomes (s : fs_state W) :
  (format_status s <> PENDING -> format_handler drv s = s) /\
  (FF_USE_MKFS drv = true -> format_status s = PENDING ->
   if fst (malloc_type_ok drv (world s))
   then format_status (format_handler drv s) = SUCCESS \/
        format_status (format_handler drv s) = FAILURE
   else format_status (format_handler drv s) = IN_PROGRESS).
Proof.
  split.
  - intros Hne. unfold format_handler. destruct (FF_USE_MKFS drv); [|done].
    cbn [negb]. by destruct (format_status s).
  - intros Hmk Hp. unfold format_handler, alloc, call_f_mkfs, call_sdcard_retry.
    rewrite Hmk, Hp. cbn [negb FormatStatus_eqb world log with_format].
    destruct (malloc_type_ok drv (world s)) as [ok w1]. cbn [fst].
    destruct ok; cbn [negb]; [|done].
    cbn [world with_world]. destruct (f_mkfs drv w1) as [ret w2].
    destruct (ret =? FR_OK); cbn; destruct (sdcard_retry drv _); cbn; auto.
Qed.

End DiskAndFormat.

Section CodeAtInputs.
Import FATFS Script.

(** C4.  With [f_getfree] reporting [FR_DISK_ERR], [disk_free] hands
    the FatFs result code 1 to its caller as if it were a byte count,
    where [disk_space] in the same situation returns -1. *)
Theorem disk_free_returns_fatfs_code :
  fst (disk_free driver "/" (init_state getfree_fails)) = FR_DISK_ERR /\
  fst (disk_free driver "/" (init_state getfree_fails)) = 1 /\
  errno (snd (disk_free driver "/" (init_state getfree_fails))) = E_OK /\
  fst (disk_space driver "/" (init_state getfree_fails)) = -1.
Proof. repeat split; reflexivity. Qed.

(** C5.  When the allocation of the scratch buffer fails, the worker
    returns with the job state left at [IN_PROGRESS] and without having
    called [f_mkfs]. *)
Theorem format_handler_stuck_in_progress :
  format_status format_pending_no_memory = PENDING /\
  get_format_status (format_handler driver format_pending_no_memory) = IN_PROGRESS /\
  trace (format_handler driver format_pending_no_memory)
    = [EvSendText "Formatting SDCard"].
Proof. repeat split; reflexivity. Qed.

End CodeAtInputs.

(** ** Recovery: what a remount does to the handle table *)

Section Recovery.
Import FATFS.
Context {W : Type} (drv : Driver W).

Abbreviation state := (fs_state W).

Lemma extends_refl (s : state) : extends s s [].
Proof. unfold extends. by rewrite app_nil_r. Qed.

Lemma extends_trans (s1 s2 s3 : state) (e1 e2 : list event) :
  extends s1 s2 e1 -> extends s2 s3 e2 -> extends s1 s3 (e1 ++ e2).
Proof. unfold extends. intros H1 H2. by rewrite H2, H1, app_assoc. Qed.

Lemma set_slot_fobj_lookup (i j : nat) (fh : FIL) (s : state) :
  file_table (set_slot_fobj i fh s) !! j =
  match file_table s !! j with
  | Some (Some f) => if decide (i = j) then Some (Some (mkFAT_FILE fh (name f)))
                     else Some (Some f)
  | o => o
  end.
Proof.
  unfold set_slot_fobj.
  destruct (file_table s !! i) as [[f|]|] eqn:Hi; cbn.
  - destruct (decide (i = j)) as [->|Hne].
    + rewrite Hi. apply list_lookup_insert_eq. by eapply lookup_lt_Some.
    + rewrite list_lookup_insert_ne by done.
      by destruct (file_table s !! j) as [[?|]|].
  - destruct (file_table s !! j) as [[f|]|] eqn:Hj; try done.
    destruct (decide (i = j)) as [->|]; [congruence|done].
  - destruct (file_table s !! j) as [[f|]|] eqn:Hj; try done.
    destruct (decide (i = j)) as [->|]; [congruence|done].
Qed.

Lemma set_slot_fobj_fields (i : nat) (fh : FIL) (s : state) :
  remount_needed (set_slot_fobj i fh s) = remount_needed s /\
  format_status (set_slot_fobj i fh s) = format_status s /\
  errno (set_slot_fobj i fh s) = errno s /\
  world (set_slot_fobj i fh s) = world s /\
  trace (set_slot_fobj i fh s) = trace s /\
  length (file_table (set_slot_fobj i fh s)) = length (file_table s).
Proof.
  unfold set_slot_fobj.
  destruct (file_table s !! i) as [[f|]|]; cbn; repeat split; try done.
  by rewrite length_insert.
Qed.

Lemma slot_fobj_set (i : nat) (fh : FIL) (f : FAT_FILE) (s : state) :
  file_table s !! i = Some (Some f) -> slot_fobj i (set_slot_fobj i fh s) = fh.
Proof.
  intros Hi. unfold slot_fobj. rewrite set_slot_fobj_lookup, Hi.
  by rewrite decide_True.
Qed.

(** The mode a file is reopened with: the read and write bits of its
    flag, with create-if-absent added when the write bit is set. *)
Lemma reopen_mode_bits (fl : Z) :
  (if Z.land (Z.land fl (Z.lor FA_READ FA_WRITE)) FA_WRITE =? 0
   then Z.land fl (Z.lor FA_READ FA_WRITE)
   else Z.lor (Z.land fl (Z.lor FA_READ FA_WRITE)) FA_OPEN_ALWAYS)
  = if Z.testbit fl 1 then Z.lor (Z.land fl 3) FA_OPEN_ALWAYS else Z.land fl 3.
Proof.
  change (Z.lor FA_READ FA_WRITE) with 3. change FA_WRITE with 2.
  assert (Z.land (Z.land fl 3) 2 = if Z.testbit fl 1 then 2 else 0) as ->.
  { apply Z.bits_inj'. intros n Hn.
    rewrite !Z.land_spec.
    destruct (Z.eq_dec n 1) as [->|Hn1].
    - destruct (Z.testbit fl 1); reflexivity.
    - replace (Z.testbit 2 n) with false.
      + rewrite andb_false_r. destruct (Z.testbit fl 1); [|by rewrite Z.bits_0].
        symmetry. change 2 with (2^1). apply Z.pow2_bits_false. lia.
      + symmetry. change 2 with (2^1). apply Z.pow2_bits_false. lia. }
  destruct (Z.testbit fl 1); reflexivity.
Qed.

Lemma reopen_slot_free (i : nat) (s : state) :
  (forall f, file_table s !! i <> Some (Some f)) -> reopen_slot drv i s = s.
Proof.
  intros H. unfold reopen_slot.
  destruct (file_table s !! i) as [[f|]|]; [by destruct (H f)|done|done].
Qed.

Lemma reopen_slot_occupied (i : nat) (f : FAT_FILE) (s : state) :
  file_table s !! i = Some (Some f) ->
  let mode := if Z.testbit (flag (fobj f)) 1
              then Z.lor (Z.land (flag (fobj f)) 3) FA_OPEN_ALWAYS
              else Z.land (flag (fobj f)) 3 in
  let s' := reopen_slot drv i s in
  exists res fil' w',
    f_open drv FIL_zero (name f) mode (world s) = (res, fil', w') /\
    if res =? FR_OK then
      exists res2 fil'' w'',
        f_lseek drv fil' (fptr (fobj f)) w' = (res2, fil'', w'') /\
        file_table s' !! i = Some (Some (mkFAT_FILE fil'' (name f))) /\
        extends s s' [EvOpen i FIL_zero (name f) mode res;
                      EvLseek i (fptr (fobj f)) res2]
    else
      file_table s' !! i = Some (Some (mkFAT_FILE fil' (name f))) /\
      extends s s' [EvOpen i FIL_zero (name f) mode res].
Proof.
  intros Hi mode s'. subst s'. unfold reopen_slot. rewrite Hi.
  rewrite reopen_mode_bits. fold mode.
  unfold call_f_open.
  rewrite (slot_fobj_set i FIL_zero f s Hi).
  destruct (set_slot_fobj_fields i FIL_zero s) as (_ & _ & _ & Hw & Ht & _).
  rewrite Hw.
  destruct (f_open drv FIL_zero (name f) mode (world s)) as [[res fil'] w'] eqn:Ho.
  exists res, fil', w'. split; [done|].
  assert (Hz : file_table (set_slot_fobj i FIL_zero s) !! i
               = Some (Some (mkFAT_FILE FIL_zero (name f)))).
  { rewrite set_slot_fobj_lookup, Hi. by rewrite decide_True. }
  set (s1 := set_slot_fobj i fil' (set_slot_fobj i FIL_zero s)).
  assert (H1 : file_table s1 !! i = Some (Some (mkFAT_FILE fil' (name f)))).
  { unfold s1. rewrite set_slot_fobj_lookup, Hz. by rewrite decide_True. }
  assert (Ht1 : trace s1 = trace s).
  { unfold s1.
    destruct (set_slot_fobj_fields i fil' (set_slot_fobj i FIL_zero s))
      as (_ & _ & _ & _ & -> & _). done. }
  destruct (res =? FR_OK) eqn:Hres.
  - unfold call_f_lseek.
    set (s2 := log (EvOpen i FIL_zero (name f) mode res) (with_world w' s1)).
    assert (H2 : file_table s2 !! i = Some (Some (mkFAT_FILE fil' (name f))))
      by exact H1.
    assert (Hs2 : slot_fobj i s2 = fil') by (unfold slot_fobj; by rewrite H2).
    rewrite Hs2. change (world s2) with w'.
    destruct (f_lseek drv fil' (fptr (fobj f)) w') as [[res2 fil''] w''] eqn:Hl.
    exists res2, fil'', w''. split; [done|]. cbn [snd]. split.
    + cbn. rewrite set_slot_fobj_lookup, H2. by rewrite decide_True.
    + unfold extends. cbn.
      destruct (set_slot_fobj_fields i fil'' s2) as (_ & _ & _ & _ & -> & _).
      unfold s2. cbn. rewrite Ht1. by rewrite <- app_assoc.
  - split; [exact H1|]. unfold extends. cbn. by rewrite Ht1.
Qed.

Lemma reopen_slot_other (i j : nat) (s : state) :
  i <> j -> file_table (reopen_slot drv i s) !! j = file_table s !! j.
Proof.
  intros Hne. unfold reopen_slot.
  destruct (file_table s !! i) as [[f|]|] eqn:Hi; try done.
  unfold call_f_open.
  destruct (f_open _ _ _ _ _) as [[res fil'] w'].
  assert (Hj : forall fh1 fh2,
    file_table (set_slot_fobj i fh1 (set_slot_fobj i fh2 s)) !! j
    = file_table s !! j).
  { intros. rewrite !set_slot_fobj_lookup.
    destruct (file_table s !! j) as [[g|]|]; try done.
    repeat (rewrite decide_False by done; cbn). done. }
  destruct (res =? FR_OK).
  - unfold call_f_lseek. destruct (f_lseek _ _ _ _) as [[res2 fil''] w''].
    cbn. rewrite set_slot_fobj_lookup. cbn. rewrite Hj.
    destruct (file_table s !! j) as [[g|]|]; try done.
    by rewrite decide_False.
  - cbn. apply Hj.
Qed.

(** What one turn of the loop leaves alone. *)
Lemma reopen_slot_frame (i : nat) (s : state) :
  exists evs,
    extends s (reopen_slot drv i s) evs /\
    Forall (fun e => recovery_event e = true) evs /\
    length (file_table (reopen_slot drv i s)) = length (file_table s) /\
    remount_needed (reopen_slot drv i s) = remount_needed s /\
    errno (reopen_slot drv i s) = errno s /\
    format_status (reopen_slot drv i s) = format_status s.
Proof.
  unfold reopen_slot.
  destruct (file_table s !! i) as [[f|]|] eqn:Hi;
    try (exists []; split; [apply extends_refl|]; split; [constructor|done]).
  unfold call_f_open. destruct (f_open _ _ _ _ _) as [[res fil'] w'].
  destruct (set_slot_fobj_fields i FIL_zero s) as (Hr0 & Hf0 & He0 & _ & Ht0 & Hl0).
  destruct (set_slot_fobj_fields i fil' (set_slot_fobj i FIL_zero s))
    as (Hr1 & Hf1 & He1 & _ & Ht1 & Hl1).
  destruct (res =? FR_OK).
  - unfold call_f_lseek. destruct (f_lseek _ _ _ _) as [[res2 fil''] w''].
    match goal with |- context [set_slot_fobj i fil'' ?s2] =>
      destruct (set_slot_fobj_fields i fil'' s2) as (Hr2 & Hf2 & He2 & _ & Ht2 & Hl2)
    end.
    eexists [_; _]. unfold extends. cbn in *.
    rewrite Ht2, Ht1, Ht0, Hl2, Hl1, Hl0, Hr2, Hr1, Hr0, He2, He1, He0, Hf2, Hf1, Hf0.
    rewrite <- app_assoc. repeat split; try done.
    by repeat constructor.
  - eexists [_]. unfold extends. cbn.
    rewrite Ht1, Ht0, Hl1, Hl0, Hr1, Hr0, He1, He0, Hf1, Hf0.
    repeat split; try done.
    by repeat constructor.
Qed.

Abbreviation reopen_all :=
  (fun (idxs : list nat) (s : state) => foldl (fun s i => reopen_slot drv i s) s idxs).

Lemma reopen_all_frame (idxs : list nat) (s : state) :
  exists evs,
    extends s (reopen_all idxs s) evs /\
    Forall (fun e => recovery_event e = true) evs /\
    length (file_table (reopen_all idxs s)) = length (file_table s) /\
    remount_needed (reopen_all idxs s) = remount_needed s /\
    errno (reopen_all idxs s) = errno s /\
    format_status (reopen_all idxs s) = format_status s.
Proof.
  revert s. induction idxs as [|a idxs IH]; intros s; cbn.
  - exists []. split; [apply extends_refl|]. split; [constructor|done].
  - destruct (reopen_slot_frame a s) as (e1 & H1 & Hc1 & Hl1 & Hr1 & He1 & Hf1).
    destruct (IH (reopen_slot drv a s)) as (e2 & H2 & Hc2 & Hl2 & Hr2 & He2 & Hf2).
    exists (e1 ++ e2). split; [by eapply extends_trans|].
    split; [|by rewrite Hl2, Hr2, He2, Hf2].
    by apply Forall_app.
Qed.

Lemma reopen_all_not_in (idxs : list nat) (s : state) (i : nat) :
  i ∉ idxs -> file_table (reopen_all idxs s) !! i = file_table s !! i.
Proof.
  revert s. induction idxs as [|a idxs IH]; intros s Hi; cbn; [done|].
  apply not_elem_of_cons in Hi as [Hne Hi].
  rewrite IH by done. by apply reopen_slot_other.
Qed.

(** Every listed slot gets its turn, from a state in which it is still
    as it was, and is not touched afterwards. *)
Lemma reopen_all_turn (idxs : list nat) (s : state) (i : nat) :
  NoDup idxs -> i ∈ idxs ->
  exists s_i pre post,
    extends s s_i pre /\
    file_table s_i !! i = file_table s !! i /\
    file_table (reopen_all idxs s) !! i = file_table (reopen_slot drv i s_i) !! i /\
    extends (reopen_slot drv i s_i) (reopen_all idxs s) post.
Proof.
  revert s. induction idxs as [|a idxs IH]; intros s Hnd Hi; [inversion Hi|].
  apply NoDup_cons in Hnd as [Ha Hnd]. cbn.
  destruct (decide (i = a)) as [->|Hne].
  - destruct (reopen_all_frame idxs (reopen_slot drv a s)) as (post & Hp & _).
    exists s, [], post. split; [apply extends_refl|]. split; [done|].
    split; [by apply reopen_all_not_in|done].
  - apply elem_of_cons in Hi as [?|Hi]; [done|].
    destruct (IH (reopen_slot drv a s) Hnd Hi) as (s_i & pre & post & H1 & H2 & H3 & H4).
    destruct (reopen_slot_frame a s) as (e1 & He1 & _).
    exists s_i, (e1 ++ pre), post. split; [by eapply extends_trans|].
    split; [|done]. rewrite H2. apply reopen_slot_other. congruence.
Qed.

Lemma pair_snd_inj {A B : Type} (a a' : A) (b b' : B) :
  (a, b) = (a', b') -> b = b'.
Proof. congruence. Qed.

(** A successful remount: stop the session unless it is already marked
    as lost, restart it, clear the flag, then reopen slot by slot. *)
Lemma remount_success_inv (s s' : state) :
  remount_file_system drv s = (true, s') ->
  exists s0 w1,
    s0 = (if remount_needed s then s else call_sdcard_stop drv s) /\
    sdcard_retry drv (world s0) = (true, w1) /\
    s' = reopen_all (seq 0 MAX_FILES)
           (with_remount false (log (EvSdcardRetry true) (with_world w1 s0))).
Proof.
  unfold remount_file_system, call_sdcard_retry. intros H.
  exists (if remount_needed s then s else call_sdcard_stop drv s).
  destruct (sdcard_retry drv _) as [ok w1]. destruct ok.
  - exists w1. split; [reflexivity|]. split; [reflexivity|].
    cbn [negb] in H. symmetry. exact (pair_snd_inj _ _ _ _ H).
  - exfalso. cbn [negb] in H. congruence.
Qed.

Lemma recovery_event_not_close (evs : list event) (slot : nat) (res : FRESULT) :
  Forall (fun e => recovery_event e = true) evs -> EvClose slot res ∉ evs.
Proof.
  intros Hall Hin. rewrite Forall_forall in Hall.
  specialize (Hall _ Hin). discriminate.
Qed.

(** The calls of a remount: stop and restart of the media session, and
    the reopening of files; the restart is always among them. *)
Lemma remount_file_system_events (s : state) :
  exists evs,
    extends s (snd (remount_file_system drv s)) evs /\
    Forall (fun e => recovery_event e = true) evs /\
    EvSdcardRetry (fst (remount_file_system drv s)) ∈ evs.
Proof.
  assert (H0 : forall s0 : state,
    s0 = (if remount_needed s then s else call_sdcard_stop drv s) ->
    exists e0, extends s s0 e0 /\ Forall (fun e => recovery_event e = true) e0).
  { intros s0 ->. destruct (remount_needed s).
    - exists []. split; [apply extends_refl|constructor].
    - exists [EvSdcardStop]. split; [done|by repeat constructor]. }
  destruct (remount_file_system drv s) as [ok s'] eqn:H. cbn [fst snd].
  destruct ok.
  - destruct (remount_success_inv s s' H) as (s0 & w1 & Hs0 & _ & ->).
    destruct (H0 s0 Hs0) as (e0 & He0 & Hc0).
    match goal with |- context [foldl _ ?s1 ?l] =>
      destruct (reopen_all_frame l s1) as (e2 & He2 & Hc2 & _) end.
    exists ((e0 ++ [EvSdcardRetry true]) ++ e2). split; [|split].
    + eapply extends_trans; [|exact He2].
      unfold extends in *. cbn. rewrite He0. by rewrite app_assoc.
    + apply Forall_app. split; [|done]. apply Forall_app. split; [done|].
      by repeat constructor.
    + apply elem_of_app. left. apply elem_of_app. right. by apply list_elem_of_singleton.
  - revert H. unfold remount_file_system, call_sdcard_retry.
    destruct (H0 _ eq_refl) as (e0 & He0 & Hc0).
    destruct (sdcard_retry drv _) as [ok w1]. destruct ok; cbn [negb].
    + intros H. exfalso. pose proof (f_equal fst H) as H1. cbn [fst] in H1.
      discriminate.
    + intros H. rewrite <- (pair_snd_inj _ _ _ _ H).
      exists (e0 ++ [EvSdcardRetry false]). split; [|split].
      * unfold extends in *. cbn. rewrite He0. by rewrite app_assoc.
      * apply Forall_app. split; [done|]. by repeat constructor.
      * apply elem_of_app. right. by apply list_elem_of_singleton.
Qed.

(** C2.  When [remount_file_system] succeeds, the flag is cleared and
    every occupied slot of the table is treated as follows: the offset
    [fptr] and the read/write bits of [flag] are taken from the object as
    it was, [f_open] is called on a zeroed object with the stored name
    and those bits (plus [FA_OPEN_ALWAYS] when the write bit is set), and
    when it returns [FR_OK] an [f_lseek] to the captured offset follows
    at once.  The slot stays occupied under the same name; after a failed
    reopen it holds what [f_open] left of the zeroed object, which is the
    zeroed object itself for a backend that does not write to the object
    on failure.  Free slots stay free, the table keeps its size and
    recovery makes no [f_close]. *)
Theorem remount_reopens_open_files (s s' : state) :
  remount_file_system drv s = (true, s') ->
  remount_needed s' = false /\
  length (file_table s') = length (file_table s) /\
  (exists evs, extends s s' evs /\ forall slot res, EvClose slot res ∉ evs) /\
  forall i : nat, (i < MAX_FILES)%nat ->
    match file_table s !! i with
    | Some (Some f) =>
        let offset := fptr (fobj f) in
        let mode := if Z.testbit (flag (fobj f)) 1
                    then Z.lor (Z.land (flag (fobj f)) 3) FA_OPEN_ALWAYS
                    else Z.land (flag (fobj f)) 3 in
        exists (s_i : state) res fil' w' post,
          (exists pre, extends s s_i pre) /\
          f_open drv FIL_zero (name f) mode (world s_i) = (res, fil', w') /\
          if res =? FR_OK then
            exists res2 fil'' w'',
              f_lseek drv fil' offset w' = (res2, fil'', w'') /\
              file_table s' !! i = Some (Some (mkFAT_FILE fil'' (name f))) /\
              trace s' = trace s_i ++
                [EvOpen i FIL_zero (name f) mode res; EvLseek i offset res2] ++ post
          else
            file_table s' !! i = Some (Some (mkFAT_FILE fil' (name f))) /\
            trace s' = trace s_i ++ [EvOpen i FIL_zero (name f) mode res] ++ post /\
            ((forall fh p m w0 r fh1 w1,
                 f_open drv fh p m w0 = (r, fh1, w1) -> r <> FR_OK -> fh1 = fh) ->
             fil' = FIL_zero)
    | o => file_table s' !! i = o
    end.
Proof.
  intros Hrem.
  destruct (remount_file_system_events s) as (evs & Hev & Hrec & _).
  rewrite Hrem in Hev. cbn [snd] in Hev.
  destruct (remount_success_inv s s' Hrem) as (s0 & w1 & Hs0 & _ & ->).
  assert (H0 : file_table s0 = file_table s /\ exists e0, extends s s0 e0).
  { rewrite Hs0. destruct (remount_needed s).
    - split; [done|]. exists []. apply extends_refl.
    - split; [done|]. by exists [EvSdcardStop]. }
  destruct H0 as (Ht0 & e0 & He0). clear Hs0 Hrem.
  set (s1 := with_remount false (log (EvSdcardRetry true) (with_world w1 s0))).
  assert (Ht1 : file_table s1 = file_table s) by exact Ht0.
  assert (He1 : extends s s1 (e0 ++ [EvSdcardRetry true])).
  { unfold extends in *. cbn. rewrite He0. by rewrite app_assoc. }
  destruct (reopen_all_frame (seq 0 MAX_FILES) s1) as (e2 & He2 & Hc2 & Hl2 & Hr2 & _).
  split; [by rewrite Hr2|]. split; [by rewrite Hl2, Ht1|]. split.
  { exists evs. split; [exact Hev|].
    intros slot r. by apply recovery_event_not_close. }
  intros i Hi.
  destruct (reopen_all_turn (seq 0 MAX_FILES) s1 i) as (s_i & pre & post & Hp & Hsi & Hfin & Hpost).
  { apply NoDup_seq. }
  { apply elem_of_seq. lia. }
  rewrite Ht1 in Hsi. rewrite Hfin.
  destruct (file_table s !! i) as [[f|]|] eqn:Hlk.
  - destruct (reopen_slot_occupied i f s_i Hsi) as (res & fil' & w' & Ho & Hcase).
    exists s_i, res, fil', w', post. split.
    { eexists. by eapply extends_trans. }
    split; [done|].
    destruct (res =? FR_OK) eqn:Hres.
    + destruct Hcase as (res2 & fil'' & w'' & Hl & Hslot & Hext).
      exists res2, fil'', w''. split; [done|]. split; [done|].
      unfold extends in *. rewrite Hpost, Hext. by rewrite <- app_assoc.
    + destruct Hcase as (Hslot & Hext). split; [done|]. split.
      * unfold extends in *. rewrite Hpost, Hext. by rewrite <- app_assoc.
      * intros Hkeep. eapply Hkeep; [exact Ho|]. intros ->. discriminate.
  - rewrite reopen_slot_free; [done|]. intros f. by rewrite Hsi.
  - rewrite reopen_slot_free; [done|]. intros f. by rewrite Hsi.
Qed.


End Recovery.

Lemma remount_reopens_open_files_witness :
  let s := Script.one_open Script.calm in
  let s' := snd (FATFS.remount_file_system Script.driver s) in
  FATFS.remount_needed s' = false /\
  FATFS.file_table s' !! 0%nat = Some (Some (FATFS.mkFAT_FILE (FATFS.mkFIL 100 19 0 1) "log.bin")) /\
  FATFS.trace s' = [FATFS.EvSdcardStop; FATFS.EvSdcardRetry true;
              FATFS.EvOpen 0 FATFS.FIL_zero "log.bin" 19 FR_OK; FATFS.EvLseek 0 100 FR_OK].
Proof.
  cbv zeta.
  pose proof (remount_reopens_open_files Script.driver
                (Script.one_open Script.calm)
                (snd (FATFS.remount_file_system Script.driver (Script.one_open Script.calm)))
                eq_refl) as (H & _).
  split; [exact H|]. split; reflexivity.
Defined.

(** ** The remount check *)

Section EntryCheck.
Import FATFS.
Context {W : Type} (drv : Driver W).

Abbreviation state := (fs_state W).

Lemma remount_file_system_flag (s : state) :
  remount_needed (snd (remount_file_system drv s))
  = negb (fst (remount_file_system drv s)).
Proof.
  destruct (remount_file_system drv s) as [ok s'] eqn:H. cbn [fst snd].
  destruct ok.
  - destruct (remount_success_inv drv s s' H) as (s0 & w1 & _ & _ & ->).
    match goal with |- context [foldl _ ?s1 ?l] =>
      destruct (reopen_all_frame drv l s1) as (_ & _ & _ & _ & Hr & _) end.
    cbn beta in *. by rewrite Hr.
  - revert H. unfold remount_file_system, call_sdcard_retry.
    destruct (sdcard_retry drv _) as [ok w1]. destruct ok; cbn [negb].
    + intros H. exfalso. pose proof (f_equal fst H) as H1. cbn [fst] in H1.
      discriminate.
    + intros H. by rewrite <- (pair_snd_inj _ _ _ _ H).
Qed.

Lemma CHECK_REMOUNT_not_needed (s : state) :
  remount_needed s = false -> CHECK_REMOUNT drv s = (true, s).
Proof. intros H. unfold CHECK_REMOUNT. by rewrite H. Qed.

(** The state after a failed check of a volume already marked. *)
Lemma CHECK_REMOUNT_fails (s : state) (w1 : W) :
  remount_needed s = true ->
  sdcard_retry drv (world s) = (false, w1) ->
  CHECK_REMOUNT drv s
  = (false, mkState true (file_table s) (format_status s) EIO w1
                    (trace s ++ [EvSdcardRetry false])).
Proof.
  intros Hn Hr. unfold CHECK_REMOUNT, remount_file_system, call_sdcard_retry.
  rewrite Hn, Hr. reflexivity.
Qed.

End EntryCheck.

(** ** read clears the first byte of the buffer *)

Section ReadBuffer.
Import FATFS.
Context {W : Type} (drv : Driver W).

Abbreviation state := (fs_state W).

Lemma fileno_to_fatfs_state (fd : Z) (s : state) :
  match fileno_to_fatfs fd s with
  | (Some fh, s') => s' = s /\ fh = Z.to_nat fd /\ 0 <= fd < Z.of_nat MAX_FILES /\
                     exists f, file_table s !! fh = Some (Some f)
  | (None, s') => s' = with_errno EBADF s
  end.
Proof.
  unfold fileno_to_fatfs, fileno_to_stream.
  destruct ((fd <? 0) || (Z.of_nat MAX_FILES <=? fd)) eqn:Hr; [done|].
  apply orb_false_iff in Hr as [H1 H2].
  apply Z.ltb_ge in H1. apply Z.leb_gt in H2.
  destruct (file_table s !! Z.to_nat fd) as [[f|]|] eqn:Hl; try done.
  repeat split; try done. by exists f.
Qed.

(** C10 (amended).  A [read] with [count > 0] that is allowed to run
    and gets past the remount check writes zero to the first byte of the
    buffer before it looks up the descriptor and before any transfer: for
    an invalid descriptor it returns -1 with [EBADF] and the buffer
    changed in that byte only, and when the first [f_read] fails it
    returns -1 with the translated error and the buffer is the zeroed one
    with whatever the backend delivered laid over it.  A [read] that the
    remount check turns away returns -1 with the buffer untouched. *)
Theorem read_zeroes_first_byte (s : state) (fd : Z) (buf : list byte)
  (addr count : Z) :
  0 < count ->
  file_op_allowed drv (world s) = true ->
  let buf0 := <[0%nat := x00]> buf in
  match CHECK_REMOUNT drv s with
  | (false, s1) => read drv fd buf addr count s = Some (-1, buf, s1)
  | (true, s1) =>
      match fileno_to_fatfs fd (with_errno E_OK s1) with
      | (None, _) =>
          read drv fd buf addr count s = Some (-1, buf0, with_errno EBADF s1)
      | (Some fh, _) =>
          let n := if mem_is_dma_safe drv addr count then count
                   else Z.min count MAX_IO_SIZE in
          forall res size data fil w,
            f_read drv (slot_fobj fh s1) n (world s1) = (res, size, data, fil, w) ->
            res <> FR_OK ->
            exists s',
              read drv fd buf addr count s
              = Some (-1, list_inserts 0 data buf0, s') /\
              errno s' = fatfs_to_errno res
      end
  end.
Proof.
  intros Hc Ha buf0. unfold read. rewrite Ha. cbn [negb].
  destruct (CHECK_REMOUNT drv s) as [[|] s1]; cbn [negb]; [|done].
  assert ((0 <? count) = true) as -> by by apply Z.ltb_lt.
  fold buf0.
  pose proof (fileno_to_fatfs_state fd (with_errno E_OK s1)) as Hf.
  destruct (fileno_to_fatfs fd (with_errno E_OK s1)) as [[fh|] s2].
  - destruct Hf as (-> & _ & _ & _).
    intros res size data fil w Hr Hres.
    cbn [read_loop]. rewrite Z.add_0_r.
    unfold call_f_read.
    change (slot_fobj fh (with_errno E_OK s1)) with (slot_fobj fh s1).
    change (world (with_errno E_OK s1)) with (world s1).
    rewrite Hr.
    assert ((res =? FR_OK) = false) as -> by by apply Z.eqb_neq.
    cbn [negb]. eexists. split; [reflexivity|reflexivity].
  - by rewrite Hf.
Qed.

End ReadBuffer.

Lemma read_zeroes_first_byte_witness :
  FATFS.read Script.driver 7 [x01; x02; x03] 0 3 (Script.one_open Script.calm)
  = Some (-1, [x00; x02; x03],
          FATFS.with_errno EBADF (Script.one_open Script.calm)).
Proof.
  exact (read_zeroes_first_byte Script.driver (Script.one_open Script.calm)
           7 [x01; x02; x03] 0 3 eq_refl eq_refl).
Defined.

(** C10, as stated, fails: with the volume marked for remount and the
    card gone, a [read] with [count = 2] returns -1 with [errno = EIO]
    and the first byte of the buffer is still what it was. *)
Lemma read_turned_away_keeps_buffer :
  exists s',
    FATFS.read Script.driver 3 [x01; x02] 0 2
      (Script.all_open true Script.card_gone)
    = Some (-1, [x01; x02], s') /\
    FATFS.errno s' = EIO /\
    [x01; x02] !! 0%nat <> Some x00.
Proof.
  eexists. split; [vm_compute; reflexivity|]. split; [reflexivity|].
  cbn. discriminate.
Qed.

(** ** The handle table under open and close *)

Section HandleTable.
Import FATFS.
Context {W : Type} (drv : Driver W).

Abbreviation state := (fs_state W).

Lemma shape_lookup (t : list (option FAT_FILE)) (i : nat) :
  shape t !! i = (fun o => match o with Some _ => true | None => false end)
                   <$> (t !! i).
Proof. unfold shape. apply list_lookup_fmap. Qed.

Lemma shape_free_slot (t : list (option FAT_FILE)) (i : nat) :
  t !! i = Some None <-> shape t !! i = Some false.
Proof.
  rewrite shape_lookup. destruct (t !! i) as [[f|]|]; cbn; split; congruence.
Qed.

Lemma shape_insert (t : list (option FAT_FILE)) (i : nat) (o : option FAT_FILE) :
  shape (<[i := o]> t)
  = <[i := match o with Some _ => true | None => false end]> (shape t).
Proof. unfold shape. apply list_fmap_insert. Qed.

Lemma open_files_bound (t : list (option FAT_FILE)) :
  (open_files t <= length t)%nat.
Proof.
  unfold open_files. etransitivity; [apply length_filter|].
  unfold shape. by rewrite length_fmap.
Qed.

Lemma shape_set_slot_fobj (i : nat) (fh : FIL) (s : state) :
  shape (file_table (set_slot_fobj i fh s)) = shape (file_table s).
Proof.
  unfold set_slot_fobj.
  destruct (file_table s !! i) as [[f|]|] eqn:Hi; try done.
  cbn. rewrite shape_insert. apply list_insert_id.
  by rewrite shape_lookup, Hi.
Qed.

Lemma keeps_refl (s : state) : keeps s s.
Proof. by split. Qed.

Lemma keeps_trans (s1 s2 s3 : state) : keeps s1 s2 -> keeps s2 s3 -> keeps s1 s3.
Proof. intros [H1 H2] [H3 H4]. split; congruence. Qed.

Lemma keeps_set_slot_fobj (i : nat) (fh : FIL) (s : state) :
  keeps s (set_slot_fobj i fh s).
Proof.
  split; [apply shape_set_slot_fobj|].
  by destruct (set_slot_fobj_fields i fh s) as (-> & _).
Qed.

Lemma keeps_call_f_open (fh : nat) (p : string) (m : Z) (s : state) :
  keeps s (snd (call_f_open drv fh p m s)).
Proof.
  unfold call_f_open. destruct (f_open _ _ _ _ _) as [[res fil'] w'].
  apply (keeps_set_slot_fobj fh fil' s).
Qed.

Lemma keeps_call_f_lseek (fh : nat) (ofs : Z) (s : state) :
  keeps s (snd (call_f_lseek drv fh ofs s)).
Proof.
  unfold call_f_lseek. destruct (f_lseek _ _ _ _) as [[res fil'] w'].
  apply (keeps_set_slot_fobj fh fil' s).
Qed.

Lemma keeps_call_f_close (fh : nat) (s : state) :
  keeps s (snd (call_f_close drv fh s)).
Proof. unfold call_f_close. by destruct (f_close _ _ _) as [res w']. Qed.

Lemma keeps_reopen_slot (i : nat) (s : state) : keeps s (reopen_slot drv i s).
Proof.
  unfold reopen_slot.
  destruct (file_table s !! i) as [[f|]|]; try apply keeps_refl.
  match goal with |- context [call_f_open drv i ?p ?m ?s1] =>
    pose proof (keeps_call_f_open i p m s1) as H1;
    destruct (call_f_open drv i p m s1) as [res s2]
  end.
  cbn [snd] in H1.
  pose proof (keeps_set_slot_fobj i FIL_zero s) as H0.
  destruct (res =? FR_OK).
  - eapply keeps_trans; [exact H0|]. eapply keeps_trans; [exact H1|].
    apply keeps_call_f_lseek.
  - by eapply keeps_trans.
Qed.

Lemma keeps_reopen_all (idxs : list nat) (s : state) :
  keeps s (foldl (fun s i => reopen_slot drv i s) s idxs).
Proof.
  revert s. induction idxs as [|a idxs IH]; intros s; cbn; [apply keeps_refl|].
  eapply keeps_trans; [apply keeps_reopen_slot|apply IH].
Qed.

(** A remount keeps the occupancy of the table; the flag says whether it
    failed. *)
Lemma remount_file_system_shape (s : state) :
  shape (file_table (snd (remount_file_system drv s))) = shape (file_table s).
Proof.
  unfold remount_file_system, call_sdcard_retry.
  set (s0 := if remount_needed s then s else call_sdcard_stop drv s).
  assert (H0 : file_table s0 = file_table s) by (unfold s0; by destruct (remount_needed s)).
  destruct (sdcard_retry drv (world s0)) as [ok w1]. destruct ok; cbn [negb snd].
  - match goal with |- context [foldl ?f ?s1 ?l] =>
      destruct (keeps_reopen_all l s1) as [-> _] end.
    cbn. by rewrite H0.
  - cbn. by rewrite H0.
Qed.

Lemma CHECK_REMOUNT_spec (s : state) :
  shape (file_table (snd (CHECK_REMOUNT drv s))) = shape (file_table s) /\
  remount_needed (snd (CHECK_REMOUNT drv s)) = negb (fst (CHECK_REMOUNT drv s)).
Proof.
  unfold CHECK_REMOUNT. destruct (remount_needed s) eqn:Hn;
    [|cbn; split; [done|exact Hn]].
  pose proof (remount_file_system_shape s) as Hs.
  pose proof (remount_file_system_flag drv s) as Hf.
  destruct (remount_file_system drv s) as [ok s1]. cbn [fst snd] in *.
  by destruct ok; cbn.
Qed.

Lemma find_free_slot_Some (idxs : list nat) (t : list (option FAT_FILE)) (i : nat) :
  find_free_slot idxs t = Some i -> i ∈ idxs /\ t !! i = Some None.
Proof.
  induction idxs as [|a idxs IH]; cbn; [done|].
  destruct (t !! a) as [[f|]|] eqn:Ha.
  - intros H. destruct (IH H). split; [by apply elem_of_cons; right|done].
  - intros [= <-]. split; [by apply elem_of_cons; left|done].
  - intros H. destruct (IH H). split; [by apply elem_of_cons; right|done].
Qed.

Lemma find_free_slot_None (idxs : list nat) (t : list (option FAT_FILE)) :
  (forall i, i ∈ idxs -> t !! i <> Some None) -> find_free_slot idxs t = None.
Proof.
  induction idxs as [|a idxs IH]; cbn; [done|]. intros H.
  destruct (t !! a) as [[f|]|] eqn:Ha.
  - apply IH. intros i Hi. apply H. by apply elem_of_cons; right.
  - exfalso. apply (H a); [by apply elem_of_cons; left|done].
  - apply IH. intros i Hi. apply H. by apply elem_of_cons; right.
Qed.

(** [new_file_descriptor] either fails and leaves the table alone, or
    fills a slot that was free. *)
Lemma new_file_descriptor_spec (p : string) (s : state) :
  let r := new_file_descriptor drv p s in
  remount_needed (snd r) = remount_needed s /\
  ((fst r = -1 /\ file_table (snd r) = file_table s) \/
   (exists i : nat,
       fst r = Z.of_nat i /\ (i < MAX_FILES)%nat /\
       file_table s !! i = Some None /\
       file_table (snd r) = <[i := Some (mkFAT_FILE FIL_zero p)]> (file_table s))).
Proof.
  cbv zeta. unfold new_file_descriptor.
  destruct (find_free_slot _ _) as [i|] eqn:Hf; [|split; [done|by left]].
  apply find_free_slot_Some in Hf as [Hi Hfree].
  apply elem_of_seq in Hi.
  unfold alloc.
  destruct (calloc_ok drv (world s)) as [ok1 w1]. cbn [world with_world].
  destruct ok1; cbn [negb]; [|split; [done|by left]].
  destruct (strdup_ok drv w1) as [ok2 w2].
  destruct ok2; cbn [negb]; [|split; [done|by left]].
  split; [done|]. right. exists i. cbn. repeat split; try done. lia.
Qed.

Lemma new_file_descriptor_full (p : string) (s : state) :
  (forall i : nat, (i < MAX_FILES)%nat -> file_table s !! i <> Some None) ->
  new_file_descriptor drv p s = (-1, with_errno ENFILE s).
Proof.
  intros H. unfold new_file_descriptor. rewrite find_free_slot_None; [done|].
  intros i Hi. apply H. apply elem_of_seq in Hi. lia.
Qed.

(** [free_file_descriptor] leaves the slot of an in-range descriptor free. *)
Lemma free_file_descriptor_spec (fileno : Z) (s : state) :
  0 <= fileno < Z.of_nat MAX_FILES ->
  remount_needed (free_file_descriptor fileno s) = remount_needed s /\
  shape (file_table (free_file_descriptor fileno s))
  = <[Z.to_nat fileno := false]> (shape (file_table s)).
Proof.
  intros Hr. unfold free_file_descriptor, fileno_to_stream.
  assert ((fileno <? 0) || (Z.of_nat MAX_FILES <=? fileno) = false) as ->.
  { apply orb_false_iff. split; [apply Z.ltb_ge|apply Z.leb_gt]; lia. }
  destruct (file_table s !! Z.to_nat fileno) as [[f|]|] eqn:Hl; cbn.
  - split; [done|]. apply shape_insert.
  - split; [done|]. symmetry. apply list_insert_id. by apply shape_free_slot.
  - split; [done|]. symmetry. apply list_insert_ge.
    unfold shape. rewrite length_fmap. by apply lookup_ge_None.
Qed.

(** The single retry of [f_open] after a disk error: the occupancy is
    kept, and the flag is only raised together with a result that is
    still the disk error. *)
Lemma open_retry_spec (fh : nat) (p : string) (mode : Z) (res : FRESULT)
  (s : state) :
  let r := if (res =? FR_DISK_ERR) && RETRY_ALLOWED drv s then
             let s := call_delay drv 100 s in
             let '(ok, s) := remount_file_system drv s in
             if ok then call_f_open drv fh p mode s else (res, s)
           else (res, s) in
  shape (file_table (snd r)) = shape (file_table s) /\
  (remount_needed (snd r) = false \/
   (fst r = FR_DISK_ERR /\ remount_needed (snd r) = true) \/
   (snd r = s)).
Proof.
  cbv zeta. destruct ((res =? FR_DISK_ERR) && RETRY_ALLOWED drv s) eqn:Hc;
    [|split; [done|by right; right]].
  apply andb_true_iff in Hc as [Hres _]. apply Z.eqb_eq in Hres.
  pose proof (remount_file_system_shape (call_delay drv 100 s)) as Hs.
  pose proof (remount_file_system_flag drv (call_delay drv 100 s)) as Hf.
  destruct (remount_file_system drv (call_delay drv 100 s)) as [ok s1].
  cbn [fst snd] in Hs, Hf. destruct ok; cbn [negb] in Hf.
  - destruct (keeps_call_f_open fh p mode s1) as [Hk1 Hk2].
    split; [by rewrite Hk1, Hs|]. left. by rewrite Hk2.
  - cbn [fst snd]. split; [by rewrite Hs|]. right; left. done.
Qed.

(** What [open] does to the table and the flag. *)
Lemma open_spec (p : string) (flags : Z) (abs : bool) (s : state) :
  let r := open drv p flags abs s in
  (fst r = -1 /\
   shape (file_table (snd r)) = shape (file_table s) /\
   (remount_needed (snd r) = true ->
    remount_needed s = true \/ exists i : nat, file_table s !! i = Some None))
  \/
  (exists i : nat,
      fst r = Z.of_nat i /\ (i < MAX_FILES)%nat /\
      file_table s !! i = Some None /\
      shape (file_table (snd r)) = <[i := true]> (shape (file_table s)) /\
      remount_needed (snd r) = false).
Proof.
  cbv zeta. unfold open.
  destruct (file_op_allowed drv (world s)); cbn [negb];
    [|left; cbn; repeat split; try done; by left].
  destruct (CHECK_REMOUNT_spec s) as [Hcs Hcf].
  assert (Hcn : fst (CHECK_REMOUNT drv s) = false -> remount_needed s = true).
  { unfold CHECK_REMOUNT. destruct (remount_needed s); [done|]. cbn. done. }
  destruct (CHECK_REMOUNT drv s) as [ok s1]. cbn [fst snd] in *.
  destruct ok; cbn [negb] in *;
    [|left; cbn; repeat split; try done; intros _; left; by apply Hcn].
  clear Hcn.
  set (modes := if Z.land flags O_CREAT =? 0 then _ else _). clearbody modes.
  destruct (new_file_descriptor_spec p (with_errno E_OK s1)) as [Hnf Hnt].
  destruct (new_file_descriptor drv p (with_errno E_OK s1)) as [fileno s3].
  cbn [fst snd] in Hnf, Hnt. change (remount_needed (with_errno E_OK s1))
    with (remount_needed s1) in Hnf.
  change (file_table (with_errno E_OK s1)) with (file_table s1) in Hnt.
  destruct Hnt as [[-> Ht3]|(i & -> & Hi & Hfree & Ht3)].
  { left. cbn. split; [done|]. split; [by rewrite Ht3|]. congruence. }
  assert ((Z.of_nat i <? 0) = false) as -> by (apply Z.ltb_ge; lia).
  rewrite Nat2Z.id.
  assert (Hfree_s : file_table s !! i = Some None).
  { apply shape_free_slot. rewrite <- Hcs. by apply shape_free_slot. }
  assert (Hs3 : shape (file_table s3) = <[i := true]> (shape (file_table s))).
  { rewrite Ht3, shape_insert. by rewrite Hcs. }
  assert (Hback : <[i := false]> (<[i := true]> (shape (file_table s)))
                  = shape (file_table s)).
  { rewrite list_insert_insert_eq. apply list_insert_id. by apply shape_free_slot. }
  destruct (keeps_call_f_open i p (Z.land modes 255) s3) as [Hk4 Hf4].
  destruct (call_f_open drv i p (Z.land modes 255) s3) as [res4 s4].
  cbn [snd] in Hk4, Hf4.
  destruct (open_retry_spec i p (Z.land modes 255) res4 s4) as [Hk5 Hf5].
  match goal with |- context [let '(r, st) := ?blk in _] =>
    destruct blk as [res5 s5] end.
  cbn [fst snd] in Hk5, Hf5.
  assert (Hrange : 0 <= Z.of_nat i < Z.of_nat MAX_FILES) by lia.
  destruct (res5 =? FR_OK) eqn:Hres5; cbn [negb].
  - apply Z.eqb_eq in Hres5.
    assert (Hflag5 : remount_needed s5 = false).
    { destruct Hf5 as [H|[[H _]|H]]; [done| |].
      - rewrite Hres5 in H. discriminate.
      - rewrite H. congruence. }
    destruct (Z.land flags O_APPEND =? 0).
    + right. exists i. cbn [fst snd]. repeat split; try done.
      by rewrite Hk5, Hk4.
    + destruct (keeps_call_f_lseek i (objsize (slot_fobj i s5)) s5) as [Hk6 Hf6].
      destruct (call_f_lseek drv i (objsize (slot_fobj i s5)) s5) as [res6 s6].
      cbn [snd] in Hk6, Hf6.
      destruct (res6 =? FR_OK); cbn [negb].
      * right. exists i. cbn [fst snd]. repeat split; try done.
        -- by rewrite Hk6, Hk5, Hk4.
        -- congruence.
      * match goal with |- context [call_f_close drv i ?st] =>
          destruct (keeps_call_f_close i st) as [Hk7 Hf7];
          destruct (call_f_close drv i st) as [res7 s7] end.
        cbn [snd] in Hk7, Hf7.
        destruct (free_file_descriptor_spec (Z.of_nat i) s7 Hrange) as [Hff Hfs].
        rewrite Nat2Z.id in Hfs.
        left. cbn [fst snd]. split; [done|]. split.
        -- rewrite Hfs, Hk7. cbn [file_table with_errno].
           by rewrite Hk6, Hk5, Hk4, Hs3.
        -- rewrite Hff, Hf7. cbn [remount_needed with_errno].
           rewrite Hf6, Hflag5. discriminate.
  - match goal with |- context [free_file_descriptor _ ?st] =>
      destruct (free_file_descriptor_spec (Z.of_nat i) st Hrange) as [Hff Hfs] end.
    rewrite Nat2Z.id in Hfs.
    left. cbn [fst snd]. split; [done|]. split.
    + rewrite Hfs. cbn [file_table with_errno]. by rewrite Hk5, Hk4, Hs3.
    + intros _. right. by exists i.
Qed.

(** What [close] does to the table and the flag: at most one slot is
    freed. *)
Lemma close_spec (fileno : Z) (s : state) :
  remount_needed (snd (close drv fileno s)) = remount_needed s /\
  (shape (file_table (snd (close drv fileno s))) = shape (file_table s) \/
   exists i : nat,
     shape (file_table (snd (close drv fileno s)))
     = <[i := false]> (shape (file_table s))).
Proof.
  unfold close.
  destruct (file_op_allowed drv (world s)); cbn [negb]; [|by split; [|left]].
  pose proof (fileno_to_fatfs_state fileno (with_errno E_OK s)) as Hf.
  destruct (fileno_to_fatfs fileno (with_errno E_OK s)) as [[fh|] s1].
  - destruct Hf as (-> & -> & Hr & _).
    destruct (keeps_call_f_close (Z.to_nat fileno) (with_errno E_OK s)) as [Hk Hfl].
    destruct (call_f_close drv (Z.to_nat fileno) (with_errno E_OK s)) as [res s2].
    cbn [snd] in Hk, Hfl.
    destruct (free_file_descriptor_spec fileno s2 Hr) as [Hff Hfs].
    assert (Hgoal :
      remount_needed (free_file_descriptor fileno s2) = remount_needed s /\
      shape (file_table (free_file_descriptor fileno s2))
      = <[Z.to_nat fileno := false]> (shape (file_table s))).
    { split; [by rewrite Hff, Hfl|by rewrite Hfs, Hk]. }
    destruct Hgoal as [G1 G2].
    destruct (res =? FR_OK); cbn [negb snd]; (split; [exact G1|right; eexists; exact G2]).
  - rewrite Hf. cbn. by split; [|left].
Qed.

(** The invariant of the sequences of [open] and [close]: the table has
    its sixteen slots, and a volume marked for remount has a free slot. *)
Lemma reachable_invariant (s : state) :
  reachable drv s ->
  length (file_table s) = MAX_FILES /\
  (remount_needed s = true -> exists i : nat, shape (file_table s) !! i = Some false).
Proof.
  induction 1 as [w|s w _ IH|s p flags abs _ IH|s fileno _ IH].
  - split; [apply length_replicate|discriminate].
  - exact IH.
  - destruct IH as [Hlen Hfree].
    destruct (open_spec p flags abs s) as [(_ & Hs & Hf)|(i & _ & Hi & Hfr & Hs & Hf)].
    + split.
      * rewrite <- Hlen. apply (f_equal length) in Hs. unfold shape in Hs.
        by rewrite !length_fmap in Hs.
      * intros Ht. rewrite Hs. destruct (Hf Ht) as [Hold|[i Hi]];
          [by apply Hfree|]. exists i. by apply shape_free_slot.
    + split; [|congruence].
      rewrite <- Hlen. apply (f_equal length) in Hs. unfold shape in Hs.
      by rewrite length_insert, !length_fmap in Hs.
  - destruct IH as [Hlen Hfree].
    destruct (close_spec fileno s) as [Hfl [Hs|[i Hs]]].
    + split.
      * rewrite <- Hlen. apply (f_equal length) in Hs. unfold shape in Hs.
        by rewrite !length_fmap in Hs.
      * rewrite Hfl, Hs. exact Hfree.
    + split.
      * rewrite <- Hlen. apply (f_equal length) in Hs. unfold shape in Hs.
        by rewrite length_insert, !length_fmap in Hs.
      * rewrite Hfl, Hs. intros Ht. destruct (Hfree Ht) as [j Hj].
        exists j. destruct (decide (i = j)) as [->|Hne].
        -- apply list_lookup_insert_eq. by eapply lookup_lt_Some.
        -- by rewrite list_lookup_insert_ne.
Qed.

(** C7 (amended).  After any sequence of [open] and [close] calls the
    table has exactly its sixteen slots, so never more than sixteen open
    files; an [open] that returns a handle returns the index of a slot
    that was free and is now occupied; and when all sixteen slots are
    occupied an [open] that is allowed to run returns -1 with [errno =
    ENFILE] and changes nothing else: the table, the flag, the world and
    the trace are as before.  An [open] that finds file operations not
    allowed returns -1 and changes nothing at all, [errno] included. *)
Theorem handle_table_capacity (s : state) :
  reachable drv s ->
  length (file_table s) = MAX_FILES /\
  (open_files (file_table s) <= MAX_FILES)%nat /\
  (forall p flags abs,
      let r := open drv p flags abs s in
      fst r = -1 \/
      exists (i : nat) (f : FAT_FILE),
        fst r = Z.of_nat i /\ (i < MAX_FILES)%nat /\
        file_table s !! i = Some None /\
        file_table (snd r) !! i = Some (Some f)) /\
  (forall p flags abs,
      file_op_allowed drv (world s) = true ->
      (forall i : nat, (i < MAX_FILES)%nat ->
                       exists f, file_table s !! i = Some (Some f)) ->
      open drv p flags abs s = (-1, with_errno ENFILE s)) /\
  (forall p flags abs,
      file_op_allowed drv (world s) = false ->
      open drv p flags abs s = (-1, s)).
Proof.
  intros Hr. destruct (reachable_invariant s Hr) as [Hlen Hfree].
  split; [done|]. split; [rewrite <- Hlen; apply open_files_bound|].
  split; [|split; [|intros p flags abs Ha; unfold open; by rewrite Ha]].
  - intros p flags abs r. subst r.
    destruct (open_spec p flags abs s) as [(H & _)|(i & H & Hi & Hfr & Hs & _)];
      [by left|right].
    assert (Hocc : shape (file_table (snd (open drv p flags abs s))) !! i = Some true).
    { rewrite Hs. apply list_lookup_insert_eq.
      unfold shape. rewrite length_fmap, Hlen. done. }
    rewrite shape_lookup in Hocc.
    destruct (file_table (snd (open drv p flags abs s)) !! i) as [[f|]|] eqn:Hl;
      try discriminate.
    by exists i, f.
  - intros p flags abs Ha Hfull.
    assert (Hn : remount_needed s = false).
    { destruct (remount_needed s) eqn:Hn; [|done].
      destruct (Hfree eq_refl) as [i Hi]. apply shape_free_slot in Hi.
      assert (i < MAX_FILES)%nat as Hlt
        by (rewrite <- Hlen; by eapply lookup_lt_Some).
      destruct (Hfull i Hlt) as [f Hf]. congruence. }
    unfold open. rewrite Ha. cbn [negb].
    rewrite (CHECK_REMOUNT_not_needed drv s Hn). cbn [negb].
    rewrite new_file_descriptor_full; [done|].
    intros i Hi. destruct (Hfull i Hi) as [f Hf].
    change (file_table (with_errno E_OK s)) with (file_table s). congruence.
Qed.

End HandleTable.

Lemma handle_table_capacity_witness :
  FATFS.open Script.driver "b.txt" O_RDONLY false Script.sixteen_opens
  = (-1, FATFS.with_errno ENFILE Script.sixteen_opens).
Proof.
  assert (Hr : FATFS.reachable Script.driver Script.sixteen_opens).
  { unfold Script.sixteen_opens. cbn [foldl seq].
    repeat apply FATFS.reach_open. apply FATFS.reach_init. }
  destruct (handle_table_capacity Script.driver Script.sixteen_opens Hr)
    as (_ & _ & _ & H & _).
  apply H; [reflexivity|].
  intros i Hi. unfold FATFS.MAX_FILES in Hi.
  do 16 (destruct i as [|i]; [eexists; vm_compute; reflexivity|]). lia.
Defined.

(** C7, as stated, fails: with all sixteen slots occupied, an [open]
    made while file operations are not allowed returns -1 and leaves
    [errno] at 0: the caller gets no [ENFILE]. *)
Lemma full_table_refused_open_is_not_enfile :
  let s := FATFS.with_world Script.refused Script.sixteen_opens in
  FATFS.reachable Script.driver s /\
  FATFS.open_files (FATFS.file_table s) = 16%nat /\
  FATFS.open Script.driver "b.txt" O_RDONLY false s = (-1, s) /\
  FATFS.errno (snd (FATFS.open Script.driver "b.txt" O_RDONLY false s)) = E_OK.
Proof.
  cbv zeta. split.
  - apply FATFS.reach_world. unfold Script.sixteen_opens. cbn [foldl seq].
    repeat apply FATFS.reach_open. apply FATFS.reach_init.
  - repeat split; vm_compute; reflexivity.
Qed.

(** ** Chunked transfers *)

Section ChunkedIO.
Import FATFS.
Context {W : Type} (drv : Driver W).

Abbreviation state := (fs_state W).

Lemma u32_range (x : Z) : 0 <= u32 x < 2^32.
Proof. unfold u32. apply Z.mod_pos_bound. lia. Qed.

Lemma u32_small (x : Z) : 0 <= x < 2^32 -> u32 x = x.
Proof. intros H. unfold u32. by apply Z.mod_small. Qed.

Lemma to_int32_small (x : Z) : x < 2^31 -> to_int32 x = x.
Proof. intros H. unfold to_int32. by rewrite (proj2 (Z.ltb_lt _ _) H). Qed.


Lemma want_range (addr count cur bytes : Z) :
  0 <= bytes ->
  0 <= want drv addr count cur bytes <= bytes /\
  (want drv addr count cur bytes = 0 -> bytes = 0).
Proof. unfold want, MAX_IO_SIZE. destruct (mem_is_dma_safe _ _ _); lia. Qed.

Lemma call_f_write_spec (fh : nat) (data : list byte) (n : Z) (s : state) :
  let r := call_f_write drv fh data n s in
  0 <= snd (fst r) < 2^32 /\
  extends s (snd r) [EvWrite fh n (fst (fst r)) (snd (fst r))].
Proof.
  cbv zeta. unfold call_f_write.
  destruct (f_write _ _ _ _ _) as [[[res size] fil'] w']. cbn [fst snd].
  split; [apply u32_range|]. unfold extends. cbn.
  by destruct (set_slot_fobj_fields fh fil' s) as (_ & _ & _ & _ & -> & _).
Qed.

(** One chunk of [write]: its report is a 32-bit count, and the calls
    made for it are those of [write_attempts]. *)
Lemma write_chunk_spec (fh : nat) (data : list byte) (n : Z) (s : state) :
  let r := write_chunk drv fh data n s in
  0 <= snd (fst r) < 2^32 /\
  exists evs,
    extends s (snd r) evs /\
    write_attempts fh (n, fst (fst r), snd (fst r)) evs.
Proof.
  cbv zeta. unfold write_chunk.
  destruct (call_f_write_spec fh data n s) as [Hsz Hev].
  destruct (call_f_write drv fh data n s) as [[res size] s1].
  cbn [fst snd] in Hsz, Hev.
  destruct ((res =? FR_DISK_ERR) && RETRY_ALLOWED drv s1) eqn:Hc.
  - apply andb_true_iff in Hc as [Hres _]. apply Z.eqb_eq in Hres. subst res.
    destruct (remount_file_system_events drv (call_delay drv 100 s1))
      as (mid & Hmid & Hrec & Hretry).
    destruct (remount_file_system drv (call_delay drv 100 s1)) as [ok s2].
    cbn [fst snd] in Hmid, Hretry.
    assert (Hev2 : extends s s2 (EvWrite fh n FR_DISK_ERR size :: EvDelay 100 :: mid)).
    { unfold extends in *. rewrite Hmid. cbn. rewrite Hev.
      by rewrite <- !app_assoc. }
    destruct ok.
    + destruct (call_f_write_spec fh data n s2) as [Hsz3 Hev3].
      destruct (call_f_write drv fh data n s2) as [[res3 size3] s3].
      cbn [fst snd] in *. split; [done|].
      eexists. split.
      * eapply extends_trans; [exact Hev2|exact Hev3].
      * right. exists size, mid. split; [done|]. right. split; [|done].
        cbn [chunk_n chunk_res chunk_size fst snd]. reflexivity.
    + cbn [fst snd]. split; [done|]. eexists. split; [exact Hev2|].
      right. exists size, mid. split; [done|]. left. by repeat split.
  - cbn [fst snd]. split; [done|]. eexists. split; [exact Hev|]. by left.
Qed.

Lemma chunked_nonempty (wt : Z -> Z -> Z) (cur rem : Z) (chunks : list chunk) :
  chunked wt cur rem chunks -> exists c rest, chunks = c :: rest.
Proof. destruct chunks as [|c rest]; [done|]. by exists c, rest. Qed.

Lemma chunked_cons (wt : Z -> Z -> Z) (cur rem : Z) (c : chunk)
  (rest : list chunk) :
  chunk_n c = wt cur rem -> chunk_res c = FR_OK -> chunk_size c = chunk_n c ->
  0 < chunk_size c -> 0 < rem - chunk_size c ->
  chunked wt (cur + chunk_size c) (rem - chunk_size c) rest ->
  chunked wt cur rem (c :: rest).
Proof.
  intros H1 H2 H3 H4 H5 H6.
  destruct (chunked_nonempty _ _ _ _ H6) as (c' & rest' & ->).
  cbn [chunked]. cbn [chunked] in H6. done.
Qed.

(** The loop of [write] from any turn on: it ends, the calls it makes
    are those of its chunks in order, the chunks have the shape of a
    chunked transfer, and the value returned is decided by the last
    chunk. *)
Lemma write_loop_run (fh : nat) (buf : list byte) (addr count : Z) (fuel : nat) :
  forall (cur bytes total : Z) (s : state),
    0 <= bytes -> 0 <= total -> total + bytes < 2^32 ->
    (Z.to_nat bytes < fuel)%nat ->
    exists r s' chunks evss,
      write_loop drv fuel fh buf addr count cur bytes total s = Some (r, s') /\
      trace s' = trace s ++ concat evss /\
      Forall2 (write_attempts fh) chunks evss /\
      chunked (want drv addr count) cur bytes chunks /\
      write_calls drv fh buf cur s chunks /\
      forall c, last chunks = Some c ->
        (bad_count c -> r = -1 /\ errno s' = EIO) /\
        (~ bad_count c -> chunk_res c <> FR_OK ->
         r = -1 /\ errno s' = fatfs_to_errno (chunk_res c)) /\
        (~ bad_count c -> chunk_res c = FR_OK ->
         r = to_int32 (total + sum_sizes chunks) /\
         0 <= sum_sizes chunks <= bytes).
Proof.
  induction fuel as [|fuel IH]; intros cur bytes total s Hb Ht Hsum Hfuel; [lia|].
  cbn [write_loop]. fold (want drv addr count cur bytes).
  destruct (want_range addr count cur bytes Hb) as [Hn Hn0].
  set (n := want drv addr count cur bytes) in *.
  set (data := take (Z.to_nat n) (drop (Z.to_nat cur) buf)).
  destruct (write_chunk_spec fh data n s) as (Hsz & evs & Hev & Hatt).
  destruct (write_chunk drv fh data n s) as [[res size] s1] eqn:Hcall.
  cbn [fst snd] in Hsz, Hev, Hatt.
  set (c := (n, res, size) : chunk) in *.
  assert (Hone : forall (r : Z) (s' : state),
    trace s' = trace s1 ->
    chunk_res c <> FR_OK \/ chunk_size c <> chunk_n c \/ bytes - chunk_size c = 0 ->
    (forall c0, last [c] = Some c0 ->
       (bad_count c0 -> r = -1 /\ errno s' = EIO) /\
       (~ bad_count c0 -> chunk_res c0 <> FR_OK ->
        r = -1 /\ errno s' = fatfs_to_errno (chunk_res c0)) /\
       (~ bad_count c0 -> chunk_res c0 = FR_OK ->
        r = to_int32 (total + sum_sizes [c]) /\ 0 <= sum_sizes [c] <= bytes)) ->
    exists r0 s0 chunks evss,
      Some (r, s') = Some (r0, s0) /\
      trace s0 = trace s ++ concat evss /\
      Forall2 (write_attempts fh) chunks evss /\
      chunked (want drv addr count) cur bytes chunks /\
      write_calls drv fh buf cur s chunks /\
      forall c0, last chunks = Some c0 ->
        (bad_count c0 -> r0 = -1 /\ errno s0 = EIO) /\
        (~ bad_count c0 -> chunk_res c0 <> FR_OK ->
         r0 = -1 /\ errno s0 = fatfs_to_errno (chunk_res c0)) /\
        (~ bad_count c0 -> chunk_res c0 = FR_OK ->
         r0 = to_int32 (total + sum_sizes chunks) /\
         0 <= sum_sizes chunks <= bytes)).
  { intros r s' Htr Hstop Hout. exists r, s', [c], [evs].
    split; [done|]. split.
    { rewrite Htr. cbn [concat]. rewrite app_nil_r. exact Hev. }
    split; [constructor; [exact Hatt|constructor]|].
    split; [cbn [chunked]; split; [done|exact Hstop]|].
    split; [|exact Hout].
    cbn [write_calls]. exists s1. split; [exact Hcall|done]. }
  destruct ((n <? size) || (size =? 0)) eqn:Hbad.
  { apply Hone; [done| |].
    - apply orb_true_iff in Hbad as [Hbad|Hbad].
      + apply Z.ltb_lt in Hbad. right; left. cbn. lia.
      + apply Z.eqb_eq in Hbad. cbn.
        destruct (Z.eq_dec n 0) as [Hz|Hz]; [right; right; lia|right; left; lia].
    - intros c0 [= <-]. split; [done|].
      assert (bad_count c).
      { unfold bad_count. cbn. apply orb_true_iff in Hbad as [Hbad|Hbad].
        - apply Z.ltb_lt in Hbad. by right.
        - apply Z.eqb_eq in Hbad. by left. }
      split; intros; contradiction. }
  apply orb_false_iff in Hbad as [Hle Hnz].
  apply Z.ltb_ge in Hle. apply Z.eqb_neq in Hnz.
  assert (Hnb : ~ bad_count c) by (unfold bad_count; cbn; lia).
  assert ((n <? size) = false) as -> by (apply Z.ltb_ge; lia).
  rewrite orb_false_r.
  destruct (res =? FR_OK) eqn:Hres; cbn [negb].
  2:{ apply Z.eqb_neq in Hres. apply Hone; [done|by left|].
      intros c0 [= <-]. split; [intros; contradiction|].
      split; [done|]. intros _ Hok. cbn in Hok. contradiction. }
  apply Z.eqb_eq in Hres.
  rewrite (u32_small (total + size)) by lia.
  rewrite (u32_small (bytes - size)) by lia.
  assert (Hgood : forall c0, last [c] = Some c0 ->
     (bad_count c0 -> to_int32 (total + size) = -1 /\ errno s1 = EIO) /\
     (~ bad_count c0 -> chunk_res c0 <> FR_OK ->
      to_int32 (total + size) = -1 /\ errno s1 = fatfs_to_errno (chunk_res c0)) /\
     (~ bad_count c0 -> chunk_res c0 = FR_OK ->
      to_int32 (total + size) = to_int32 (total + sum_sizes [c]) /\
      0 <= sum_sizes [c] <= bytes)).
  { intros c0 [= <-]. split; [intros; contradiction|].
    split; [intros _ Hne; cbn in Hne; contradiction|].
    intros _ _. cbn. rewrite Z.add_0_r. split; [done|lia]. }
  destruct (size <? n) eqn:Hshort.
  { apply Z.ltb_lt in Hshort. apply Hone; [done| |exact Hgood].
    right; left. cbn. lia. }
  apply Z.ltb_ge in Hshort. assert (size = n) as Heq by lia.
  destruct (0 <? bytes - size) eqn:Hmore.
  2:{ apply Z.ltb_ge in Hmore. apply Hone; [done| |exact Hgood].
      right; right. cbn. lia. }
  apply Z.ltb_lt in Hmore.
  destruct (IH (cur + size) (bytes - size) (total + size) s1)
    as (r & s' & chunks & evss & Hloop & Htr & Hf2 & Hch & Hcalls & Hout);
    try lia.
  exists r, s', (c :: chunks), (evs :: evss).
  split; [exact Hloop|]. split.
  { rewrite Htr. unfold extends in Hev. rewrite Hev. cbn [concat].
    by rewrite app_assoc. }
  split; [by constructor|]. split.
  { apply chunked_cons; cbn; try done; lia. }
  split.
  { cbn [write_calls]. exists s1. split; [exact Hcall|exact Hcalls]. }
  destruct (chunked_nonempty _ _ _ _ Hch) as (c1 & rest & ->).
  intros c0 Hlast. rewrite last_cons_cons in Hlast.
  destruct (Hout c0 Hlast) as (H1 & H2 & H3).
  split; [exact H1|]. split; [exact H2|].
  intros Hb0 Hr0. destruct (H3 Hb0 Hr0) as [-> Hrange].
  cbn [sum_sizes foldr] in *. fold (sum_sizes rest) in *.
  cbn [chunk_size snd c]. split; [f_equal; lia|]. cbn in Hrange. lia.
Qed.

Lemma call_f_read_spec (fh : nat) (n : Z) (s : state) :
  let r := call_f_read drv fh n s in
  0 <= snd (fst (fst r)) < 2^32 /\
  extends s (snd r) [EvRead fh n (fst (fst (fst r))) (snd (fst (fst r)))].
Proof.
  cbv zeta. unfold call_f_read.
  destruct (f_read _ _ _ _) as [[[[res size] data] fil'] w']. cbn [fst snd].
  split; [apply u32_range|]. unfold extends. cbn.
  by destruct (set_slot_fobj_fields fh fil' s) as (_ & _ & _ & _ & -> & _).
Qed.

(** The loop of [read] from any turn on, as [write_loop_run]: every
    chunk is one [f_read]. *)
Lemma read_loop_run (fh : nat) (addr count : Z) (fuel : nat) :
  forall (cur bytes total : Z) (buf : list byte) (s : state),
    0 <= bytes -> 0 <= total -> total + bytes < 2^32 ->
    (Z.to_nat bytes < fuel)%nat ->
    exists r buf' s' chunks,
      read_loop drv fuel fh addr count cur bytes total buf s = Some (r, buf', s') /\
      trace s' = trace s ++ map (ev_read fh) chunks /\
      chunked (want drv addr count) cur bytes chunks /\
      (exists datas, length datas = length chunks /\
                     read_calls drv fh s (zip chunks datas) /\
                     buf' = store_chunks cur (zip chunks datas) buf) /\
      forall c, last chunks = Some c ->
        (chunk_res c <> FR_OK ->
         r = -1 /\ errno s' = fatfs_to_errno (chunk_res c)) /\
        (chunk_res c = FR_OK -> chunk_n c < chunk_size c ->
         r = -1 /\ errno s' = EIO) /\
        (chunk_res c = FR_OK -> chunk_size c <= chunk_n c ->
         r = to_int32 (total + sum_sizes chunks) /\
         0 <= sum_sizes chunks <= bytes).
Proof.
  induction fuel as [|fuel IH]; intros cur bytes total buf s Hb Ht Hsum Hfuel; [lia|].
  cbn [read_loop]. fold (want drv addr count cur bytes).
  destruct (want_range addr count cur bytes Hb) as [Hn Hn0].
  set (n := want drv addr count cur bytes) in *.
  destruct (call_f_read_spec fh n s) as (Hsz & Hev).
  destruct (call_f_read drv fh n s) as [[[res size] data] s1] eqn:Hcall.
  cbn [fst snd] in Hsz, Hev.
  set (buf1 := list_inserts (Z.to_nat cur) data buf).
  set (c := (n, res, size) : chunk) in *.
  assert (Hone : forall (r : Z) (s' : state),
    trace s' = trace s1 ->
    chunk_res c <> FR_OK \/ chunk_size c <> chunk_n c \/ bytes - chunk_size c = 0 ->
    ((chunk_res c <> FR_OK -> r = -1 /\ errno s' = fatfs_to_errno (chunk_res c)) /\
     (chunk_res c = FR_OK -> chunk_n c < chunk_size c -> r = -1 /\ errno s' = EIO) /\
     (chunk_res c = FR_OK -> chunk_size c <= chunk_n c ->
      r = to_int32 (total + sum_sizes [c]) /\ 0 <= sum_sizes [c] <= bytes)) ->
    exists r0 buf' s0 chunks,
      Some (r, buf1, s') = Some (r0, buf', s0) /\
      trace s0 = trace s ++ map (ev_read fh) chunks /\
      chunked (want drv addr count) cur bytes chunks /\
      (exists datas, length datas = length chunks /\
                     read_calls drv fh s (zip chunks datas) /\
                     buf' = store_chunks cur (zip chunks datas) buf) /\
      forall c0, last chunks = Some c0 ->
        (chunk_res c0 <> FR_OK ->
         r0 = -1 /\ errno s0 = fatfs_to_errno (chunk_res c0)) /\
        (chunk_res c0 = FR_OK -> chunk_n c0 < chunk_size c0 ->
         r0 = -1 /\ errno s0 = EIO) /\
        (chunk_res c0 = FR_OK -> chunk_size c0 <= chunk_n c0 ->
         r0 = to_int32 (total + sum_sizes chunks) /\
         0 <= sum_sizes chunks <= bytes)).
  { intros r s' Htr Hstop Hout. exists r, buf1, s', [c].
    split; [done|]. split; [rewrite Htr; exact Hev|].
    split; [cbn [chunked]; split; [done|exact Hstop]|].
    split; [|by intros c0 [= <-]].
    exists [data]. split; [done|]. split; [|done].
    cbn [zip zip_with read_calls]. exists s1. split; [exact Hcall|done]. }
  destruct (res =? FR_OK) eqn:Hres; cbn [negb].
  2:{ apply Z.eqb_neq in Hres. apply Hone; [done|by left|].
      split; [done|]. split; intros Hok; cbn in Hok; contradiction. }
  apply Z.eqb_eq in Hres.
  destruct (size =? 0) eqn:Hz.
  { apply Z.eqb_eq in Hz. apply Hone; [done| |].
    - cbn. destruct (Z.eq_dec n 0); [right; right; lia|right; left; lia].
    - split; [intros Hne; cbn in Hne; contradiction|].
      split; [intros _ Hlt; cbn in Hlt; lia|].
      intros _ _. cbn. rewrite Hz, !Z.add_0_r. split; [done|lia]. }
  apply Z.eqb_neq in Hz.
  destruct (n <? size) eqn:Hover.
  { apply Z.ltb_lt in Hover. apply Hone; [done| |].
    - right; left. cbn. lia.
    - split; [intros Hne; cbn in Hne; contradiction|].
      split; [done|]. intros _ Hle. cbn in Hle. lia. }
  apply Z.ltb_ge in Hover.
  rewrite (u32_small (total + size)) by lia.
  rewrite (u32_small (bytes - size)) by lia.
  assert (Hgood :
     (chunk_res c <> FR_OK ->
      to_int32 (total + size) = -1 /\ errno s1 = fatfs_to_errno (chunk_res c)) /\
     (chunk_res c = FR_OK -> chunk_n c < chunk_size c ->
      to_int32 (total + size) = -1 /\ errno s1 = EIO) /\
     (chunk_res c = FR_OK -> chunk_size c <= chunk_n c ->
      to_int32 (total + size) = to_int32 (total + sum_sizes [c]) /\
      0 <= sum_sizes [c] <= bytes)).
  { split; [intros Hne; cbn in Hne; contradiction|].
    split; [intros _ Hlt; cbn in Hlt; lia|].
    intros _ _. cbn. rewrite Z.add_0_r. split; [done|lia]. }
  destruct (size <? n) eqn:Hshort.
  { apply Z.ltb_lt in Hshort. apply Hone; [done| |exact Hgood].
    right; left. cbn. lia. }
  apply Z.ltb_ge in Hshort. assert (size = n) as Heq by lia.
  destruct (0 <? bytes - size) eqn:Hmore.
  2:{ apply Z.ltb_ge in Hmore. apply Hone; [done| |exact Hgood].
      right; right. cbn. lia. }
  apply Z.ltb_lt in Hmore.
  destruct (IH (cur + size) (bytes - size) (total + size) buf1 s1)
    as (r & buf' & s' & chunks & Hloop & Htr & Hch
          & (datas & Hlen & Hcalls & Hbuf) & Hout);
    try lia.
  exists r, buf', s', (c :: chunks).
  split; [exact Hloop|]. split.
  { rewrite Htr. unfold extends in Hev. rewrite Hev. cbn [map].
    by rewrite <- app_assoc. }
  split.
  { apply chunked_cons; cbn; try done; lia. }
  split.
  { exists (data :: datas). split; [cbn; by rewrite Hlen|].
    split; [|by rewrite Hbuf].
    cbn [zip zip_with read_calls]. exists s1. split; [exact Hcall|exact Hcalls]. }
  destruct (chunked_nonempty _ _ _ _ Hch) as (c1 & rest & ->).
  intros c0 Hlast. rewrite last_cons_cons in Hlast.
  destruct (Hout c0 Hlast) as (H1 & H2 & H3).
  split; [exact H1|]. split; [exact H2|].
  intros Hr0 Hle0. destruct (H3 Hr0 Hle0) as [-> Hrange].
  cbn [sum_sizes foldr] in *. fold (sum_sizes rest) in *.
  cbn [chunk_size snd c]. split; [f_equal; lia|]. cbn in Hrange. lia.
Qed.



(** In a chunked transfer only the last chunk can have moved nothing or
    too much. *)
Lemma chunked_bad_last (wt : Z -> Z -> Z) (chunks : list chunk) (c : chunk) :
  forall cur rem : Z,
    chunked wt cur rem chunks -> c ∈ chunks -> bad_count c ->
    last chunks = Some c.
Proof.
  induction chunks as [|c0 rest IH]; intros cur rem Hch Hin Hbad;
    [by inversion Hin|].
  cbn [chunked] in Hch. destruct Hch as [Hn Hrest].
  destruct rest as [|c' rest'].
  - apply list_elem_of_singleton in Hin. by subst.
  - destruct Hrest as (_ & H2 & H3 & _ & H5).
    rewrite last_cons_cons. apply elem_of_cons in Hin as [->|Hin].
    + exfalso. unfold bad_count in Hbad. lia.
    + by eapply IH.
Qed.


Lemma CHECK_REMOUNT_events (s : state) :
  exists pre,
    extends s (snd (CHECK_REMOUNT drv s)) pre /\
    Forall (fun e => recovery_event e = true) pre.
Proof.
  unfold CHECK_REMOUNT. destruct (remount_needed s).
  - destruct (remount_file_system_events drv s) as (pre & Hext & Hrec & _).
    destruct (remount_file_system drv s) as [ok s1]. cbn [snd] in Hext.
    exists pre. by destruct ok.
  - exists []. split; [apply extends_refl|constructor].
Qed.

Lemma classic_bad (c : chunk) : bad_count c \/ ~ bad_count c.
Proof. unfold bad_count. lia. Qed.

Lemma fileno_to_fatfs_valid (fd : Z) (f : FAT_FILE) (s : state) :
  0 <= fd < Z.of_nat MAX_FILES ->
  file_table s !! Z.to_nat fd = Some (Some f) ->
  fileno_to_fatfs fd s = (Some (Z.to_nat fd), s).
Proof.
  intros Hr Hf. unfold fileno_to_fatfs, fileno_to_stream.
  assert ((fd <? 0) || (Z.of_nat MAX_FILES <=? fd) = false) as ->.
  { apply orb_false_iff. split; [apply Z.ltb_ge|apply Z.leb_gt]; lia. }
  by rewrite Hf.
Qed.

(** C6 (amended).  Every [write] of a 32-bit count returns; the calls
    it makes are those of a remount at entry, if any, followed by those
    of its chunks; and whenever the report the loop acts on for a chunk
    (the one of the second [f_write] when a disk error was retried after
    a successful remount, the one of the only [f_write] otherwise) shows
    zero bytes moved or more bytes than asked for, that chunk is the
    last one and [write] returns -1 with [errno = EIO], whatever the
    result code of the report. *)
Theorem write_bad_count_is_eio (s : state) (fd : Z) (buf : list byte)
  (addr count : Z) :
  0 <= count < 2^32 ->
  exists r s' pre chunks evss,
    write drv fd buf addr count s = Some (r, s') /\
    trace s' = trace s ++ pre ++ concat evss /\
    Forall (fun e => recovery_event e = true) pre /\
    Forall2 (write_attempts (Z.to_nat fd)) chunks evss /\
    forall c, c ∈ chunks -> bad_count c ->
      last chunks = Some c /\ r = -1 /\ errno s' = EIO.
Proof.
  intros Hc. unfold write.
  set (s0 := with_errno E_OK s).
  assert (Hnone : forall (s1 : state) (pre : list event),
    trace s1 = trace s ++ pre ->
    Forall (fun e => recovery_event e = true) pre ->
    exists r s' pre chunks evss,
      Some (-1, s1) = Some (r, s') /\
      trace s' = trace s ++ pre ++ concat evss /\
      Forall (fun e => recovery_event e = true) pre /\
      Forall2 (write_attempts (Z.to_nat fd)) chunks evss /\
      forall c, c ∈ chunks -> bad_count c ->
        last chunks = Some c /\ r = -1 /\ errno s' = EIO).
  { intros s1 pre Htr Hrec. exists (-1), s1, pre, [], [].
    split; [done|]. split; [by rewrite Htr, app_nil_r|]. split; [done|].
    split; [constructor|]. intros c Hin. inversion Hin. }
  destruct (file_op_allowed drv (world s0)); cbn [negb];
    [|apply (Hnone s0 []); [by rewrite app_nil_r|constructor]].
  destruct (CHECK_REMOUNT_events s0) as (pre & Hpre & Hrec).
  destruct (CHECK_REMOUNT drv s0) as [ok s1]. cbn [snd] in Hpre.
  destruct ok; cbn [negb]; [|by apply (Hnone s1 pre)].
  pose proof (fileno_to_fatfs_state fd s1) as Hf.
  destruct (fileno_to_fatfs fd s1) as [[fh|] s2].
  2:{ apply (Hnone s2 pre); [|done]. rewrite Hf. exact Hpre. }
  destruct Hf as (-> & -> & _ & _).
  destruct (write_loop_run (Z.to_nat fd) buf addr count (S (Z.to_nat count))
              0 count 0 s1)
    as (r & s' & chunks & evss & Hloop & Htr & Hatt & Hch & _ & Hout);
    try lia.
  exists r, s', pre, chunks, evss. split; [exact Hloop|]. split.
  { rewrite Htr. unfold extends in Hpre. rewrite Hpre. cbn.
    by rewrite <- app_assoc. }
  split; [done|]. split; [done|].
  intros c Hin Hbad.
  pose proof (chunked_bad_last _ _ _ _ _ Hch Hin Hbad) as Hlast.
  split; [done|]. destruct (Hout c Hlast) as (H1 & _). by apply H1.
Qed.

(** The calls of one chunk of [write] are not empty. *)
Lemma write_attempts_nonempty (fh : nat) (c : chunk) (evs : list event) :
  write_attempts fh c evs -> evs <> [].
Proof.
  intros [->|(size0 & mid & _ & [(-> & _)|(-> & _)])]; discriminate.
Qed.

(** A trace that consists of a single [f_write] is that of a single
    chunk, served by that one call. *)
Lemma write_attempts_single (fh : nat) (pre : list event) (chunks : list chunk)
  (evss : list (list event)) (n : Z) (res : FRESULT) (size : Z) :
  Forall (fun e => recovery_event e = true) pre ->
  Forall2 (write_attempts fh) chunks evss ->
  pre ++ concat evss = [EvWrite fh n res size] ->
  chunks = [(n, res, size)].
Proof.
  intros Hrec Hatt Heq.
  destruct pre as [|e pre].
  2: { cbn in Heq. injection Heq as -> _. inversion Hrec as [|? ? He]. discriminate He. }
  cbn [app] in Heq.
  destruct Hatt as [|c evs chunks evss Hc Hrest]; [discriminate Heq|].
  cbn [concat] in Heq.
  assert (evss = []) as ->.
  { destruct Hrest as [|c2 evs2 ? ? Hc2 _]; [done|].
    pose proof (write_attempts_nonempty _ _ _ Hc) as H1.
    pose proof (write_attempts_nonempty _ _ _ Hc2) as H2.
    destruct evs as [|? [|? ?]], evs2 as [|? ?]; cbn in Heq; congruence. }
  inversion Hrest. subst. cbn [concat] in Heq. rewrite app_nil_r in Heq.
  subst evs. destruct c as [[cn cr] cs].
  destruct Hc as [Hc|(size0 & mid & _ & [(Hc & _)|(Hc & _)])].
  - cbn in Hc. by injection Hc as -> -> ->.
  - discriminate Hc.
  - cbn in Hc. injection Hc as _ _ _ Hc. discriminate Hc.
Qed.


End ChunkedIO.

Lemma write_bad_count_is_eio_witness :
  exists s',
    FATFS.write Script.driver 0 (replicate 8 x01) 0 8
      (Script.one_open Script.write_too_many) = Some (-1, s') /\
    FATFS.errno s' = EIO.
Proof.
  destruct (write_bad_count_is_eio Script.driver
              (Script.one_open Script.write_too_many) 0 (replicate 8 x01) 0 8)
    as (r & s' & pre & chunks & evss & Hw & Htr & Hrec & Hatt & Hbad); [lia|].
  pose proof Hw as Hw'. vm_compute in Hw'. injection Hw' as <- <-.
  assert (chunks = [(8, FR_OK, 9)]) as ->.
  { apply (write_attempts_single 0 pre chunks evss 8 FR_OK 9 Hrec Hatt).
    vm_compute in Htr. symmetry. exact Htr. }
  destruct (Hbad (8, FR_OK, 9)) as (_ & _ & He).
  - apply list_elem_of_singleton. reflexivity.
  - right. vm_compute. reflexivity.
  - eexists. split; [exact Hw|exact He].
Defined.


(** C6, as stated, fails: the first [f_write] of a chunk reports a disk
    error with zero bytes moved, the remount succeeds, the second
    [f_write] moves the eight bytes, and [write] returns 8 with [errno]
    clear. *)
Lemma zero_count_retried_is_no_error :
  exists s',
    FATFS.write Script.driver 0 (replicate 8 x01) 0 8
      (Script.one_open Script.write_error_once) = Some (8, s') /\
    FATFS.errno s' = E_OK /\
    FATFS.trace s' =
      [FATFS.EvWrite 0 8 FR_DISK_ERR 0; FATFS.EvDelay 100;
       FATFS.EvSdcardStop; FATFS.EvSdcardRetry true;
       FATFS.EvOpen 0 FATFS.FIL_zero "log.bin" 19 FR_OK;
       FATFS.EvLseek 0 100 FR_OK;
       FATFS.EvWrite 0 8 FR_OK 8].
Proof.
  eexists. split; [vm_compute; reflexivity|]. split; reflexivity.
Qed.


(** ** The remount flag *)

Section RemountFlag.
Import FATFS.
Context {W : Type} (drv : Driver W).

Abbreviation state := (fs_state W).

Lemma flag_after_app (b : bool) (e1 e2 : list event) :
  flag_after b (e1 ++ e2) = flag_after (flag_after b e1) e2.
Proof. unfold flag_after. apply foldl_app. Qed.

Lemma tracks_refl (s : state) : tracks s s.
Proof. exists []. split; [apply extends_refl|done]. Qed.

Lemma tracks_trans (s1 s2 s3 : state) :
  tracks s1 s2 -> tracks s2 s3 -> tracks s1 s3.
Proof.
  intros (e1 & H1 & F1) (e2 & H2 & F2). exists (e1 ++ e2).
  split; [by eapply extends_trans|]. by rewrite flag_after_app, <- F1.
Qed.

Lemma tracks_quiet (s s' : state) :
  trace s' = trace s -> remount_needed s' = remount_needed s -> tracks s s'.
Proof.
  intros Ht Hf. exists []. split; [unfold extends; by rewrite app_nil_r|done].
Qed.

Lemma tracks_call (e : event) (s s' : state) :
  trace s' = trace s ++ [e] -> remount_needed s' = remount_needed s ->
  (forall ok, e <> EvSdcardRetry ok) -> tracks s s'.
Proof.
  intros Ht Hf He. exists [e]. split; [done|]. cbn. rewrite Hf.
  destruct e; try done. by destruct (He ok).
Qed.

Lemma tracks_set_slot_fobj (i : nat) (fh : FIL) (s : state) :
  tracks s (set_slot_fobj i fh s).
Proof.
  destruct (set_slot_fobj_fields i fh s) as (H1 & _ & _ & _ & H2 & _).
  by apply tracks_quiet.
Qed.

Lemma tracks_call_f_open (fh : nat) (p : string) (mode : Z) (s : state) :
  tracks s (snd (call_f_open drv fh p mode s)).
Proof.
  unfold call_f_open. destruct (f_open drv _ _ _ _) as [[res fil'] w]. cbn [snd].
  destruct (set_slot_fobj_fields fh fil' s) as (H1 & _ & _ & _ & H2 & _).
  eapply tracks_call; cbn; [by rewrite H2|done|done].
Qed.

Lemma tracks_call_f_lseek (fh : nat) (ofs : Z) (s : state) :
  tracks s (snd (call_f_lseek drv fh ofs s)).
Proof.
  unfold call_f_lseek. destruct (f_lseek drv _ _ _) as [[res fil'] w]. cbn [snd].
  destruct (set_slot_fobj_fields fh fil' s) as (H1 & _ & _ & _ & H2 & _).
  eapply tracks_call; cbn; [by rewrite H2|done|done].
Qed.

Lemma tracks_call_f_close (fh : nat) (s : state) :
  tracks s (snd (call_f_close drv fh s)).
Proof.
  unfold call_f_close. destruct (f_close drv _ _) as [res w]. cbn [snd].
  eapply tracks_call; cbn; done.
Qed.

Lemma tracks_call_f_read (fh : nat) (n : Z) (s : state) :
  tracks s (snd (call_f_read drv fh n s)).
Proof.
  unfold call_f_read. destruct (f_read drv _ _ _) as [[[[res size] data] fil'] w].
  cbn [snd].
  destruct (set_slot_fobj_fields fh fil' s) as (H1 & _ & _ & _ & H2 & _).
  eapply tracks_call; cbn; [by rewrite H2|done|done].
Qed.

Lemma tracks_call_f_write (fh : nat) (data : list byte) (n : Z) (s : state) :
  tracks s (snd (call_f_write drv fh data n s)).
Proof.
  unfold call_f_write. destruct (f_write drv _ _ _ _) as [[[res size] fil'] w].
  cbn [snd].
  destruct (set_slot_fobj_fields fh fil' s) as (H1 & _ & _ & _ & H2 & _).
  eapply tracks_call; cbn; [by rewrite H2|done|done].
Qed.

Lemma tracks_call_f_stat (p : string) (s : state) :
  tracks s (snd (call_f_stat drv p s)).
Proof.
  unfold call_f_stat. destruct (f_stat drv _ _) as [[res info] w]. cbn [snd].
  eapply tracks_call; cbn; done.
Qed.

Lemma tracks_call_f_opendir (p : string) (s : state) :
  tracks s (snd (call_f_opendir drv p s)).
Proof.
  unfold call_f_opendir. destruct (f_opendir drv _ _) as [[res d] w]. cbn [snd].
  eapply tracks_call; cbn; done.
Qed.

Lemma tracks_call_delay (ms : Z) (s : state) : tracks s (call_delay drv ms s).
Proof. eapply tracks_call; cbn; done. Qed.

Lemma tracks_alloc (f : W -> bool * W) (s : state) : tracks s (snd (alloc f s)).
Proof. unfold alloc. destruct (f (world s)). by apply tracks_quiet. Qed.

Lemma tracks_new_file_descriptor (p : string) (s : state) :
  tracks s (snd (new_file_descriptor drv p s)).
Proof.
  unfold new_file_descriptor, alloc.
  destruct (find_free_slot _ _); [|by apply tracks_quiet].
  destruct (calloc_ok drv (world s)) as [[|] w1]; cbn [negb];
    [|by apply tracks_quiet].
  cbn [world with_world]. destruct (strdup_ok drv w1) as [[|] w2]; cbn [negb];
    by apply tracks_quiet.
Qed.

Lemma tracks_fileno_to_stream (fd : Z) (s : state) :
  tracks s (snd (fileno_to_stream fd s)).
Proof.
  unfold fileno_to_stream. destruct (_ || _); [by apply tracks_quiet|].
  destruct (file_table s !! Z.to_nat fd) as [[f|]|]; by apply tracks_quiet.
Qed.

Lemma tracks_free_file_descriptor (fd : Z) (s : state) :
  tracks s (free_file_descriptor fd s).
Proof.
  unfold free_file_descriptor.
  pose proof (tracks_fileno_to_stream fd s) as H.
  destruct (fileno_to_stream fd s) as [[i|] s1]; cbn [snd] in H; [|done].
  eapply tracks_trans; [exact H|]. by apply tracks_quiet.
Qed.

Lemma tracks_with_errno (e : errno_t) (s : state) : tracks s (with_errno e s).
Proof. by apply tracks_quiet. Qed.

Lemma reopen_slot_tracks (i : nat) (s : state) : tracks s (reopen_slot drv i s).
Proof.
  unfold reopen_slot. destruct (file_table s !! i) as [[f|]|]; try apply tracks_refl.
  eapply tracks_trans; [apply (tracks_set_slot_fobj i FIL_zero s)|].
  match goal with |- context [call_f_open drv ?a ?b ?c ?d] =>
    pose proof (tracks_call_f_open a b c d) as H;
    destruct (call_f_open drv a b c d) as [res s1] end.
  cbn [snd] in H. destruct (res =? FR_OK); [|exact H].
  eapply tracks_trans; [exact H|apply tracks_call_f_lseek].
Qed.

Lemma reopen_all_tracks (idxs : list nat) (s : state) :
  tracks s (foldl (fun s i => reopen_slot drv i s) s idxs).
Proof.
  revert s. induction idxs as [|i idxs IH]; intros s; [apply tracks_refl|].
  cbn [foldl]. eapply tracks_trans; [apply reopen_slot_tracks|apply IH].
Qed.

(** A recovery attempt leaves the flag at whether it failed, and the
    calls of the reopening do not change it. *)
Lemma remount_file_system_tracks (s : state) :
  tracks s (snd (remount_file_system drv s)).
Proof.
  unfold remount_file_system.
  assert (H0 : tracks s (if remount_needed s then s else call_sdcard_stop drv s)).
  { destruct (remount_needed s); [apply tracks_refl|].
    eapply tracks_call; cbn; done. }
  eapply tracks_trans; [exact H0|]. clear H0.
  generalize (if remount_needed s then s else call_sdcard_stop drv s).
  intros s0. unfold call_sdcard_retry.
  destruct (sdcard_retry drv (world s0)) as [ok w1].
  destruct ok; cbn [negb snd].
  - eapply tracks_trans; [|apply reopen_all_tracks].
    exists [EvSdcardRetry true]. by split.
  - exists [EvSdcardRetry false]. by split.
Qed.

Lemma CHECK_REMOUNT_tracks (s : state) : tracks s (snd (CHECK_REMOUNT drv s)).
Proof.
  unfold CHECK_REMOUNT. destruct (remount_needed s); [|apply tracks_refl].
  pose proof (remount_file_system_tracks s) as H.
  destruct (remount_file_system drv s) as [ok s1]. cbn [snd] in H.
  destruct ok; cbn [negb snd]; [done|].
  eapply tracks_trans; [exact H|apply tracks_with_errno].
Qed.

(** The retry of a backend call after a disk error. *)
Lemma retry_tracks {A : Type} (pause : bool) (call : state -> A * state)
  (res : FRESULT) (a : A) (s : state) :
  (forall t, tracks t (snd (call t))) ->
  tracks s
    (snd (if (res =? FR_DISK_ERR) && RETRY_ALLOWED drv s then
            let '(ok, s1) :=
              remount_file_system drv (if pause then call_delay drv 100 s else s) in
            if ok then call s1 else (a, s1)
          else (a, s))).
Proof.
  intros Hcall. destruct ((res =? FR_DISK_ERR) && RETRY_ALLOWED drv s);
    [|apply tracks_refl].
  assert (H0 : tracks s (if pause then call_delay drv 100 s else s))
    by (destruct pause; [apply tracks_call_delay|apply tracks_refl]).
  eapply tracks_trans; [exact H0|]. clear H0.
  generalize (if pause then call_delay drv 100 s else s). intros s0.
  pose proof (remount_file_system_tracks s0) as H.
  destruct (remount_file_system drv s0) as [ok s1]. cbn [snd] in H.
  destruct ok; [|exact H].
  eapply tracks_trans; [exact H|apply Hcall].
Qed.

(** [open] from the entry check on. *)
Lemma open_tail (p : string) (flags : Z) (abs : bool) (s s1 : state) :
  file_op_allowed drv (world s) = true ->
  CHECK_REMOUNT drv s = (true, s1) ->
  tracks s1 (snd (open drv p flags abs s)).
Proof.
  intros Ha Hc. unfold open. rewrite Ha, Hc. cbn [negb]. cbv zeta.
  set (modes := if Z.land flags O_CREAT =? 0 then _ else _). clearbody modes.
  eapply tracks_trans; [apply (tracks_with_errno E_OK s1)|].
  generalize (with_errno E_OK s1). intros s2.
  pose proof (tracks_new_file_descriptor p s2) as H.
  destruct (new_file_descriptor drv p s2) as [fileno s3]. cbn [snd] in H.
  eapply tracks_trans; [exact H|]; clear H. destruct (fileno <? 0); [apply tracks_refl|].
  pose proof (tracks_call_f_open (Z.to_nat fileno) p (Z.land modes 255) s3) as H.
  destruct (call_f_open drv (Z.to_nat fileno) p (Z.land modes 255) s3)
    as [res s4]. cbn [snd] in H. eapply tracks_trans; [exact H|]; clear H.
  match goal with |- context [let '(r, st) := ?blk in _] =>
    assert (H : tracks s4 (snd blk))
      by (apply (retry_tracks true
                   (call_f_open drv (Z.to_nat fileno) p (Z.land modes 255))
                   res res s4), tracks_call_f_open);
    destruct blk as [res5 s5] end.
  cbn [snd] in H. eapply tracks_trans; [exact H|]; clear H.
  destruct (res5 =? FR_OK); cbn [negb snd].
  2: { eapply tracks_trans; [apply tracks_with_errno|].
       apply tracks_free_file_descriptor. }
  destruct (Z.land flags O_APPEND =? 0); [apply tracks_refl|].
  match goal with |- context [call_f_lseek drv ?a ?b ?c] =>
    pose proof (tracks_call_f_lseek a b c) as H;
    destruct (call_f_lseek drv a b c) as [res6 s6] end.
  cbn [snd] in H. eapply tracks_trans; [exact H|]; clear H.
  destruct (res6 =? FR_OK); cbn [negb snd]; [apply tracks_refl|].
  eapply tracks_trans; [apply tracks_with_errno|].
  match goal with |- context [call_f_close drv ?a ?b] =>
    pose proof (tracks_call_f_close a b) as H;
    destruct (call_f_close drv a b) as [res7 s7] end.
  cbn [snd] in H. eapply tracks_trans; [exact H|]; clear H. apply tracks_free_file_descriptor.
Qed.

Lemma read_loop_tracks (fh : nat) (addr count : Z) (fuel : nat) :
  forall (cur bytes total : Z) (buf : list byte) (s : state) r buf' s',
    read_loop drv fuel fh addr count cur bytes total buf s = Some (r, buf', s') ->
    tracks s s'.
Proof.
  induction fuel as [|fuel IH]; intros cur bytes total buf s r buf' s' H;
    [done|].
  cbn [read_loop] in H.
  match type of H with context [call_f_read drv ?a ?b ?c] =>
    pose proof (tracks_call_f_read a b c) as Hc;
    destruct (call_f_read drv a b c) as [[[res size] data] s1] end.
  cbn [snd] in Hc.
  destruct (res =? FR_OK); cbn [negb] in H.
  2: { injection H as <- <- <-.
       eapply tracks_trans; [exact Hc|apply tracks_with_errno]. }
  destruct (size =? 0); [by injection H as <- <- <-|].
  destruct (_ <? size);
    [injection H as <- <- <-;
     eapply tracks_trans; [exact Hc|apply tracks_with_errno]|].
  destruct (size <? _); [by injection H as <- <- <-|].
  destruct (0 <? u32 (bytes - size)); [|by injection H as <- <- <-].
  eapply tracks_trans; [exact Hc|]. eapply IH. exact H.
Qed.

(** [read] from the entry check on. *)
Lemma read_tail (fd : Z) (buf : list byte) (addr count : Z) (s s1 : state)
  r buf' s' :
  file_op_allowed drv (world s) = true ->
  CHECK_REMOUNT drv s = (true, s1) ->
  read drv fd buf addr count s = Some (r, buf', s') ->
  tracks s1 s'.
Proof.
  intros Ha Hc. unfold read. rewrite Ha, Hc. cbn [negb]. intros H.
  eapply tracks_trans; [apply (tracks_with_errno E_OK s1)|].
  revert H. generalize (with_errno E_OK s1). intros s2 H.
  unfold fileno_to_fatfs in H.
  pose proof (tracks_fileno_to_stream fd s2) as Hf.
  destruct (fileno_to_stream fd s2) as [[fh|] s3]; cbn [snd] in Hf.
  - eapply tracks_trans; [exact Hf|]; clear Hf. eapply read_loop_tracks. exact H.
  - by injection H as <- <- <-.
Qed.

Lemma write_chunk_tracks (fh : nat) (data : list byte) (n : Z) (s : state) :
  tracks s (snd (write_chunk drv fh data n s)).
Proof.
  unfold write_chunk.
  pose proof (tracks_call_f_write fh data n s) as H.
  destruct (call_f_write drv fh data n s) as [[res size] s1]. cbn [snd] in H.
  eapply tracks_trans; [exact H|]; clear H.
  apply (retry_tracks true (call_f_write drv fh data n) res (res, size) s1).
  intros t. apply tracks_call_f_write.
Qed.

Lemma write_loop_tracks (fh : nat) (buf : list byte) (addr count : Z)
  (fuel : nat) :
  forall (cur bytes total : Z) (s : state) r s',
    write_loop drv fuel fh buf addr count cur bytes total s = Some (r, s') ->
    tracks s s'.
Proof.
  induction fuel as [|fuel IH]; intros cur bytes total s r s' H; [done|].
  cbn [write_loop] in H.
  match type of H with context [write_chunk drv ?a ?b ?c ?d] =>
    pose proof (write_chunk_tracks a b c d) as Hc;
    destruct (write_chunk drv a b c d) as [[res size] s1] end.
  cbn [snd] in Hc.
  destruct (_ || _);
    [injection H as <- <-;
     eapply tracks_trans; [exact Hc|apply tracks_with_errno]|].
  destruct (_ || _);
    [injection H as <- <-;
     eapply tracks_trans; [exact Hc|apply tracks_with_errno]|].
  destruct (size <? _); [by injection H as <- <-|].
  destruct (0 <? u32 (bytes - size)); [|by injection H as <- <-].
  eapply tracks_trans; [exact Hc|]. eapply IH. exact H.
Qed.

(** [write] from the entry check on. *)
Lemma write_tail (fd : Z) (buf : list byte) (addr count : Z) (s s1 : state)
  r s' :
  file_op_allowed drv (world s) = true ->
  CHECK_REMOUNT drv (with_errno E_OK s) = (true, s1) ->
  write drv fd buf addr count s = Some (r, s') ->
  tracks s1 s'.
Proof.
  intros Ha Hc. unfold write. cbn [world with_errno]. rewrite Ha, Hc.
  cbn [negb]. intros H. unfold fileno_to_fatfs in H.
  pose proof (tracks_fileno_to_stream fd s1) as Hf.
  destruct (fileno_to_stream fd s1) as [[fh|] s3]; cbn [snd] in Hf.
  - eapply tracks_trans; [exact Hf|]; clear Hf. eapply write_loop_tracks. exact H.
  - by injection H as <- <-.
Qed.

(** [stat] from the entry check on. *)
Lemma stat_tail (name : string) (buf : stat_t) (s s1 : state) :
  file_op_allowed drv (world s) = true ->
  CHECK_REMOUNT drv s = (true, s1) ->
  tracks s1 (snd (stat drv name buf s)).
Proof.
  intros Ha Hc. unfold stat. rewrite Ha, Hc. cbn [negb].
  eapply tracks_trans; [apply (tracks_with_errno E_OK s1)|].
  generalize (with_errno E_OK s1). intros s2.
  destruct (_ || _); [apply tracks_refl|].
  pose proof (tracks_call_f_stat name s2) as H.
  destruct (call_f_stat drv name s2) as [[res info] s3]. cbn [snd] in H.
  eapply tracks_trans; [exact H|]; clear H.
  match goal with |- context [let '(r, st) := ?blk in _] =>
    assert (H : tracks s3 (snd blk))
      by (apply (retry_tracks false (call_f_stat drv name) res (res, info) s3),
            tracks_call_f_stat);
    destruct blk as [[res5 info5] s5] end.
  cbn [snd] in H. eapply tracks_trans; [exact H|]; clear H.
  destruct (res5 =? FR_OK); cbn [negb snd];
    [apply tracks_refl|apply tracks_with_errno].
Qed.

(** [opendir] from the entry check on. *)
Lemma opendir_tail (pathdir : string) (s s1 : state) :
  file_op_allowed drv (world s) = true ->
  CHECK_REMOUNT drv s = (true, s1) ->
  tracks s1 (snd (opendir drv pathdir s)).
Proof.
  intros Ha Hc. unfold opendir. rewrite Ha, Hc. cbn [negb].
  pose proof (tracks_alloc (new_DIR_Wrapper_ok drv) s1) as H.
  destruct (alloc (new_DIR_Wrapper_ok drv) s1) as [ok s2]. cbn [snd] in H.
  eapply tracks_trans; [exact H|]; clear H. destruct ok; cbn [negb snd]; [|apply tracks_refl].
  pose proof (tracks_call_f_opendir pathdir s2) as H.
  destruct (call_f_opendir drv pathdir s2) as [[res d] s3]. cbn [snd] in H.
  eapply tracks_trans; [exact H|]; clear H.
  match goal with |- context [let '(r, st) := ?blk in _] =>
    assert (H : tracks s3 (snd blk))
      by (apply (retry_tracks false (call_f_opendir drv pathdir) res (res, d) s3),
            tracks_call_f_opendir);
    destruct blk as [[res5 d5] s5] end.
  cbn [snd] in H. eapply tracks_trans; [exact H|]; clear H.
  destruct (res5 =? FR_OK); cbn [negb snd];
    [apply tracks_refl|apply tracks_with_errno].
Qed.

(** The five media-facing operations change the flag only through the
    recovery attempts they make. *)
Lemma operations_track (s : state) :
  (forall p flags abs, tracks s (snd (open drv p flags abs s))) /\
  (forall fd buf addr count r buf' s',
      read drv fd buf addr count s = Some (r, buf', s') -> tracks s s') /\
  (forall fd buf addr count r s',
      write drv fd buf addr count s = Some (r, s') -> tracks s s') /\
  (forall name buf, tracks s (snd (stat drv name buf s))) /\
  (forall pathdir, tracks s (snd (opendir drv pathdir s))).
Proof.
  pose proof (CHECK_REMOUNT_tracks s) as Hc.
  pose proof (CHECK_REMOUNT_tracks (with_errno E_OK s)) as Hcw.
  split; [|split; [|split; [|split]]].
  - intros p flags abs.
    destruct (file_op_allowed drv (world s)) eqn:Ha;
      [|unfold open; rewrite Ha; apply tracks_refl].
    destruct (CHECK_REMOUNT drv s) as [[|] s1] eqn:E; cbn [snd] in Hc.
    + eapply tracks_trans; [exact Hc|]. by apply open_tail.
    + unfold open. by rewrite Ha, E.
  - intros fd buf addr count r buf' s' H.
    destruct (file_op_allowed drv (world s)) eqn:Ha.
    2: { unfold read in H. rewrite Ha in H. injection H as <- <- <-.
         apply tracks_refl. }
    destruct (CHECK_REMOUNT drv s) as [[|] s1] eqn:E; cbn [snd] in Hc.
    + eapply tracks_trans; [exact Hc|]. by eapply read_tail.
    + unfold read in H. rewrite Ha, E in H. by injection H as <- <- <-.
  - intros fd buf addr count r s' H.
    destruct (file_op_allowed drv (world s)) eqn:Ha.
    2: { unfold write in H. cbn [world with_errno] in H. rewrite Ha in H.
         injection H as <- <-. apply tracks_with_errno. }
    eapply tracks_trans; [apply (tracks_with_errno E_OK s)|].
    destruct (CHECK_REMOUNT drv (with_errno E_OK s)) as [[|] s1] eqn:E;
      cbn [snd] in Hcw.
    + eapply tracks_trans; [exact Hcw|]. by eapply write_tail.
    + unfold write in H. cbn [world with_errno] in H. rewrite Ha, E in H.
      by injection H as <- <-.
  - intros name buf.
    destruct (file_op_allowed drv (world s)) eqn:Ha;
      [|unfold stat; rewrite Ha; apply tracks_refl].
    destruct (CHECK_REMOUNT drv s) as [[|] s1] eqn:E; cbn [snd] in Hc.
    + eapply tracks_trans; [exact Hc|]. by apply stat_tail.
    + unfold stat. by rewrite Ha, E.
  - intros pathdir.
    destruct (file_op_allowed drv (world s)) eqn:Ha;
      [|unfold opendir; rewrite Ha; apply tracks_refl].
    destruct (CHECK_REMOUNT drv s) as [[|] s1] eqn:E; cbn [snd] in Hc.
    + eapply tracks_trans; [exact Hc|]. by apply opendir_tail.
    + unfold opendir. by rewrite Ha, E.
Qed.

(** *** The entry check when the restart succeeds *)

Lemma remount_file_system_errno (s : state) :
  errno (snd (remount_file_system drv s)) = errno s.
Proof.
  unfold remount_file_system, call_sdcard_retry.
  assert (H0 : errno (if remount_needed s then s else call_sdcard_stop drv s)
               = errno s) by by destruct (remount_needed s).
  revert H0. generalize (if remount_needed s then s else call_sdcard_stop drv s).
  intros s0 H0. destruct (sdcard_retry drv (world s0)) as [ok w1].
  destruct ok; cbn [negb snd]; [|done].
  match goal with |- context [foldl ?f ?s1 ?l] =>
    destruct (reopen_all_frame drv l s1) as (_ & _ & _ & _ & _ & -> & _) end.
  done.
Qed.

Lemma entry_recovers (s : state) (w1 : W) :
  remount_needed s = true ->
  sdcard_retry drv (world s) = (true, w1) ->
  let s1 := snd (remount_file_system drv s) in
  CHECK_REMOUNT drv s = (true, s1) /\
  remount_needed s1 = false /\
  exists evs, trace s1 = trace s ++ EvSdcardRetry true :: evs.
Proof.
  intros Hn Hr s1.
  assert (Hok : fst (remount_file_system drv s) = true).
  { unfold remount_file_system, call_sdcard_retry. rewrite Hn, Hr. reflexivity. }
  pose proof (remount_file_system_flag drv s) as Hf. fold s1 in Hf.
  rewrite Hok in Hf. cbn [negb] in Hf.
  assert (E : remount_file_system drv s = (true, s1)).
  { subst s1. destruct (remount_file_system drv s) as [ok s2].
    cbn [fst snd] in *. by subst ok. }
  split; [unfold CHECK_REMOUNT; by rewrite Hn, E|]. split; [done|].
  destruct (remount_success_inv drv s s1 E) as (s0 & w1' & Hs0 & _ & Hs1).
  rewrite Hn in Hs0. subst s0.
  match type of Hs1 with _ = foldl ?f ?s2 ?l =>
    destruct (reopen_all_frame drv l s2) as (evs & Hext & _) end.
  rewrite <- Hs1 in Hext. unfold extends in Hext. cbn [trace with_remount log] in Hext.
  exists evs. by rewrite Hext, <- app_assoc.
Qed.

Lemma with_errno_same (e : errno_t) (s : state) :
  errno s = e -> with_errno e s = s.
Proof. intros <-. by destruct s. Qed.

(** Past a successful entry check an operation does what it does on the
    recovered state. *)
Lemma operations_resume (s s1 : state) :
  file_op_allowed drv (world s) = true ->
  CHECK_REMOUNT drv s = (true, s1) ->
  file_op_allowed drv (world s1) = true ->
  remount_needed s1 = false ->
  (forall p flags abs, open drv p flags abs s = open drv p flags abs s1) /\
  (forall fd buf addr count,
      read drv fd buf addr count s = read drv fd buf addr count s1) /\
  (forall name buf, stat drv name buf s = stat drv name buf s1) /\
  (forall pathdir, opendir drv pathdir s = opendir drv pathdir s1).
Proof.
  intros Ha Hc Ha1 Hn1.
  pose proof (CHECK_REMOUNT_not_needed drv s1 Hn1) as Hc1.
  repeat split; intros.
  - unfold open. by rewrite Ha, Hc, Ha1, Hc1.
  - unfold read. by rewrite Ha, Hc, Ha1, Hc1.
  - unfold stat. by rewrite Ha, Hc, Ha1, Hc1.
  - unfold opendir. by rewrite Ha, Hc, Ha1, Hc1.
Qed.

Lemma write_resumes (s s1 : state) (fd : Z) (buf : list byte) (addr count : Z) :
  file_op_allowed drv (world s) = true ->
  CHECK_REMOUNT drv (with_errno E_OK s) = (true, s1) ->
  file_op_allowed drv (world s1) = true ->
  remount_needed s1 = false ->
  errno s1 = E_OK ->
  write drv fd buf addr count s = write drv fd buf addr count s1.
Proof.
  intros Ha Hc Ha1 Hn1 He1.
  pose proof (CHECK_REMOUNT_not_needed drv s1 Hn1) as Hc1.
  unfold write. rewrite (with_errno_same E_OK s1 He1).
  cbn [world with_errno]. by rewrite Ha, Hc, Ha1, Hc1.
Qed.

(** *** A disk error reported to stat, opendir, open or write *)

Lemma call_f_stat_trace (p : string) (s : state) :
  trace (snd (call_f_stat drv p s))
  = trace s ++ [EvStat p (fst (fst (call_f_stat drv p s)))].
Proof. unfold call_f_stat. by destruct (f_stat drv p (world s)) as [[res info] w]. Qed.

Lemma call_f_opendir_trace (p : string) (s : state) :
  trace (snd (call_f_opendir drv p s))
  = trace s ++ [EvOpendir p (fst (fst (call_f_opendir drv p s)))].
Proof.
  unfold call_f_opendir. by destruct (f_opendir drv p (world s)) as [[res d] w].
Qed.

Lemma call_f_open_trace (fh : nat) (p : string) (mode : Z) (s : state) :
  trace (snd (call_f_open drv fh p mode s))
  = trace s ++ [EvOpen fh (slot_fobj fh s) p mode (fst (call_f_open drv fh p mode s))].
Proof.
  unfold call_f_open. destruct (f_open drv _ _ _ _) as [[res fil'] w]. cbn.
  by destruct (set_slot_fobj_fields fh fil' s) as (_ & _ & _ & _ & -> & _).
Qed.

Lemma stat_on_disk_error (s : state) (name : string) (buf : stat_t) :
  file_op_allowed drv (world s) = true ->
  remount_needed s = false ->
  String.eqb name "/" || String.eqb name "." = false ->
  let c := call_f_stat drv name (with_errno E_OK s) in
  fst (fst c) = FR_DISK_ERR ->
  on_disk_error drv false (with_errno EIO)
    (fun e => exists res, e = EvStat name res)
    (snd c) (snd (stat drv name buf s)) (fst (stat drv name buf s) = (-1, buf)).
Proof.
  intros Ha Hn Hroot c Hres. subst c. unfold stat, on_disk_error.
  rewrite Ha, (CHECK_REMOUNT_not_needed drv s Hn). cbn [negb]. rewrite Hroot.
  destruct (call_f_stat drv name (with_errno E_OK s)) as [[res info] s1].
  cbn [fst snd] in *. subst res. rewrite Z.eqb_refl. cbn [andb].
  destruct (RETRY_ALLOWED drv s1); [|by split].
  destruct (remount_file_system drv s1) as [ok s2]. cbn [fst snd].
  destruct ok; [|by split].
  pose proof (call_f_stat_trace name s2) as Htr.
  destruct (call_f_stat drv name s2) as [[res2 info2] s3]. cbn [fst snd] in Htr.
  exists (EvStat name res2), []. split; [by eexists|].
  by destruct (res2 =? FR_OK).
Qed.

Lemma opendir_on_disk_error (s sa : state) (pathdir : string) :
  file_op_allowed drv (world s) = true ->
  remount_needed s = false ->
  alloc (new_DIR_Wrapper_ok drv) s = (true, sa) ->
  let c := call_f_opendir drv pathdir sa in
  fst (fst c) = FR_DISK_ERR ->
  on_disk_error drv false (with_errno EIO)
    (fun e => exists res, e = EvOpendir pathdir res)
    (snd c) (snd (opendir drv pathdir s)) (fst (opendir drv pathdir s) = None).
Proof.
  intros Ha Hn Hal c Hres. subst c. unfold opendir, on_disk_error.
  rewrite Ha, (CHECK_REMOUNT_not_needed drv s Hn). cbn [negb]. rewrite Hal.
  cbn [negb].
  destruct (call_f_opendir drv pathdir sa) as [[res d0] s1].
  cbn [fst snd] in *. subst res. rewrite Z.eqb_refl. cbn [andb].
  destruct (RETRY_ALLOWED drv s1); [|by split].
  destruct (remount_file_system drv s1) as [ok s2]. cbn [fst snd].
  destruct ok; [|by split].
  pose proof (call_f_opendir_trace pathdir s2) as Htr.
  destruct (call_f_opendir drv pathdir s2) as [[res2 d2] s3]. cbn [fst snd] in Htr.
  exists (EvOpendir pathdir res2), []. split; [by eexists|].
  by destruct (res2 =? FR_OK).
Qed.

Lemma open_on_disk_error (s sa : state) (p : string) (flags : Z) (abs : bool)
  (fileno : Z) :
  file_op_allowed drv (world s) = true ->
  remount_needed s = false ->
  new_file_descriptor drv p (with_errno E_OK s) = (fileno, sa) ->
  0 <= fileno ->
  let c := call_f_open drv (Z.to_nat fileno) p (open_mode flags) sa in
  fst c = FR_DISK_ERR ->
  on_disk_error drv true
    (fun t => free_file_descriptor fileno (with_errno EIO t))
    (fun e => exists fil res,
                e = EvOpen (Z.to_nat fileno) fil p (open_mode flags) res)
    (snd c) (snd (open drv p flags abs s)) (fst (open drv p flags abs s) = -1).
Proof.
  intros Ha Hn Hnf Hfd c Hres. subst c. unfold open, on_disk_error.
  rewrite Ha, (CHECK_REMOUNT_not_needed drv s Hn). cbn [negb]. cbv zeta.
  rewrite Hnf.
  assert ((fileno <? 0) = false) as -> by (apply Z.ltb_ge; lia).
  set (modes := if Z.land flags O_CREAT =? 0 then _ else _).
  change (Z.land modes 255) with (open_mode flags). clear modes.
  destruct (call_f_open drv (Z.to_nat fileno) p (open_mode flags) sa)
    as [res s1].
  cbn [fst snd] in *. subst res. rewrite Z.eqb_refl. cbn [andb].
  destruct (RETRY_ALLOWED drv s1); [|by split].
  destruct (remount_file_system drv (call_delay drv 100 s1)) as [ok s2].
  cbn [fst snd]. destruct ok; [|by split].
  pose proof (call_f_open_trace (Z.to_nat fileno) p (open_mode flags) s2) as Htr.
  destruct (call_f_open drv (Z.to_nat fileno) p (open_mode flags) s2)
    as [res5 s5]. cbn [fst snd] in Htr.
  match goal with |- context [extends s2 (snd ?blk)] =>
    assert (Ht : tracks s5 (snd blk)) end.
  { destruct (res5 =? FR_OK); cbn [negb snd].
    2: { eapply tracks_trans; [apply tracks_with_errno|].
         apply tracks_free_file_descriptor. }
    destruct (Z.land flags O_APPEND =? 0); [apply tracks_refl|].
    match goal with |- context [call_f_lseek drv ?a ?b ?c] =>
      pose proof (tracks_call_f_lseek a b c) as H;
      destruct (call_f_lseek drv a b c) as [res6 s6] end.
    cbn [snd] in H. eapply tracks_trans; [exact H|]; clear H.
    destruct (res6 =? FR_OK); cbn [negb snd]; [apply tracks_refl|].
    eapply tracks_trans; [apply tracks_with_errno|].
    match goal with |- context [call_f_close drv ?a ?b] =>
      pose proof (tracks_call_f_close a b) as H;
      destruct (call_f_close drv a b) as [res7 s7] end.
    cbn [snd] in H. eapply tracks_trans; [exact H|]; clear H.
    apply tracks_free_file_descriptor. }
  destruct Ht as (rest & Hext & _).
  eexists _, rest. split; [by eexists _, _|].
  unfold extends in *. by rewrite Hext, Htr, <- app_assoc.
Qed.

Lemma write_on_disk_error (s s0 : state) (fd : Z) (buf : list byte)
  (addr count : Z) (fh : nat) :
  file_op_allowed drv (world s) = true ->
  remount_needed s = false ->
  0 < count < 2^32 ->
  fileno_to_fatfs fd (with_errno E_OK s) = (Some fh, s0) ->
  let n := want drv addr count 0 count in
  let c := call_f_write drv fh (take (Z.to_nat n) buf) n s0 in
  fst (fst c) = FR_DISK_ERR ->
  exists r s',
    write drv fd buf addr count s = Some (r, s') /\
    on_disk_error drv true (with_errno EIO)
      (fun e => exists res size, e = EvWrite fh n res size)
      (snd c) s' (r = -1).
Proof.
  intros Ha Hn Hc Hf n c Hres. unfold write, on_disk_error.
  cbn [world with_errno].
  rewrite Ha, (CHECK_REMOUNT_not_needed drv (with_errno E_OK s) Hn), Hf.
  cbn [negb write_loop]. unfold write_chunk.
  destruct (want_range drv addr count 0 count) as [Hn0 _]; [lia|]. fold n in Hn0.
  match goal with |- context [call_f_write drv fh ?d ?m s0] =>
    change (call_f_write drv fh d m s0) with c;
    change m with n end.
  clearbody c. destruct c as [[res size] s1]. cbn [fst snd] in *. subst res.
  rewrite Z.eqb_refl. cbn [andb].
  assert (Hfail : forall t : state,
    (if (n <? size) || (size =? 0) then Some (-1, with_errno EIO t)
     else if negb (FR_DISK_ERR =? FR_OK) || (n <? size)
          then Some (-1, with_errno (fatfs_to_errno FR_DISK_ERR) t)
          else @None (Z * state)) = Some (-1, with_errno EIO t))
    by (intros t; by destruct (_ || _)).
  destruct (RETRY_ALLOWED drv s1).
  2: { exists (-1), (with_errno EIO s1). split; [|done].
       destruct ((n <? size) || (size =? 0)); [done|]. done. }
  destruct (remount_file_system drv (call_delay drv 100 s1)) as [ok s2].
  cbn [fst snd]. destruct ok.
  2: { exists (-1), (with_errno EIO s2). split; [|done].
       destruct ((n <? size) || (size =? 0)); [done|]. done. }
  clear Hfail.
  match goal with |- context [call_f_write drv fh ?d n s2] =>
    destruct (call_f_write_spec drv fh d n s2) as [Hsz Hev];
    destruct (call_f_write drv fh d n s2) as [[res3 size3] s3] end.
  cbn [fst snd] in Hsz, Hev.
  assert (Hdone : forall (r : Z) (s' : state),
    trace s' = trace s3 ->
    exists r0 s'0,
      Some (r, s') = Some (r0, s'0) /\
      exists e rest,
        (exists res size0, e = EvWrite fh n res size0) /\
        extends s2 s'0 (e :: rest)).
  { intros r s' Htr. exists r, s'. split; [done|].
    exists (EvWrite fh n res3 size3), []. split; [by eexists _, _|].
    unfold extends in *. by rewrite Htr. }
  destruct ((n <? size3) || (size3 =? 0)) eqn:Hbad; [by apply Hdone|].
  apply orb_false_iff in Hbad as [Hle Hnz].
  apply Z.ltb_ge in Hle. apply Z.eqb_neq in Hnz.
  destruct (negb (res3 =? FR_OK) || (n <? size3)); [by apply Hdone|].
  destruct (size3 <? n) eqn:Hshort; [by apply Hdone|].
  apply Z.ltb_ge in Hshort.
  destruct (0 <? u32 (count - size3)) eqn:Hmore; [|by apply Hdone].
  apply Z.ltb_lt in Hmore.
  assert (size3 = n) as -> by lia.
  rewrite (u32_small (count - n)) in * by lia.
  destruct (write_loop_run drv fh buf addr count (Z.to_nat count)
              (0 + n) (count - n) (u32 (0 + n)) s3)
    as (r & s' & chunks & evss & Hloop & Htr & _);
    try (rewrite ?u32_small by lia; lia).
  exists r, s'. split; [exact Hloop|].
  exists (EvWrite fh n res3 n), (concat evss). split; [by eexists _, _|].
  unfold extends in *. by rewrite Htr, Hev, <- app_assoc.
Qed.

(** *** read makes no recovery attempt *)

Lemma read_loop_quiet (fh : nat) (addr count : Z) (fuel : nat) :
  forall (cur bytes total : Z) (buf : list byte) (s : state) r buf' s',
    read_loop drv fuel fh addr count cur bytes total buf s = Some (r, buf', s') ->
    remount_needed s' = remount_needed s /\
    exists evs, extends s s' evs /\
                Forall (fun e => exists n res size, e = EvRead fh n res size) evs.
Proof.
  induction fuel as [|fuel IH]; intros cur bytes total buf s r buf' s' H;
    [done|].
  cbn [read_loop] in H.
  match type of H with context [call_f_read drv ?a ?b ?c] =>
    assert (Hc : remount_needed (snd (call_f_read drv a b c)) = remount_needed s /\
                 extends s (snd (call_f_read drv a b c))
                   [EvRead fh b (fst (fst (fst (call_f_read drv a b c))))
                      (snd (fst (fst (call_f_read drv a b c))))]);
    [|destruct (call_f_read drv a b c) as [[[res size] data] s1]] end.
  { split; [|apply call_f_read_spec].
    unfold call_f_read. destruct (f_read drv _ _ _) as [[[[res size] data] fil'] w].
    cbn. by destruct (set_slot_fobj_fields fh fil' s) as (-> & _). }
  cbn [fst snd] in Hc. destruct Hc as [Hfl Hev].
  assert (Hone : forall s0 : state,
    trace s0 = trace s1 -> remount_needed s0 = remount_needed s1 ->
    remount_needed s0 = remount_needed s /\
    exists evs, extends s s0 evs /\
                Forall (fun e => exists n res size, e = EvRead fh n res size) evs).
  { intros s0 Ht Hf. split; [congruence|]. eexists. split.
    - unfold extends in *. rewrite Ht. exact Hev.
    - repeat constructor. by eexists _, _, _. }
  destruct (res =? FR_OK); cbn [negb] in H;
    [|injection H as <- <- <-; by apply Hone].
  destruct (size =? 0); [injection H as <- <- <-; by apply Hone|].
  destruct (_ <? size); [injection H as <- <- <-; by apply Hone|].
  destruct (size <? _); [injection H as <- <- <-; by apply Hone|].
  destruct (0 <? u32 (bytes - size)); [|injection H as <- <- <-; by apply Hone].
  destruct (IH _ _ _ _ _ _ _ _ H) as (Hf2 & evs & He2 & Hall).
  split; [congruence|]. eexists. split.
  - eapply extends_trans; [exact Hev|exact He2].
  - constructor; [by eexists _, _, _|done].
Qed.

(** Started on a volume that needs no remount, [read] calls [f_read]
    and nothing else, and leaves the flag clear, whatever [f_read]
    returns. *)
Lemma read_makes_no_recovery (s : state) (fd : Z) (buf : list byte)
  (addr count : Z) r buf' s' :
  remount_needed s = false ->
  read drv fd buf addr count s = Some (r, buf', s') ->
  remount_needed s' = false /\
  exists evs,
    extends s s' evs /\
    Forall (fun e => exists n res size, e = EvRead (Z.to_nat fd) n res size) evs.
Proof.
  intros Hn H. unfold read in H.
  assert (Hsame : forall s0 : state,
    trace s0 = trace s -> remount_needed s0 = remount_needed s ->
    remount_needed s0 = false /\
    exists evs,
      extends s s0 evs /\
      Forall (fun e => exists n res size, e = EvRead (Z.to_nat fd) n res size) evs).
  { intros s0 Ht Hf. split; [congruence|]. exists []. split; [|constructor].
    unfold extends. by rewrite app_nil_r. }
  destruct (file_op_allowed drv (world s)); cbn [negb] in H;
    [|injection H as <- <- <-; by apply Hsame].
  rewrite (CHECK_REMOUNT_not_needed drv s Hn) in H. cbn [negb] in H.
  pose proof (fileno_to_fatfs_state fd (with_errno E_OK s)) as Hf.
  destruct (fileno_to_fatfs fd (with_errno E_OK s)) as [[fh|] s2].
  - destruct Hf as (-> & -> & _).
    destruct (read_loop_quiet _ _ _ _ _ _ _ _ _ _ _ _ H) as (Hf2 & evs & He & Hall).
    split; [by rewrite Hf2|]. by exists evs.
  - injection H as <- <- <-. subst s2. by apply Hsame.
Qed.

(** C1 (amended).  The flag [remount_needed] is written by recovery
    attempts only: after [remount_file_system] it is true exactly when
    the restart of the media session failed, and [open], [read], [write],
    [stat] and [opendir] leave it at what the last restart they made
    says, or as it was when they made none; [close] never changes it.  A
    result code does not set it: [read] on a volume that needs no remount
    calls [f_read] and nothing else and returns with the flag clear.  In
    an operation that is allowed to run on a volume that needs no
    remount, when the first backend call of [stat] (on a name other than
    the root), [opendir], [open] or [write] returns [FR_DISK_ERR], the
    operation attempts recovery at once if [RETRY_ALLOWED] holds, after a
    delay of 100 ms in [open] and [write]: when the restart fails the
    operation returns its failure value with [errno = EIO], the flag now
    set, and when it succeeds the backend call is made once more; if
    [RETRY_ALLOWED] does not hold the operation fails with [EIO] and no
    recovery is attempted.  While the flag is set, each of the five
    operations, once allowed to run, starts with a recovery attempt, the
    restart of the media session being its first call.  When the restart
    fails the operation returns its failure value with [errno = EIO], the
    flag stays set, the table is as it was, and the restart is the only
    call made: no FatFs call is attempted.  When it succeeds the flag is
    cleared, the operation's own calls come after those of the recovery,
    and the operation returns what it returns on the recovered state,
    where it is allowed to run on that state. *)
Theorem remount_checked_at_entry :
  (forall s : state,
      remount_needed (snd (remount_file_system drv s))
      = negb (fst (remount_file_system drv s)) /\
      (forall p flags abs, tracks s (snd (open drv p flags abs s))) /\
      (forall fd buf addr count r buf' s',
          read drv fd buf addr count s = Some (r, buf', s') -> tracks s s') /\
      (forall fd buf addr count r s',
          write drv fd buf addr count s = Some (r, s') -> tracks s s') /\
      (forall name buf, tracks s (snd (stat drv name buf s))) /\
      (forall pathdir, tracks s (snd (opendir drv pathdir s))) /\
      (forall fd, remount_needed (snd (close drv fd s)) = remount_needed s)) /\
  (forall (s : state) fd buf addr count r buf' s',
      remount_needed s = false ->
      read drv fd buf addr count s = Some (r, buf', s') ->
      remount_needed s' = false /\
      exists evs,
        extends s s' evs /\
        Forall (fun e => exists n res size,
                           e = EvRead (Z.to_nat fd) n res size) evs) /\
  (forall (s : state) (name : string) (buf : stat_t),
      file_op_allowed drv (world s) = true ->
      remount_needed s = false ->
      String.eqb name "/" || String.eqb name "." = false ->
      let c := call_f_stat drv name (with_errno E_OK s) in
      fst (fst c) = FR_DISK_ERR ->
      on_disk_error drv false (with_errno EIO)
        (fun e => exists res, e = EvStat name res)
        (snd c) (snd (stat drv name buf s))
        (fst (stat drv name buf s) = (-1, buf))) /\
  (forall (s sa : state) (pathdir : string),
      file_op_allowed drv (world s) = true ->
      remount_needed s = false ->
      alloc (new_DIR_Wrapper_ok drv) s = (true, sa) ->
      let c := call_f_opendir drv pathdir sa in
      fst (fst c) = FR_DISK_ERR ->
      on_disk_error drv false (with_errno EIO)
        (fun e => exists res, e = EvOpendir pathdir res)
        (snd c) (snd (opendir drv pathdir s))
        (fst (opendir drv pathdir s) = None)) /\
  (forall (s sa : state) (p : string) (flags : Z) (abs : bool) (fileno : Z),
      file_op_allowed drv (world s) = true ->
      remount_needed s = false ->
      new_file_descriptor drv p (with_errno E_OK s) = (fileno, sa) ->
      0 <= fileno ->
      let c := call_f_open drv (Z.to_nat fileno) p (open_mode flags) sa in
      fst c = FR_DISK_ERR ->
      on_disk_error drv true
        (fun t => free_file_descriptor fileno (with_errno EIO t))
        (fun e => exists fil res,
                    e = EvOpen (Z.to_nat fileno) fil p (open_mode flags) res)
        (snd c) (snd (open drv p flags abs s))
        (fst (open drv p flags abs s) = -1)) /\
  (forall (s s0 : state) (fd : Z) (buf : list byte) (addr count : Z) (fh : nat),
      file_op_allowed drv (world s) = true ->
      remount_needed s = false ->
      0 < count < 2^32 ->
      fileno_to_fatfs fd (with_errno E_OK s) = (Some fh, s0) ->
      let n := want drv addr count 0 count in
      let c := call_f_write drv fh (take (Z.to_nat n) buf) n s0 in
      fst (fst c) = FR_DISK_ERR ->
      exists r s',
        write drv fd buf addr count s = Some (r, s') /\
        on_disk_error drv true (with_errno EIO)
          (fun e => exists res size, e = EvWrite fh n res size)
          (snd c) s' (r = -1)) /\
  (forall (s : state) (w1 : W),
      file_op_allowed drv (world s) = true ->
      remount_needed s = true ->
      (sdcard_retry drv (world s) = (false, w1) ->
       let s' := mkState true (file_table s) (format_status s) EIO w1
                         (trace s ++ [EvSdcardRetry false]) in
       (forall pathname flags abs, open drv pathname flags abs s = (-1, s')) /\
       (forall fd buf addr count,
           read drv fd buf addr count s = Some (-1, buf, s')) /\
       (forall fd buf addr count, write drv fd buf addr count s = Some (-1, s')) /\
       (forall name buf, stat drv name buf s = (-1, buf, s')) /\
       (forall pathdir, opendir drv pathdir s = (None, s'))) /\
      (sdcard_retry drv (world s) = (true, w1) ->
       let s1 := snd (remount_file_system drv s) in
       let s1w := snd (remount_file_system drv (with_errno E_OK s)) in
       fst (remount_file_system drv s) = true /\
       remount_needed s1 = false /\
       (exists evs, trace s1 = trace s ++ EvSdcardRetry true :: evs) /\
       (exists evs, trace s1w = trace s ++ EvSdcardRetry true :: evs) /\
       (forall p flags abs,
           exists rest, extends s1 (snd (open drv p flags abs s)) rest) /\
       (forall fd buf addr count r buf' s',
           read drv fd buf addr count s = Some (r, buf', s') ->
           exists rest, extends s1 s' rest) /\
       (forall fd buf addr count r s',
           write drv fd buf addr count s = Some (r, s') ->
           exists rest, extends s1w s' rest) /\
       (forall name buf, exists rest, extends s1 (snd (stat drv name buf s)) rest) /\
       (forall pathdir,
           exists rest, extends s1 (snd (opendir drv pathdir s)) rest) /\
       (file_op_allowed drv (world s1) = true ->
        (forall p flags abs, open drv p flags abs s = open drv p flags abs s1) /\
        (forall fd buf addr count,
            read drv fd buf addr count s = read drv fd buf addr count s1) /\
        (forall name buf, stat drv name buf s = stat drv name buf s1) /\
        (forall pathdir, opendir drv pathdir s = opendir drv pathdir s1)) /\
       (file_op_allowed drv (world s1w) = true ->
        forall fd buf addr count,
          write drv fd buf addr count s = write drv fd buf addr count s1w))).
Proof.
  split.
  { intros s. split; [apply remount_file_system_flag|].
    destruct (operations_track s) as (H1 & H2 & H3 & H4 & H5).
    repeat (split; [done|]). intros fd. apply close_spec. }
  split; [intros; by eapply read_makes_no_recovery|].
  split; [intros; by apply stat_on_disk_error|].
  split; [intros; by apply opendir_on_disk_error|].
  split; [intros; by eapply open_on_disk_error|].
  split; [intros; by apply write_on_disk_error|].
  intros s w1 Ha Hn. split.
  - intros Hr s'.
    pose proof (CHECK_REMOUNT_fails drv s w1 Hn Hr) as Hc. fold s' in Hc.
    repeat split; intros.
    + unfold open. by rewrite Ha, Hc.
    + unfold read. by rewrite Ha, Hc.
    + unfold write. cbn [world with_errno]. rewrite Ha. cbn [negb].
      rewrite (CHECK_REMOUNT_fails drv (with_errno E_OK s) w1 Hn Hr). reflexivity.
    + unfold stat. by rewrite Ha, Hc.
    + unfold opendir. by rewrite Ha, Hc.
  - intros Hr s1 s1w.
    destruct (entry_recovers s w1 Hn Hr) as (Hc & Hn1 & Htr). fold s1 in Hc, Hn1, Htr.
    destruct (entry_recovers (with_errno E_OK s) w1 Hn Hr) as (Hcw & Hnw & Htrw).
    fold s1w in Hcw, Hnw, Htrw.
    split.
    { unfold remount_file_system, call_sdcard_retry. rewrite Hn, Hr. reflexivity. }
    split; [done|]. split; [done|]. split; [done|].
    split.
    { intros p flags abs. destruct (open_tail p flags abs s s1 Ha Hc) as (rest & H & _).
      by exists rest. }
    split.
    { intros fd buf addr count r buf' s' H.
      destruct (read_tail fd buf addr count s s1 r buf' s' Ha Hc H) as (rest & H' & _).
      by exists rest. }
    split.
    { intros fd buf addr count r s' H.
      destruct (write_tail fd buf addr count s s1w r s' Ha Hcw H) as (rest & H' & _).
      by exists rest. }
    split.
    { intros name buf. destruct (stat_tail name buf s s1 Ha Hc) as (rest & H & _).
      by exists rest. }
    split.
    { intros pathdir. destruct (opendir_tail pathdir s s1 Ha Hc) as (rest & H & _).
      by exists rest. }
    split.
    { intros Ha1. by apply operations_resume. }
    intros Ha1 fd buf addr count. apply write_resumes; try done.
    subst s1w. by rewrite remount_file_system_errno.
Qed.

End RemountFlag.

Lemma remount_checked_at_entry_witness :
  (let s := Script.all_open true Script.card_gone in
   FATFS.read Script.driver 3 [x01; x02] 0 2 s
   = Some (-1, [x01; x02],
           FATFS.mkState true (FATFS.file_table s) IDLE EIO
             (Script.mkWorld true false false true [false] [] [] [] [] [])
             [FATFS.EvSdcardRetry false])) /\
  (let s := Script.all_open true Script.calm in
   FATFS.remount_needed (snd (FATFS.remount_file_system Script.driver s)) = false /\
   FATFS.stat Script.driver "a.txt" (FATFS.mkstat 0 0 0 0 0 0 0) s
   = FATFS.stat Script.driver "a.txt" (FATFS.mkstat 0 0 0 0 0 0 0)
       (snd (FATFS.remount_file_system Script.driver s))) /\
  (exists s',
      FATFS.write Script.driver 0 (replicate 8 x01) 0 8
        (Script.one_open Script.write_error_card_gone) = Some (-1, s') /\
      FATFS.remount_needed s' = true /\ FATFS.errno s' = EIO) /\
  (let out := FATFS.stat Script.driver_lost "a.txt" (FATFS.mkstat 0 0 0 0 0 0 0)
                (FATFS.init_state Script.card_gone) in
   fst out = (-1, FATFS.mkstat 0 0 0 0 0 0 0) /\
   FATFS.remount_needed (snd out) = true /\ FATFS.errno (snd out) = EIO /\
   FATFS.trace (snd out)
   = [FATFS.EvStat "a.txt" FR_DISK_ERR; FATFS.EvSdcardStop;
      FATFS.EvSdcardRetry false]) /\
  (let out := FATFS.stat Script.driver_lost "a.txt" (FATFS.mkstat 0 0 0 0 0 0 0)
                (FATFS.init_state Script.calm) in
   exists res rest,
     FATFS.trace (snd out)
     = [FATFS.EvStat "a.txt" FR_DISK_ERR; FATFS.EvSdcardStop;
        FATFS.EvSdcardRetry true; FATFS.EvStat "a.txt" res] ++ rest) /\
  (let out := FATFS.opendir Script.driver_lost "logs"
                (FATFS.init_state Script.card_gone) in
   fst out = None /\
   FATFS.remount_needed (snd out) = true /\ FATFS.errno (snd out) = EIO) /\
  (let out := FATFS.open Script.driver "b.txt" O_RDONLY false
                (FATFS.init_state Script.open_error_card_gone) in
   fst out = -1 /\
   FATFS.remount_needed (snd out) = true /\ FATFS.errno (snd out) = EIO /\
   FATFS.file_table (snd out) = replicate FATFS.MAX_FILES None).
Proof.
  pose proof (remount_checked_at_entry Script.driver)
    as (_ & _ & _ & _ & Ho & Hw & He).
  pose proof (remount_checked_at_entry Script.driver_lost)
    as (_ & _ & Hs & Hd & _).
  split; [|split; [|split; [|split; [|split; [|split]]]]].
  - cbv zeta.
    destruct (He (Script.all_open true Script.card_gone)
                (Script.mkWorld true false false true [false] [] [] [] [] [])
                eq_refl eq_refl) as ((_ & H & _) & _); [reflexivity|].
    exact (H 3 [x01; x02] 0 2).
  - cbv zeta.
    destruct (He (Script.all_open true Script.calm) Script.calm
                eq_refl eq_refl) as (_ & H).
    destruct (H eq_refl) as (_ & Hn & _ & _ & _ & _ & _ & _ & _ & Heq & _).
    split; [exact Hn|].
    destruct Heq as (_ & _ & Hst & _); [vm_compute; reflexivity|].
    apply Hst.
  - destruct (Hw (Script.one_open Script.write_error_card_gone)
                (Script.one_open Script.write_error_card_gone)
                0 (replicate 8 x01) 0 8 0%nat eq_refl eq_refl)
      as (r & s' & Hwr & H); [lia|reflexivity|reflexivity|].
    vm_compute in H. destruct H as [-> ->].
    eexists. split; [exact Hwr|]. split; reflexivity.
  - clear Ho Hw He Hd. cbv zeta.
    generalize (Hs (FATFS.init_state Script.card_gone) "a.txt"
                  (FATFS.mkstat 0 0 0 0 0 0 0) eq_refl eq_refl eq_refl eq_refl).
    generalize (FATFS.stat Script.driver_lost "a.txt" (FATFS.mkstat 0 0 0 0 0 0 0)
                  (FATFS.init_state Script.card_gone)).
    clear Hs. intros [[r b] s']. vm_compute. intros [H1 ->].
    split; [exact H1|]. repeat split.
  - clear Ho Hw He Hd. cbv zeta.
    generalize (Hs (FATFS.init_state Script.calm) "a.txt"
                  (FATFS.mkstat 0 0 0 0 0 0 0) eq_refl eq_refl eq_refl eq_refl).
    generalize (FATFS.stat Script.driver_lost "a.txt" (FATFS.mkstat 0 0 0 0 0 0 0)
                  (FATFS.init_state Script.calm)).
    clear Hs. intros [[r b] s']. vm_compute.
    intros (e & rest & (res & ->) & H). exists res, rest. exact H.
  - clear Ho Hw He Hs. cbv zeta.
    generalize (Hd (FATFS.init_state Script.card_gone)
                  (FATFS.init_state Script.card_gone) "logs"
                  eq_refl eq_refl eq_refl eq_refl).
    generalize (FATFS.opendir Script.driver_lost "logs"
                  (FATFS.init_state Script.card_gone)).
    clear Hd. intros [r s']. vm_compute. intros [H1 ->].
    split; [exact H1|]. repeat split.
  - clear Hs Hw He Hd. cbv zeta.
    generalize (Ho (FATFS.init_state Script.open_error_card_gone)
                  (snd (FATFS.new_file_descriptor Script.driver "b.txt"
                     (FATFS.with_errno E_OK
                        (FATFS.init_state Script.open_error_card_gone))))
                  "b.txt" O_RDONLY false 0
                  ltac:(vm_compute; reflexivity) ltac:(vm_compute; reflexivity)
                  ltac:(vm_compute; reflexivity) ltac:(lia)
                  ltac:(vm_compute; reflexivity)).
    generalize (FATFS.open Script.driver "b.txt" O_RDONLY false
                  (FATFS.init_state Script.open_error_card_gone)).
    clear Ho. intros [r s']. vm_compute. intros [H1 ->].
    split; [exact H1|]. repeat split.
Defined.

(** C1, as stated, fails: a device-level error of [f_read] makes [read]
    return -1 with [errno = EIO] and leaves [remount_needed] false, and
    the next [read] goes straight to [f_read] with no recovery attempt. *)
Lemma device_error_leaves_flag_clear :
  let s := Script.one_open Script.read_error_once in
  exists buf1 s1 buf2 s2,
    FATFS.read Script.driver 0 [x00; x00; x00; x00] 0 4 s = Some (-1, buf1, s1) /\
    FATFS.errno s1 = EIO /\
    FATFS.trace s1 = [FATFS.EvRead 0 4 FR_DISK_ERR 0] /\
    FATFS.remount_needed s1 = false /\
    FATFS.read Script.driver 0 buf1 0 4 s1 = Some (4, buf2, s2) /\
    FATFS.trace s2 = [FATFS.EvRead 0 4 FR_DISK_ERR 0; FATFS.EvRead 0 4 FR_OK 4].
Proof.
  cbv zeta. do 4 eexists.
  split; [vm_compute; reflexivity|].
  repeat split; vm_compute; reflexivity.
Qed.

(** * Further properties of the FATFS backend *)

(** ** FAT timestamps *)

Section Timestamps.
Import FATFS.
Context {W : Type} (drv : Driver W) (ext : DriverMore W).

Lemma lor_disjoint_add (a c k : Z) :
  0 <= k -> a mod 2^k = 0 -> 0 <= c < 2^k -> Z.lor a c = a + c.
Proof.
  intros Hk Ha Hc. symmetry. apply Z.add_nocarry_lor.
  apply Z.bits_inj'. intros n Hn. rewrite Z.land_spec, Z.bits_0.
  destruct (Z.lt_ge_cases n k) as [Hlt|Hge].
  - assert (a = a / 2^k * 2^k) as ->.
    { pose proof (Z.div_mod a (2^k)) as Hd. rewrite Ha in Hd.
      assert (2^k <> 0) by (apply Z.pow_nonzero; lia). lia. }
    by rewrite Z.mul_pow2_bits_low.
  - destruct (Z.eq_dec c 0) as [->|Hnz]; [by rewrite Z.bits_0, andb_false_r|].
    rewrite (Z.bits_above_log2 c n), andb_false_r; [done|lia|].
    assert (Z.log2 c < k) by (apply Z.log2_lt_pow2; lia). lia.
Qed.

Lemma land_mask (x : Z) (n : Z) : 0 <= n -> Z.land x (2^n - 1) = x mod 2^n.
Proof.
  intros Hn. rewrite <- Z.land_ones by done. f_equal.
  rewrite Z.ones_equiv. lia.
Qed.

(** The date word: year since 1980 in bits 9 to 15, month in bits 5 to
    8, day in bits 0 to 4. *)
Lemma pack_date (y m d : Z) :
  0 <= y <= 127 -> 1 <= m <= 12 -> 0 <= d <= 31 ->
  Z.lor (Z.lor (Z.shiftl y 9) (Z.shiftl m 5)) d = y * 512 + m * 32 + d.
Proof.
  intros Hy Hm Hd. rewrite !Z.shiftl_mul_pow2 by lia.
  change (2^9) with 512. change (2^5) with 32.
  rewrite (lor_disjoint_add (y * 512) (m * 32) 9); [|lia| |lia].
  - apply (lor_disjoint_add _ _ 5); [lia| |lia].
    change (2^5) with 32. replace (y * 512 + m * 32) with ((y * 16 + m) * 32) by lia.
    apply Z.mod_mul. lia.
  - change (2^9) with 512. apply Z.mod_mul. lia.
Qed.

(** The time word: hour in bits 11 to 15, minute in bits 5 to 10, half
    the second in bits 0 to 4. *)
Lemma pack_time (h m s2 : Z) :
  0 <= h <= 23 -> 0 <= m <= 59 -> 0 <= s2 <= 30 ->
  Z.lor (Z.lor (Z.shiftl h 11) (Z.shiftl m 5)) s2 = h * 2048 + m * 32 + s2.
Proof.
  intros Hh Hm Hs. rewrite !Z.shiftl_mul_pow2 by lia.
  change (2^11) with 2048. change (2^5) with 32.
  rewrite (lor_disjoint_add (h * 2048) (m * 32) 11); [|lia| |lia].
  - apply (lor_disjoint_add _ _ 5); [lia| |lia].
    change (2^5) with 32. replace (h * 2048 + m * 32) with ((h * 64 + m) * 32) by lia.
    apply Z.mod_mul. lia.
  - change (2^11) with 2048. apply Z.mod_mul. lia.
Qed.

Lemma unpack_date (y m d : Z) :
  0 <= y <= 127 -> 1 <= m <= 12 -> 0 <= d <= 31 ->
  let date := y * 512 + m * 32 + d in
  Z.land date 31 = d /\
  Z.land (Z.shiftr date 5) 15 = m /\
  Z.land (Z.shiftr date 9) 127 = y.
Proof.
  intros Hy Hm Hd date.
  change 31 with (2^5 - 1). change 15 with (2^4 - 1). change 127 with (2^7 - 1).
  rewrite !land_mask, !Z.shiftr_div_pow2 by lia.
  change (2^5) with 32. change (2^4) with 16. change (2^7) with 128.
  change (2^9) with 512. unfold date.
  repeat split; Z.div_mod_to_equations; lia.
Qed.

Lemma unpack_time (h m s2 : Z) :
  0 <= h <= 23 -> 0 <= m <= 59 -> 0 <= s2 <= 30 ->
  let time := h * 2048 + m * 32 + s2 in
  Z.land (Z.shiftl time 1) 62 = 2 * s2 /\
  Z.land (Z.shiftr time 5) 63 = m /\
  Z.land (Z.shiftr time 11) 31 = h.
Proof.
  intros Hh Hm Hs time. split.
  - change 62 with (Z.shiftl 31 1). rewrite <- Z.shiftl_land.
    change 31 with (2^5 - 1). rewrite land_mask by lia.
    rewrite Z.shiftl_mul_pow2 by lia. change (2^5) with 32. change (2^1) with 2.
    unfold time. Z.div_mod_to_equations. lia.
  - change 63 with (2^6 - 1). change 31 with (2^5 - 1).
    rewrite !land_mask, !Z.shiftr_div_pow2 by lia.
    change (2^5) with 32. change (2^6) with 64. change (2^11) with 2048.
    unfold time. split; Z.div_mod_to_equations; lia.
Qed.

(** X1.  For a broken-down time between 1980 and 2107, the date and
    time words that [unix_time_to_fat] computes are 16-bit values, and
    [fat_time_to_unix] applied to them hands [ap_mktime] the same year,
    month, day, hour and minute, with the second rounded down to an even
    number. *)
Theorem fat_timestamp_round_trip (epoch : Z) :
  let t := gmtime_r ext epoch in
  fat_tm_range t ->
  let p := unix_time_to_fat ext epoch in
  0 <= fst p < 2^16 /\ 0 <= snd p < 2^16 /\
  fat_time_to_unix drv (fst p) (snd p)
  = ap_mktime drv (mktm (2 * (tm_sec t / 2)) (tm_min t) (tm_hour t)
                        (tm_mday t) (tm_mon t) (tm_year t)).
Proof.
  intros t (Hs & Hmi & Hh & Hd & Hmo & Hy) p. subst p.
  unfold unix_time_to_fat. fold t. cbn [fst snd].
  assert (Hu : forall x, 0 <= x < 2^16 -> u16 x = x)
    by (intros x Hx; unfold u16; by apply Z.mod_small).
  rewrite !(Hu (tm_year t - 80)), !(Hu (tm_mon t)), !(Hu (tm_mday t)),
    !(Hu (tm_hour t)), !(Hu (tm_min t)), !(Hu (tm_sec t)) by lia.
  rewrite Z.shiftr_div_pow2 by lia. change (2^1) with 2.
  assert (Hs2 : 0 <= tm_sec t / 2 <= 30) by (Z.div_mod_to_equations; lia).
  rewrite pack_date, pack_time by lia.
  rewrite !Hu by lia.
  split; [lia|]. split; [lia|].
  unfold fat_time_to_unix.
  destruct (unpack_date (tm_year t - 80) (tm_mon t + 1) (tm_mday t))
    as (-> & -> & ->); try lia.
  destruct (unpack_time (tm_hour t) (tm_min t) (tm_sec t / 2))
    as (-> & -> & ->); try lia.
  f_equal. f_equal; lia.
Qed.

End Timestamps.

Lemma fat_timestamp_round_trip_witness :
  FATFS.unix_time_to_fat Script.more 0 = (22937, 25071) /\
  FATFS.fat_time_to_unix Script.driver 22937 25071
  = FATFS.ap_mktime Script.driver (FATFS.mktm 30 15 12 25 11 124).
Proof.
  assert (Hr : FATFS.fat_tm_range (FATFS.gmtime_r Script.more 0))
    by (unfold FATFS.fat_tm_range; cbn; lia).
  destruct (fat_timestamp_round_trip Script.driver Script.more 0 Hr)
    as (_ & _ & H).
  split; [reflexivity|exact H].
Defined.

(** ** Handles *)

Section Handles.
Import FATFS.
Context {W : Type} (drv : Driver W) (ext : DriverMore W).

Abbreviation state := (fs_state W).

(** A descriptor that names no open file. *)
Lemma fileno_to_fatfs_invalid (fd : Z) (s : state) :
  fd < 0 \/ Z.of_nat MAX_FILES <= fd \/
  (forall f, file_table s !! Z.to_nat fd <> Some (Some f)) ->
  fileno_to_fatfs fd s = (None, with_errno EBADF s).
Proof.
  intros H. unfold fileno_to_fatfs, fileno_to_stream.
  destruct ((fd <? 0) || (Z.of_nat MAX_FILES <=? fd)) eqn:Hr; [done|].
  apply orb_false_iff in Hr as [H1 H2].
  apply Z.ltb_ge in H1. apply Z.leb_gt in H2.
  destruct H as [H|[H|H]]; [lia|lia|].
  destruct (file_table s !! Z.to_nat fd) as [[f|]|] eqn:Hl; try done.
  by destruct (H f).
Qed.

(** X2.  For an open descriptor [bytes_until_fsync] changes nothing.
    When file operations are allowed it returns a count between 1 and
    4096 that takes the file position to the next multiple of 4096:
    never 0, and a whole block when the position is on a boundary.  When
    they are not allowed it returns 0. *)
Theorem bytes_until_fsync_block_boundary (s : state) (fd : Z) (f : FAT_FILE) :
  0 <= fd < Z.of_nat MAX_FILES ->
  file_table s !! Z.to_nat fd = Some (Some f) ->
  let r := fst (bytes_until_fsync drv fd s) in
  snd (bytes_until_fsync drv fd s) = s /\
  if file_op_allowed drv (world s) then
    1 <= r <= MAX_IO_SIZE /\
    (fptr (fobj f) + r) mod MAX_IO_SIZE = 0 /\
    (fptr (fobj f) mod MAX_IO_SIZE = 0 -> r = MAX_IO_SIZE)
  else r = 0.
Proof.
  intros Hr Hf r. subst r. unfold bytes_until_fsync.
  destruct (file_op_allowed drv (world s)); cbn [negb fst snd]; [|done].
  rewrite (fileno_to_fatfs_valid fd f s Hr Hf).
  cbn [fst snd]. unfold slot_fobj. rewrite Hf. unfold MAX_IO_SIZE.
  split; [done|]. repeat split; Z.div_mod_to_equations; lia.
Qed.

(** [close] of an open descriptor. *)
Lemma close_valid (s : state) (fd : Z) (f : FAT_FILE) :
  file_op_allowed drv (world s) = true ->
  0 <= fd < Z.of_nat MAX_FILES ->
  file_table s !! Z.to_nat fd = Some (Some f) ->
  let res := fst (f_close drv (fobj f) (world s)) in
  let s' := snd (close drv fd s) in
  fst (close drv fd s) = (if res =? FR_OK then 0 else -1) /\
  file_table s' = <[Z.to_nat fd := None]> (file_table s) /\
  remount_needed s' = remount_needed s /\
  world s' = snd (f_close drv (fobj f) (world s)) /\
  trace s' = trace s ++ [EvClose (Z.to_nat fd) res] /\
  errno s' = (if res =? FR_OK then E_OK else fatfs_to_errno res).
Proof.
  intros Ha Hr Hf. cbv zeta. unfold close. rewrite Ha. cbn [negb].
  rewrite (fileno_to_fatfs_valid fd f (with_errno E_OK s) Hr Hf).
  unfold call_f_close, slot_fobj. cbn [file_table with_errno world].
  rewrite Hf. destruct (f_close drv (fobj f) (world s)) as [res w].
  unfold free_file_descriptor.
  match goal with |- context [fileno_to_stream fd ?st] =>
    change (fileno_to_stream fd st) with (fileno_to_fatfs fd st);
    rewrite (fileno_to_fatfs_valid fd f st Hr Hf) end.
  cbn [fst snd]. by destruct (res =? FR_OK).
Qed.

(** X3.  [close] of an open descriptor, when file operations are
    allowed, always frees its slot, also when [f_close] reports an error
    (the call then returns -1 with the translated error); no other slot
    changes.  When file operations are not allowed the call returns -1
    and changes nothing.  On a descriptor whose slot is free, [close]
    returns -1 and makes no backend call, with [EBADF] when file
    operations are allowed. *)
Theorem close_always_releases (s : state) (fd : Z) (f : FAT_FILE) :
  0 <= fd < Z.of_nat MAX_FILES ->
  file_table s !! Z.to_nat fd = Some (Some f) ->
  let s' := snd (close drv fd s) in
  (if file_op_allowed drv (world s) then
     file_table s' = <[Z.to_nat fd := None]> (file_table s) /\
     file_table s' !! Z.to_nat fd = Some None /\
     (fst (close drv fd s) = 0 <-> fst (f_close drv (fobj f) (world s)) = FR_OK) /\
     (fst (close drv fd s) = 0 \/ fst (close drv fd s) = -1)
   else close drv fd s = (-1, s)) /\
  forall s2 : state,
    file_table s2 !! Z.to_nat fd = Some None ->
    close drv fd s2
    = (-1, if file_op_allowed drv (world s2) then with_errno EBADF s2 else s2).
Proof.
  intros Hr Hf s'. split.
  - destruct (file_op_allowed drv (world s)) eqn:Ha.
    + destruct (close_valid s fd f Ha Hr Hf) as (Hret & Ht & _).
      fold s' in Ht.
      assert (Hfree : file_table s' !! Z.to_nat fd = Some None).
      { rewrite Ht. apply list_lookup_insert_eq. by eapply lookup_lt_Some. }
      split; [done|]. split; [done|]. split.
      * rewrite Hret.
        destruct (Z.eqb_spec (fst (f_close drv (fobj f) (world s))) FR_OK);
          split; intros; try done; lia.
      * rewrite Hret. destruct (_ =? _); auto.
    + unfold close. by rewrite Ha.
  - intros s2 Hfree. unfold close.
    destruct (file_op_allowed drv (world s2)); cbn [negb]; [|done].
    rewrite fileno_to_fatfs_invalid; [done|].
    right; right. intros g. cbn [file_table with_errno]. rewrite Hfree.
    discriminate.
Qed.

(** X4.  A descriptor that is out of range or names a free slot is
    refused before anything else happens: [close], [fsync], [write] and
    [read] return -1 and [bytes_until_fsync] returns 0, and the table,
    the world and the trace are as they were (for [read] and [write], on
    a volume that needs no remount).  When file operations are allowed
    [errno] is [EBADF], and [read] has zeroed the first byte of a
    non-empty buffer; when they are not allowed the calls are turned
    away before the descriptor is looked at, [errno] is left alone by all
    but [write], which has cleared it, and the buffer is untouched. *)
Theorem invalid_handle_is_refused (s : state) (fd : Z) (buf : list byte)
  (addr count : Z) :
  fd < 0 \/ Z.of_nat MAX_FILES <= fd \/
  (forall f, file_table s !! Z.to_nat fd <> Some (Some f)) ->
  let allowed := file_op_allowed drv (world s) in
  let s' := if allowed then with_errno EBADF s else s in
  close drv fd s = (-1, s') /\
  fsync drv ext fd s = (-1, s') /\
  bytes_until_fsync drv fd s = (0, s') /\
  (remount_needed s = false ->
   write drv fd buf addr count s
   = Some (-1, if allowed then with_errno EBADF s else with_errno E_OK s) /\
   read drv fd buf addr count s
   = Some (-1, if allowed && (0 <? count) then <[0%nat := x00]> buf else buf,
           s')).
Proof.
  intros Hbad allowed s'. subst allowed s'.
  assert (Hbad0 : fd < 0 \/ Z.of_nat MAX_FILES <= fd \/
    (forall f, file_table (with_errno E_OK s) !! Z.to_nat fd <> Some (Some f)))
    by exact Hbad.
  destruct (file_op_allowed drv (world s)) eqn:Ha.
  - cbn [andb]. split; [|split; [|split]].
    + unfold close. rewrite Ha. cbn [negb].
      by rewrite (fileno_to_fatfs_invalid fd (with_errno E_OK s) Hbad0).
    + unfold fsync. rewrite Ha. cbn [negb].
      by rewrite (fileno_to_fatfs_invalid fd (with_errno E_OK s) Hbad0).
    + unfold bytes_until_fsync. rewrite Ha. cbn [negb].
      by rewrite (fileno_to_fatfs_invalid fd s Hbad).
    + intros Hn. split.
      * unfold write. cbn [world with_errno]. rewrite Ha. cbn [negb].
        rewrite (CHECK_REMOUNT_not_needed drv (with_errno E_OK s) Hn). cbn [negb].
        by rewrite (fileno_to_fatfs_invalid fd (with_errno E_OK s) Hbad0).
      * unfold read. rewrite Ha. cbn [negb].
        rewrite (CHECK_REMOUNT_not_needed drv s Hn). cbn [negb].
        by rewrite (fileno_to_fatfs_invalid fd (with_errno E_OK s) Hbad0).
  - cbn [andb]. split; [|split; [|split]].
    + unfold close. by rewrite Ha.
    + unfold fsync. by rewrite Ha.
    + unfold bytes_until_fsync. by rewrite Ha.
    + intros _. split.
      * unfold write. cbn [world with_errno]. by rewrite Ha.
      * unfold read. by rewrite Ha.
Qed.

End Handles.

(** ** open and close together *)

Section OpenClose.
Import FATFS.
Context {W : Type} (drv : Driver W).

Abbreviation state := (fs_state W).

(** X5.  An [open] that fails leaves no slot behind: whichever way it
    fails (not allowed, failed remount, table full, out of memory,
    [f_open] or the seek to the end failing, with or without the retry
    after a remount), the same slots are occupied afterwards as before,
    and as many. *)
Theorem open_failure_leaves_no_slot (s : state) (p : string) (flags : Z)
  (abs : bool) :
  fst (open drv p flags abs s) < 0 ->
  shape (file_table (snd (open drv p flags abs s))) = shape (file_table s) /\
  length (file_table (snd (open drv p flags abs s))) = length (file_table s) /\
  open_files (file_table (snd (open drv p flags abs s)))
  = open_files (file_table s).
Proof.
  intros Hneg.
  destruct (open_spec drv p flags abs s) as [(_ & Hs & _)|(i & Hi & _)]; [|lia].
  split; [done|]. split.
  - apply (f_equal length) in Hs. unfold shape in Hs.
    by rewrite !length_fmap in Hs.
  - unfold open_files. by rewrite Hs.
Qed.

(** X6.  A descriptor returned by [open] names an occupied slot.
    Closing it while file operations are allowed, in the state [open]
    left or any later one with the same table, gives back the table
    occupancy there was before the [open]: the slot is free again and no
    other slot has changed state.  A [close] that finds file operations
    not allowed returns -1 and changes nothing, so the slot stays
    occupied. *)
Theorem open_close_round_trip (s s1 : state) (p : string) (flags : Z)
  (abs : bool) (fd : Z) :
  open drv p flags abs s = (fd, s1) ->
  0 <= fd ->
  (exists f, file_table s1 !! Z.to_nat fd = Some (Some f)) /\
  forall s2 : state,
    file_table s2 = file_table s1 ->
    if file_op_allowed drv (world s2) then
      file_table (snd (close drv fd s2)) !! Z.to_nat fd = Some None /\
      shape (file_table (snd (close drv fd s2))) = shape (file_table s)
    else close drv fd s2 = (-1, s2).
Proof.
  intros Ho Hfd.
  pose proof (open_spec drv p flags abs s) as Hspec. rewrite Ho in Hspec.
  cbn [fst snd] in Hspec.
  destruct Hspec as [(Hm1 & _)|(i & -> & Hi & Hfree & Hs & _)]; [lia|].
  rewrite Nat2Z.id.
  assert (Hlt : (i < length (file_table s))%nat) by by eapply lookup_lt_Some.
  assert (Hocc : exists f, file_table s1 !! i = Some (Some f)).
  { assert (Ht : shape (file_table s1) !! i = Some true).
    { rewrite Hs. apply list_lookup_insert_eq. unfold shape.
      by rewrite length_fmap. }
    rewrite shape_lookup in Ht.
    destruct (file_table s1 !! i) as [[f|]|]; try discriminate. by exists f. }
  destruct Hocc as [f Hf]. split; [by exists f|].
  intros s2 Ht2.
  destruct (file_op_allowed drv (world s2)) eqn:Ha;
    [|unfold close; by rewrite Ha].
  assert (Hr : 0 <= Z.of_nat i < Z.of_nat MAX_FILES) by lia.
  assert (Hf' : file_table s2 !! Z.to_nat (Z.of_nat i) = Some (Some f))
    by by rewrite Nat2Z.id, Ht2.
  destruct (close_valid drv s2 (Z.of_nat i) f Ha Hr Hf') as (_ & Ht & _).
  rewrite Nat2Z.id in Ht. rewrite Ht, Ht2. split.
  - apply list_lookup_insert_eq. by eapply lookup_lt_Some.
  - rewrite shape_insert, Hs, list_insert_insert_eq.
    apply list_insert_id. by apply shape_free_slot.
Qed.

End OpenClose.

Lemma open_failure_leaves_no_slot_witness :
  FATFS.open_files
    (FATFS.file_table
       (snd (FATFS.open Script.driver "b.txt" O_RDONLY false
               (Script.all_open false Script.calm))))
  = FATFS.open_files (FATFS.file_table (Script.all_open false Script.calm)).
Proof.
  destruct (open_failure_leaves_no_slot Script.driver
              (Script.all_open false Script.calm) "b.txt" O_RDONLY false)
    as (_ & _ & H); [vm_compute; reflexivity|exact H].
Defined.

Lemma open_close_round_trip_witness :
  FATFS.shape
    (FATFS.file_table
       (snd (FATFS.close Script.driver 0
               (snd (FATFS.open Script.driver "a.txt" O_RDONLY false
                       (FATFS.init_state Script.calm))))))
  = FATFS.shape (FATFS.file_table (FATFS.init_state Script.calm)).
Proof.
  destruct (open_close_round_trip Script.driver
              (FATFS.init_state Script.calm)
              (snd (FATFS.open Script.driver "a.txt" O_RDONLY false
                      (FATFS.init_state Script.calm)))
              "a.txt" O_RDONLY false 0)
    as (_ & H); [reflexivity|lia|].
  specialize (H _ eq_refl).
  change (FATFS.file_op_allowed Script.driver
            (FATFS.world
               (snd (FATFS.open Script.driver "a.txt" O_RDONLY false
                       (FATFS.init_state Script.calm))))) with true in H.
  exact (proj2 H).
Defined.

Lemma bytes_until_fsync_block_boundary_witness :
  (100 + fst (FATFS.bytes_until_fsync Script.driver 0
                (Script.one_open Script.calm))) mod 4096 = 0.
Proof.
  destruct (bytes_until_fsync_block_boundary Script.driver
              (Script.one_open Script.calm) 0
              (FATFS.mkFAT_FILE (FATFS.mkFIL 100 3 500 1) "log.bin"))
    as (_ & H); [vm_compute; split; [discriminate|reflexivity]|reflexivity|].
  change (FATFS.file_op_allowed Script.driver
            (FATFS.world (Script.one_open Script.calm))) with true in H.
  exact (proj1 (proj2 H)).
Defined.

Lemma close_always_releases_witness :
  FATFS.file_table (snd (FATFS.close Script.driver 0 (Script.one_open Script.calm)))
  = <[0%nat := None]> (FATFS.file_table (Script.one_open Script.calm)).
Proof.
  destruct (close_always_releases Script.driver
              (Script.one_open Script.calm) 0
              (FATFS.mkFAT_FILE (FATFS.mkFIL 100 3 500 1) "log.bin"))
    as (H & _); [vm_compute; split; [discriminate|reflexivity]|reflexivity|].
  change (FATFS.file_op_allowed Script.driver
            (FATFS.world (Script.one_open Script.calm))) with true in H.
  exact (proj1 H).
Defined.

Lemma invalid_handle_is_refused_witness :
  FATFS.fsync Script.driver Script.more 5 (Script.one_open Script.calm)
  = (-1, FATFS.with_errno EBADF (Script.one_open Script.calm)).
Proof.
  destruct (invalid_handle_is_refused Script.driver Script.more
              (Script.one_open Script.calm) 5 [] 0 0)
    as (_ & H & _); [|exact H].
  right; right. intros f. vm_compute. discriminate.
Defined.

(** ** What read and write return *)

Section Transfers.
Import FATFS.
Context {W : Type} (drv : Driver W).

Abbreviation state := (fs_state W).

(** An entry check that turns the caller away has set [errno] to [EIO]. *)
Lemma CHECK_REMOUNT_errno (s : state) :
  fst (CHECK_REMOUNT drv s) = false -> errno (snd (CHECK_REMOUNT drv s)) = EIO.
Proof.
  unfold CHECK_REMOUNT. destruct (remount_needed s); [|done].
  destruct (remount_file_system drv s) as [ok s1]. by destruct ok.
Qed.

Lemma chunked_last (wt : Z -> Z -> Z) (cur rem : Z) (chunks : list chunk) :
  chunked wt cur rem chunks -> exists c, last chunks = Some c.
Proof.
  intros Hch. destruct (chunked_nonempty _ _ _ _ Hch) as (c & rest & ->).
  assert (is_Some (last (c :: rest))) as [c' Hc'] by by apply last_is_Some.
  by exists c'.
Qed.

(** X7.  A [write] of zero bytes to an open descriptor never succeeds.
    When file operations are allowed, whether the volume needs a remount
    or not and whatever [f_write] answers to the request for 0 bytes, the
    call returns -1 with [errno = EIO]; when they are not allowed it
    returns -1 with [errno] cleared. *)
Theorem write_of_nothing_is_eio (s : state) (fd : Z) (f : FAT_FILE)
  (buf : list byte) (addr : Z) :
  0 <= fd < Z.of_nat MAX_FILES ->
  file_table s !! Z.to_nat fd = Some (Some f) ->
  exists s', write drv fd buf addr 0 s = Some (-1, s') /\
             errno s' = if file_op_allowed drv (world s) then EIO else E_OK.
Proof.
  intros Hr Hf. unfold write. cbn [world with_errno].
  destruct (file_op_allowed drv (world s)); cbn [negb]; [|by eexists].
  destruct (CHECK_REMOUNT_spec drv (with_errno E_OK s)) as [Hshape _].
  pose proof (CHECK_REMOUNT_errno (with_errno E_OK s)) as Herr.
  destruct (CHECK_REMOUNT drv (with_errno E_OK s)) as [ok s0].
  cbn [fst snd] in Hshape, Herr.
  destruct ok; cbn [negb]; [|eexists; split; [done|by apply Herr]].
  assert (exists f0, file_table s0 !! Z.to_nat fd = Some (Some f0)) as [f0 Hf0].
  { assert (Ht : shape (file_table s0) !! Z.to_nat fd = Some true).
    { rewrite Hshape, shape_lookup. cbn [file_table with_errno].
      by rewrite Hf. }
    rewrite shape_lookup in Ht.
    destruct (file_table s0 !! Z.to_nat fd) as [[f0|]|]; try discriminate.
    by exists f0. }
  rewrite (fileno_to_fatfs_valid fd f0 s0 Hr Hf0).
  change (Z.to_nat 0) with 0%nat. cbn [write_loop].
  assert ((if mem_is_dma_safe drv (addr + 0) 0 then 0 else Z.min 0 MAX_IO_SIZE) = 0)
    as -> by (unfold MAX_IO_SIZE; destruct (mem_is_dma_safe _ _ _); lia).
  match goal with |- context [write_chunk drv ?fh ?d 0 ?st] =>
    destruct (write_chunk_spec drv fh d 0 st) as (Hsz & _);
    destruct (write_chunk drv fh d 0 st) as [[res size] s1] end.
  cbn [fst snd] in Hsz.
  assert ((0 <? size) || (size =? 0) = true) as ->.
  { apply orb_true_iff. destruct (Z.eq_dec size 0) as [->|Hnz]; [by right|].
    left. apply Z.ltb_lt. lia. }
  by eexists.
Qed.

(** X8.  A [read] or a [write] of fewer than 2^31 bytes always
    returns, whatever the state, the descriptor, the backend's answers
    and the placement of the buffer, and the value returned is -1 or a
    count between 0 and the count asked for. *)
Theorem transfer_result_is_bounded (s : state) (fd : Z) (buf : list byte)
  (addr count : Z) :
  0 <= count < 2^31 ->
  (exists r buf' s',
      read drv fd buf addr count s = Some (r, buf', s') /\
      (r = -1 \/ 0 <= r <= count)) /\
  (exists r s',
      write drv fd buf addr count s = Some (r, s') /\
      (r = -1 \/ 0 <= r <= count)).
Proof.
  intros Hc. split.
  - unfold read.
    destruct (file_op_allowed drv (world s)); cbn [negb];
      [|by eexists _, _, _; split; [|left]].
    destruct (CHECK_REMOUNT drv s) as [ok s1].
    destruct ok; cbn [negb]; [|by eexists _, _, _; split; [|left]].
    pose proof (fileno_to_fatfs_state fd (with_errno E_OK s1)) as Hf.
    destruct (fileno_to_fatfs fd (with_errno E_OK s1)) as [[fh|] s2];
      [|by eexists _, _, _; split; [|left]].
    match goal with |- context [read_loop drv ?fu fh addr count 0 count 0 ?b s2] =>
      destruct (read_loop_run drv fh addr count fu 0 count 0 b s2)
        as (r & buf' & s' & chunks & Hloop & _ & Hch & _ & Hout); try lia
    end.
    exists r, buf', s'. split; [exact Hloop|].
    destruct (chunked_last _ _ _ _ Hch) as [c Hlast].
    destruct (Hout c Hlast) as (H1 & H2 & H3).
    destruct (Z.eq_dec (chunk_res c) FR_OK) as [He|He];
      [|left; by destruct (H1 He)].
    destruct (Z_lt_le_dec (chunk_n c) (chunk_size c)) as [Hlt|Hle];
      [left; by destruct (H2 He Hlt)|].
    destruct (H3 He Hle) as [-> Hsum]. right.
    rewrite Z.add_0_l, to_int32_small by lia. lia.
  - unfold write.
    destruct (file_op_allowed drv (world (with_errno E_OK s))); cbn [negb];
      [|by eexists _, _; split; [|left]].
    destruct (CHECK_REMOUNT drv (with_errno E_OK s)) as [ok s1].
    destruct ok; cbn [negb]; [|by eexists _, _; split; [|left]].
    destruct (fileno_to_fatfs fd s1) as [[fh|] s2];
      [|by eexists _, _; split; [|left]].
    destruct (write_loop_run drv fh buf addr count (S (Z.to_nat count))
                0 count 0 s2)
      as (r & s' & chunks & evss & Hloop & _ & _ & Hch & _ & Hout); try lia.
    exists r, s'. split; [exact Hloop|].
    destruct (chunked_last _ _ _ _ Hch) as [c Hlast].
    destruct (Hout c Hlast) as (H1 & H2 & H3).
    destruct (classic_bad c) as [Hb|Hb]; [left; by destruct (H1 Hb)|].
    destruct (Z.eq_dec (chunk_res c) FR_OK) as [He|He];
      [|left; by destruct (H2 Hb He)].
    destruct (H3 Hb He) as [-> Hsum]. right.
    rewrite Z.add_0_l, to_int32_small by lia. lia.
Qed.

End Transfers.

Lemma write_of_nothing_is_eio_witness :
  exists s',
    FATFS.write Script.driver 0 [] 0 0 (Script.one_open Script.calm)
    = Some (-1, s') /\ FATFS.errno s' = EIO.
Proof.
  apply (write_of_nothing_is_eio Script.driver (Script.one_open Script.calm) 0
           (FATFS.mkFAT_FILE (FATFS.mkFIL 100 3 500 1) "log.bin") [] 0).
  - vm_compute. split; [discriminate|reflexivity].
  - reflexivity.
Defined.

Lemma transfer_result_is_bounded_witness :
  exists r s',
    FATFS.write Script.driver 0 (replicate 8 x01) 0 8
      (Script.one_open Script.calm) = Some (r, s') /\
    (r = -1 \/ 0 <= r <= 8).
Proof.
  destruct (transfer_result_is_bounded Script.driver
              (Script.one_open Script.calm) 0 (replicate 8 x01) 0 8) as [_ H];
    [lia|exact H].
Defined.

(** ** Operations on paths and directories *)

Section Paths.
Import FATFS.
Context {W : Type} (drv : Driver W) (ext : DriverMore W).

Abbreviation state := (fs_state W).

(** The translation of a failure is never "no error". *)
Lemma fatfs_to_errno_error (r : FRESULT) : r <> FR_OK -> fatfs_to_errno r <> E_OK.
Proof.
  intros Hr. unfold FR_OK in Hr.
  destruct (Z_lt_le_dec r 0) as [H0|H0];
    [rewrite fatfs_to_errno_unmapped by lia; discriminate|].
  destruct (Z_lt_le_dec 19 r) as [H1|H1];
    [rewrite fatfs_to_errno_unmapped by lia; discriminate|].
  assert (r = 1 \/ r = 2 \/ r = 3 \/ r = 4 \/ r = 5 \/ r = 6 \/ r = 7
          \/ r = 8 \/ r = 9 \/ r = 10 \/ r = 11 \/ r = 12 \/ r = 13 \/ r = 14
          \/ r = 15 \/ r = 16 \/ r = 17 \/ r = 18 \/ r = 19) as Hc by lia.
  repeat (destruct Hc as [->|Hc]; [discriminate|]). subst r. discriminate.
Qed.

(** X9.  [unlink], [mkdir] and [rename] make no remount check: also on
    a volume marked for remount they go straight to the backend, with no
    recovery attempt, and leave the flag, the table and the trace alone.
    They return 0 with [errno] cleared when the backend returns [FR_OK],
    and otherwise -1 with the translation of the result, which is never
    0. *)
Theorem path_operations_bypass_recovery (s : state) (p q : string) :
  file_op_allowed drv (world s) = true ->
  let outcome (call : Z * state) (answer : FRESULT * W) :=
    remount_needed (snd call) = remount_needed s /\
    file_table (snd call) = file_table s /\
    trace (snd call) = trace s /\
    world (snd call) = snd answer /\
    ((fst answer = FR_OK /\ fst call = 0 /\ errno (snd call) = E_OK) \/
     (fst answer <> FR_OK /\ fst call = -1 /\
      errno (snd call) = fatfs_to_errno (fst answer) /\
      errno (snd call) <> E_OK)) in
  outcome (unlink drv ext p s) (f_unlink ext p (world s)) /\
  outcome (mkdir drv ext p s) (f_mkdir ext p (world s)) /\
  outcome (rename drv ext p q s) (f_rename ext p q (world s)).
Proof.
  intros Ha outcome. subst outcome. cbv beta.
  unfold unlink, mkdir, rename. rewrite Ha. cbn [negb world with_errno].
  repeat split.
  all: match goal with |- context [let '(_, _) := ?c in _] =>
         destruct c as [res w] end.
  all: cbn [fst snd]; destruct (Z.eqb_spec res FR_OK) as [->|Hne]; cbn; try done.
  all: try (left; done).
  all: right; repeat split; try done; by apply fatfs_to_errno_error.
Qed.

(** X10.  When file operations are allowed [readdir] tells the end of
    a directory from a failure: at the end (the backend returns [FR_OK]
    and an empty name) it returns null with [errno = 0], on a backend
    error it returns null with a non-zero [errno], and otherwise it
    returns the entry the wrapper now holds, with the backend's name and
    the type directory exactly when the attribute [AM_DIR] is set,
    regular file otherwise; a null handle is refused with [EINVAL].
    When file operations are not allowed it returns null and touches
    neither [errno] nor the wrapper, whatever the handle. *)
Theorem readdir_end_or_error (s : state) (wr : DIR_Wrapper) :
  if file_op_allowed drv (world s) then
    readdir drv ext None s = (None, None, with_errno EINVAL s) /\
    forall res fname fattrib d' w,
      f_readdir ext (d wr) (world s) = (res, fname, fattrib, d', w) ->
      match readdir drv ext (Some wr) s with
      | (None, _, s') =>
          (res <> FR_OK /\ errno s' <> E_OK) \/
          (res = FR_OK /\ fname = "" /\ errno s' = E_OK)
      | (Some e, wr', s') =>
          res = FR_OK /\ fname <> "" /\ d_name e = fname /\
          wr' = Some (mkDIR_Wrapper d' e) /\ errno s' = errno s /\
          (d_type e = DT_DIR /\ Z.land fattrib AM_DIR <> 0 \/
           d_type e = DT_REG /\ Z.land fattrib AM_DIR = 0)
      end
  else
    forall dirp : option DIR_Wrapper, readdir drv ext dirp s = (None, dirp, s).
Proof.
  unfold readdir. destruct (file_op_allowed drv (world s)); cbn [negb]; [|done].
  split; [done|].
  intros res fname fattrib d' w Hrd. rewrite Hrd.
  destruct (Z.eqb_spec res FR_OK) as [->|Hne]; cbn [negb orb].
  - destruct (String.eqb_spec fname "") as [->|Hnm].
    + right. by repeat split.
    + repeat split; try done.
      destruct (Z.eqb_spec (Z.land fattrib AM_DIR) 0); cbn; [by right|by left].
  - left. split; [done|]. by apply fatfs_to_errno_error.
Qed.

End Paths.

Lemma path_operations_bypass_recovery_witness :
  FATFS.remount_needed
    (snd (FATFS.unlink Script.driver Script.more "old.bin"
            (Script.all_open true Script.card_gone))) = true /\
  fst (FATFS.unlink Script.driver Script.more "old.bin"
         (Script.all_open true Script.card_gone)) = 0.
Proof.
  destruct (path_operations_bypass_recovery Script.driver Script.more
              (Script.all_open true Script.card_gone) "old.bin" "" eq_refl)
    as ((H1 & _ & _ & _ & H5) & _).
  split; [exact H1|].
  destruct H5 as [(_ & H & _)|(Hne & _)]; [exact H|].
  exfalso. apply Hne. reflexivity.
Defined.

Lemma readdir_end_or_error_witness :
  FATFS.errno
    (snd (FATFS.readdir Script.driver Script.more
            (Some (FATFS.mkDIR_Wrapper 7 (FATFS.mkdirent "x" FATFS.DT_REG)))
            (FATFS.with_errno EIO (FATFS.init_state Script.calm)))) = E_OK.
Proof.
  pose proof (readdir_end_or_error Script.driver Script.more
                (FATFS.with_errno EIO (FATFS.init_state Script.calm))
                (FATFS.mkDIR_Wrapper 7 (FATFS.mkdirent "x" FATFS.DT_REG))) as H.
  change (FATFS.file_op_allowed Script.driver
            (FATFS.world (FATFS.with_errno EIO (FATFS.init_state Script.calm))))
    with true in H.
  destruct H as (_ & H).
  specialize (H _ _ _ _ _ eq_refl).
  destruct (FATFS.readdir _ _ _ _) as [[[e|] wr] s'] eqn:E in H |- *.
  - exfalso. vm_compute in E. discriminate E.
  - destruct H as [(Hne & _)|(_ & _ & He)]; [|exact He].
    exfalso. apply Hne. reflexivity.
Defined.

(** ** File status, formatting and error texts *)

Section Status.
Import FATFS.
Context {W : Type} (drv : Driver W).

Abbreviation state := (fs_state W).

(** X11.  [stat] returns -1 and leaves the caller's buffer as it was,
    or returns 0 with a buffer in which the three times are equal and
    the mode carries exactly one of the type bits [S_IFDIR] and
    [S_IFREG].  For the root names "/" and "." the answer is a directory
    of size 0 owned by 0 with no permission bit; for every other name the
    owner and group are 1000, also for a system file, read and execute
    are granted to all, and write is granted exactly when the read-only
    attribute is clear. *)
Theorem stat_answer_shape (name : string) (buf : stat_t) (s : state) :
  let r := fst (fst (stat drv name buf s)) in
  let st := snd (fst (stat drv name buf s)) in
  (r = -1 /\ st = buf) \/
  (r = 0 /\
   st_atime st = st_mtime st /\ st_mtime st = st_ctime st /\
   (Z.land (st_mode st) S_IFDIR = S_IFDIR /\ Z.land (st_mode st) S_IFREG = 0 \/
    Z.land (st_mode st) S_IFREG = S_IFREG /\ Z.land (st_mode st) S_IFDIR = 0) /\
   if String.eqb name "/" || String.eqb name "."
   then st = mkstat 0 0 0 0 0 0 S_IFDIR
   else st_uid st = 1000 /\ st_gid st = 1000 /\
        Z.land (st_mode st) (Z.lor FATFS_R FATFS_X) = Z.lor FATFS_R FATFS_X /\
        (Z.land (st_mode st) FATFS_W = FATFS_W \/
         Z.land (st_mode st) FATFS_W = 0)).
Proof.
  cbv zeta. unfold stat.
  destruct (file_op_allowed drv (world s)); cbn [negb]; [|by left].
  destruct (CHECK_REMOUNT drv s) as [ok s0].
  destruct ok; cbn [negb]; [|by left].
  destruct (String.eqb name "/" || String.eqb name ".").
  { right. cbn [fst snd st_atime st_mtime st_ctime st_mode].
    repeat split; try done. by left. }
  destruct (call_f_stat drv name _) as [[res info] s1].
  assert (forall (res : FRESULT) (info : FILINFO) (s2 : state),
    let out :=
      if negb (res =? FR_OK)
      then (-1, buf, with_errno (fatfs_to_errno res) s2)
      else
        (0,
         mkstat (fsize info)
           (fat_time_to_unix drv (fdate info) (ftime info))
           (fat_time_to_unix drv (fdate info) (ftime info))
           (fat_time_to_unix drv (fdate info) (ftime info)) 1000 1000
           (if Z.land (fattrib info) AM_DIR =? 0
            then Z.lor (if Z.land (fattrib info) AM_RDO =? 0
                        then Z.lor (Z.lor FATFS_R FATFS_X) FATFS_W
                        else Z.lor FATFS_R FATFS_X) S_IFREG
            else Z.lor (if Z.land (fattrib info) AM_RDO =? 0
                        then Z.lor (Z.lor FATFS_R FATFS_X) FATFS_W
                        else Z.lor FATFS_R FATFS_X) S_IFDIR), s2) in
    (fst (fst out) = -1 /\ snd (fst out) = buf) \/
    (fst (fst out) = 0 /\
     st_atime (snd (fst out)) = st_mtime (snd (fst out)) /\
     st_mtime (snd (fst out)) = st_ctime (snd (fst out)) /\
     (Z.land (st_mode (snd (fst out))) S_IFDIR = S_IFDIR /\
      Z.land (st_mode (snd (fst out))) S_IFREG = 0 \/
      Z.land (st_mode (snd (fst out))) S_IFREG = S_IFREG /\
      Z.land (st_mode (snd (fst out))) S_IFDIR = 0) /\
     st_uid (snd (fst out)) = 1000 /\ st_gid (snd (fst out)) = 1000 /\
     Z.land (st_mode (snd (fst out))) (Z.lor FATFS_R FATFS_X)
       = Z.lor FATFS_R FATFS_X /\
     (Z.land (st_mode (snd (fst out))) FATFS_W = FATFS_W \/
      Z.land (st_mode (snd (fst out))) FATFS_W = 0))) as Hout.
  { intros r i s2. cbv zeta.
    destruct (r =? FR_OK); cbn [negb fst snd]; [right|by left].
    cbn [st_atime st_mtime st_ctime st_mode st_uid st_gid].
    destruct (Z.land (fattrib i) AM_DIR =? 0),
             (Z.land (fattrib i) AM_RDO =? 0);
      repeat split; try reflexivity;
      first [by left; split; vm_compute | by right; split; vm_compute
            | by left; vm_compute | by right; vm_compute]. }
  destruct ((res =? FR_DISK_ERR) && RETRY_ALLOWED drv s1).
  - destruct (remount_file_system drv s1) as [ok s2]. destruct ok.
    + destruct (call_f_stat drv name s2) as [[res' info'] s3].
      apply (Hout res' info' s3).
    + apply (Hout res info s2).
  - apply (Hout res info s1).
Qed.

(** X12.  The format worker does its work once: a second run right
    after the first changes nothing and calls nothing, and where
    formatting is compiled in, the worker never leaves a job pending. *)
Theorem format_handler_runs_once (s : state) :
  format_handler drv (format_handler drv s) = format_handler drv s /\
  (FF_USE_MKFS drv = true ->
   get_format_status (format_handler drv s) <> PENDING).
Proof.
  assert (FF_USE_MKFS drv = true ->
          format_status (format_handler drv s) <> PENDING) as Hnp.
  { intros Hmk. destruct (format_status s) eqn:Hst.
    2: { destruct (format_handler_outcomes drv s) as [_ H].
         specialize (H Hmk Hst).
         destruct (fst (malloc_type_ok drv (world s)));
           [destruct H as [H|H]|]; rewrite H; discriminate. }
    all: destruct (format_handler_outcomes drv s) as [H _];
      rewrite H by (rewrite Hst; discriminate); rewrite Hst; discriminate. }
  split; [|exact Hnp].
  destruct (FF_USE_MKFS drv) eqn:Hmk.
  - by apply format_handler_outcomes, Hnp.
  - unfold format_handler. by rewrite Hmk.
Qed.

(** X13.  The two disk usage queries in any state: [disk_space]
    returns -1 or a whole number of 512-byte sectors below 2^41, the
    sector count being a 32-bit value; [disk_free] returns -1, such a
    number of bytes, or the non-zero result code of a failed
    [f_getfree]. *)
Theorem disk_usage_range (path : string) (s : state) :
  let t := fst (disk_space drv path s) in
  let f := fst (disk_free drv path s) in
  (t = -1 \/ 0 <= t < 2^41 /\ t mod 512 = 0) /\
  (f = -1 \/ (0 <= f < 2^41 /\ f mod 512 = 0) \/
   exists w : W, f = fst (fst (f_getfree drv w)) /\ f <> FR_OK).
Proof.
  cbv zeta. unfold disk_space, disk_free.
  destruct (file_op_allowed drv (world s)); cbn [negb]; [|split; by left].
  destruct (CHECK_REMOUNT drv s) as [ok s0].
  destruct ok; cbn [negb]; [|split; by left].
  unfold call_f_getfree.
  destruct (f_getfree drv (world s0)) as [[res g] w] eqn:Hg.
  destruct (Z.eqb_spec res 0) as [->|Hne]; cbn [negb fst].
  - split; [right|right; left].
    + pose proof (u32_range (u32 (n_fatent g - 2) * csize g)).
      split; [lia|]. apply Z.mod_mul. lia.
    + pose proof (u32_range (fre_clust g * csize g)).
      split; [lia|]. apply Z.mod_mul. lia.
  - split; [by left|]. right; right. exists (world s0). by rewrite Hg.
Qed.

End Status.

(** X14.  Every error number this layer derives from a FatFs failure
    has a text in [strerror]; among the error numbers of this layer only
    0, which is no error, has none. *)
Theorem reported_errors_have_text (r : FRESULT) :
  r <> FR_OK ->
  (exists txt : string,
     Strerror.strerror (of_errno (fatfs_to_errno r)) = Some txt) /\
  (forall e : errno_t, Strerror.strerror (of_errno e) = None <-> e = E_OK).
Proof.
  intros Hr. split.
  - pose proof (fatfs_to_errno_error r Hr) as He.
    destruct (fatfs_to_errno r); try (eexists; reflexivity). by destruct He.
  - intros e. split; [by destruct e|by intros ->].
Qed.

Lemma reported_errors_have_text_witness :
  exists txt : string,
    Strerror.strerror (of_errno (fatfs_to_errno FR_DISK_ERR)) = Some txt.
Proof.
  apply (reported_errors_have_text FR_DISK_ERR). discriminate.
Defined.

(** * Further properties of the ROMFS backend *)

Section RomRecords.
Import ROMFS.
Context (img : Image).

Lemma lookup_fd_Some (fd : Z) (s : romfs_state) (r : rfile) :
  lookup_fd fd s = Some r <->
  0 <= fd /\ file s !! Z.to_nat fd = Some r /\ data r <> None.
Proof.
  unfold lookup_fd, max_open_file. split.
  - destruct (Z.ltb_spec fd 0); cbn [orb]; [done|].
    destruct (Z.leb_spec (Z.of_nat (length (file s))) fd); [done|].
    destruct (file s !! Z.to_nat fd) as [r0|]; [|done].
    destruct (data r0) eqn:Hd; [|done]. intros [= <-].
    repeat split; [done|congruence].
  - intros (H0 & Hl & Hd). pose proof (lookup_lt_Some _ _ _ Hl) as Hlt.
    destruct (Z.ltb_spec fd 0); [lia|]. cbn [orb].
    destruct (Z.leb_spec (Z.of_nat (length (file s))) fd); [lia|].
    rewrite Hl. by destruct (data r).
Qed.

Lemma lookup_fd_None_inv (fd : Z) (s : romfs_state) (r : rfile) :
  lookup_fd fd s = None -> 0 <= fd -> file s !! Z.to_nat fd = Some r ->
  data r = None.
Proof.
  intros Hn H0 Hl. destruct (data r) eqn:Hd; [|done].
  assert (lookup_fd fd s = Some r) as Hs
    by (apply lookup_fd_Some; repeat split; [done..|congruence]).
  congruence.
Qed.

(** The descriptors other than that of an updated record see no change. *)
Lemma lookup_fd_insert_ne (i : nat) (r' : rfile) (s : romfs_state) (j : Z) :
  j <> Z.of_nat i ->
  lookup_fd j (with_file (<[i := r']> (file s)) s) = lookup_fd j s.
Proof.
  intros Hne. unfold lookup_fd, max_open_file, with_file. cbn [file].
  rewrite length_insert.
  destruct (Z.ltb_spec j 0); cbn [orb]; [done|].
  destruct (Z.leb_spec (Z.of_nat (length (file s))) j); [done|].
  rewrite list_lookup_insert_ne by lia. done.
Qed.

Lemma lookup_fd_insert_errno (e : errno_t) (s : romfs_state) (j : Z) :
  lookup_fd j (with_errno e s) = lookup_fd j s.
Proof. done. Qed.

(** The descriptor of an updated record sees the new record when it holds
    data, and is invalid when it does not. *)
Lemma lookup_fd_insert_eq (i : nat) (r' : rfile) (s : romfs_state) :
  (i < length (file s))%nat ->
  lookup_fd (Z.of_nat i) (with_file (<[i := r']> (file s)) s)
  = match data r' with Some _ => Some r' | None => None end.
Proof.
  intros Hlt. unfold lookup_fd, max_open_file, with_file. cbn [file].
  rewrite length_insert.
  destruct (Z.ltb_spec (Z.of_nat i) 0); [lia|]. cbn [orb].
  destruct (Z.leb_spec (Z.of_nat (length (file s))) (Z.of_nat i)); [lia|].
  rewrite Nat2Z.id, list_lookup_insert_eq by done. done.
Qed.

Lemma with_file_insert_twice (i : nat) (r1 r2 : rfile) (s : romfs_state) :
  with_file (<[i := r2]> (file (with_file (<[i := r1]> (file s)) s)))
    (with_file (<[i := r1]> (file s)) s)
  = with_file (<[i := r2]> (file s)) s.
Proof. unfold with_file. cbn [file dir errno]. by rewrite list_insert_insert_eq. Qed.

(** The scan stops at the first free record. *)
Lemma free_file_Some (l : list rfile) (k i : nat) (r : rfile) :
  free_file l k = Some (i, r) ->
  (k <= i)%nat /\ l !! (i - k)%nat = Some r /\ data r = None /\
  forall (j : nat) (r' : rfile),
    (j < i - k)%nat -> l !! j = Some r' -> data r' <> None.
Proof.
  revert k. induction l as [|r0 l IH]; intros k; cbn [free_file]; [done|].
  destruct (data r0) eqn:Hd.
  - intros H. destruct (IH _ H) as (Hle & Hl & Hn & Hlow).
    split; [lia|]. split.
    { replace (i - k)%nat with (S (i - S k)) by lia. exact Hl. }
    split; [done|]. intros j r' Hj Hj'. destruct j as [|j].
    + cbn in Hj'. injection Hj' as <-. congruence.
    + cbn in Hj'. apply (Hlow j r'); [lia|done].
  - intros [= <- <-]. split; [lia|]. rewrite Nat.sub_diag.
    repeat split; [done|]. intros j r' Hj. lia.
Qed.

Lemma free_file_None (l : list rfile) (k : nat) :
  free_file l k = None ->
  forall (j : nat) (r : rfile), l !! j = Some r -> data r <> None.
Proof.
  revert k. induction l as [|r0 l IH]; intros k; cbn [free_file]; [done|].
  destruct (data r0) eqn:Hd; [|done].
  intros H [|j] r; cbn; [intros [= <-]; congruence|]. by apply (IH _ H).
Qed.

Lemma free_dir_Some (l : list rdir) (k i : nat) (r : rdir) :
  free_dir l k = Some (i, r) ->
  (k <= i)%nat /\ l !! (i - k)%nat = Some r /\ path r = None /\
  forall (j : nat) (r' : rdir),
    (j < i - k)%nat -> l !! j = Some r' -> path r' <> None.
Proof.
  revert k. induction l as [|r0 l IH]; intros k; cbn [free_dir]; [done|].
  destruct (path r0) eqn:Hd.
  - intros H. destruct (IH _ H) as (Hle & Hl & Hn & Hlow).
    split; [lia|]. split.
    { replace (i - k)%nat with (S (i - S k)) by lia. exact Hl. }
    split; [done|]. intros j r' Hj Hj'. destruct j as [|j].
    + cbn in Hj'. injection Hj' as <-. congruence.
    + cbn in Hj'. apply (Hlow j r'); [lia|done].
  - intros [= <- <-]. split; [lia|]. rewrite Nat.sub_diag.
    repeat split; [done|]. intros j r' Hj. lia.
Qed.

(** When every record is in use the scan finds none. *)
Lemma free_dir_full (l : list rdir) (k : nat) :
  (forall (j : nat) (r : rdir), l !! j = Some r -> path r <> None) ->
  free_dir l k = None.
Proof.
  revert k. induction l as [|r0 l IH]; intros k Hall; cbn [free_dir]; [done|].
  destruct (path r0) eqn:Hd.
  - apply IH. intros j r Hj. by apply (Hall (S j)).
  - by destruct (Hall 0%nat r0).
Qed.

(** X15.  [open] either fails, with -1 and one of [EROFS], [ENFILE] and
    [ENOENT], and then no descriptor changes its meaning; or it returns
    the lowest descriptor that was free, which now stands for the file
    found in the image, at offset 0, every other descriptor and [errno]
    being as before.  It fails with [ENFILE] only when no record is
    free. *)
Theorem romfs_open_outcomes (fname : string) (flags : Z) (abs : bool)
  (s : romfs_state) :
  let r := fst (open img fname flags abs s) in
  let s' := snd (open img fname flags abs s) in
  (r = -1 /\
   (errno s' = EROFS \/
    errno s' = ENFILE /\
      (forall fd : Z, 0 <= fd < max_open_file s -> lookup_fd fd s <> None) \/
    errno s' = ENOENT) /\
   forall fd : Z, lookup_fd fd s' = lookup_fd fd s) \/
  (0 <= r < max_open_file s /\
   lookup_fd r s = None /\
   (forall fd : Z, 0 <= fd < r -> lookup_fd fd s <> None) /\
   (exists (dat : list byte) (sz0 sz : Z),
      find_decompress img fname sz0 = (Some dat, sz) /\
      lookup_fd r s' = Some (mkrfile (Some dat) (u32 sz) 0)) /\
   (forall fd : Z, fd <> r -> lookup_fd fd s' = lookup_fd fd s) /\
   errno s' = errno s).
Proof.
  cbv zeta. unfold open.
  destruct (Z.land flags O_ACCMODE =? O_RDONLY); cbn [negb];
    [|left; repeat split; by left].
  destruct (free_file (file s) 0) as [[idx r0]|] eqn:Hfree.
  2: { left. cbn [fst snd]. split; [done|]. split; [|done]. right; left.
       split; [done|]. intros fd Hfd Hn.
       destruct (lookup_lt_is_Some_2 (file s) (Z.to_nat fd)) as [r Hr];
         [unfold max_open_file in Hfd; lia|].
       apply (free_file_None _ _ Hfree _ _ Hr).
       apply (lookup_fd_None_inv fd s); [done|lia|done]. }
  destruct (free_file_Some _ _ _ _ Hfree) as (_ & Hl & Hn & Hlow).
  rewrite Nat.sub_0_r in Hl, Hlow.
  pose proof (lookup_lt_Some _ _ _ Hl) as Hlt.
  destruct (find_decompress img fname (size r0)) as [dat sz] eqn:Hfind.
  destruct dat as [dat|].
  - right. cbn [fst snd]. split; [unfold max_open_file; lia|].
    split.
    { destruct (lookup_fd (Z.of_nat idx) s) as [r|] eqn:E; [|done].
      apply lookup_fd_Some in E as (_ & E & Hd). rewrite Nat2Z.id in E.
      congruence. }
    split.
    { intros fd Hfd Hnone.
      destruct (lookup_lt_is_Some_2 (file s) (Z.to_nat fd)) as [r Hr]; [lia|].
      apply (Hlow (Z.to_nat fd) r); [lia|done|].
      apply (lookup_fd_None_inv fd s); [done|lia|done]. }
    split.
    { exists dat, (size r0), sz. split; [done|].
      rewrite with_file_insert_twice.
      by rewrite lookup_fd_insert_eq. }
    split; [|done].
    intros fd Hfd. rewrite with_file_insert_twice.
    by apply lookup_fd_insert_ne.
  - left. cbn [fst snd]. split; [done|]. split; [by right; right|].
    intros fd. rewrite lookup_fd_insert_errno.
    destruct (decide (fd = Z.of_nat idx)) as [->|Hne].
    + rewrite lookup_fd_insert_eq by done. cbn [data].
      destruct (lookup_fd (Z.of_nat idx) s) as [r|] eqn:E; [|done].
      apply lookup_fd_Some in E as (_ & E & Hd). rewrite Nat2Z.id in E.
      congruence.
    + by apply lookup_fd_insert_ne.
Qed.

(** Replacing a record by one within bounds keeps the records within
    bounds. *)
Lemma offsets_ok_insert (i : nat) (r' : rfile) (s : romfs_state) :
  offsets_ok s ->
  (data r' <> None -> 0 <= ofs r' <= size r' /\ size r' < 2^32) ->
  offsets_ok (with_file (<[i := r']> (file s)) s).
Proof.
  intros Hok Hr j r dat Hj Hd. unfold with_file in Hj. cbn [file] in Hj.
  apply list_lookup_insert_Some in Hj as [(-> & -> & _)|(_ & Hj)].
  - apply Hr. congruence.
  - by apply (Hok j r dat).
Qed.

Lemma offsets_ok_errno (e : errno_t) (s : romfs_state) :
  offsets_ok s -> offsets_ok (with_errno e s).
Proof. done. Qed.

Lemma with_file_id (i : nat) (r : rfile) (s : romfs_state) :
  file s !! i = Some r -> with_file (<[i := r]> (file s)) s = s.
Proof.
  intros H. unfold with_file. rewrite list_insert_id by done. by destruct s.
Qed.

(** A read on a valid descriptor whose record is within bounds. *)
Lemma read_valid (fd c : Z) (s : romfs_state) (dat : list byte) (sz o : Z) :
  lookup_fd fd s = Some (mkrfile (Some dat) sz o) ->
  0 <= o <= sz -> sz < 2^32 -> 0 <= c < 2^31 ->
  read fd c s
  = (Z.min (sz - o) c,
     take (Z.to_nat (Z.min (sz - o) c)) (drop (Z.to_nat o) dat),
     with_file (<[Z.to_nat fd := mkrfile (Some dat) sz (o + Z.min (sz - o) c)]>
                  (file s)) s).
Proof.
  intros Hl Ho Hsz Hc. unfold read. rewrite Hl. cbn [data size ofs default].
  rewrite (u32_small (sz - o)) by lia.
  destruct (Z.eqb_spec (Z.min (sz - o) c) 0) as [->|Hn].
  - rewrite Z.add_0_r. cbn [Z.to_nat take].
    rewrite with_file_id; [done|]. by apply lookup_fd_Some in Hl as (_ & Hl & _).
  - rewrite to_int32_small by lia. by rewrite (u32_small (o + _)) by lia.
Qed.

(** The descriptor after an update of its own record. *)
Lemma lookup_fd_updated (fd : Z) (s : romfs_state) (r r' : rfile) :
  lookup_fd fd s = Some r -> data r' <> None ->
  lookup_fd fd (with_file (<[Z.to_nat fd := r']> (file s)) s) = Some r'.
Proof.
  intros Hl Hd. apply lookup_fd_Some in Hl as (H0 & Hl & _).
  pose proof (lookup_lt_Some _ _ _ Hl) as Hlt.
  rewrite <- (Z2Nat.id fd) at 1 by done.
  rewrite lookup_fd_insert_eq by done. by destruct (data r').
Qed.

(** X16.  The bounds of the open records, offset at most size and size
    a 32-bit count, are kept by every operation on files: [open],
    [close], [read] and [lseek] with any arguments, on any image.  They
    hold at start-up, when every record is free. *)
Theorem romfs_offsets_invariant (s : romfs_state) :
  offsets_ok s ->
  (forall (fname : string) (flags : Z) (abs : bool),
      offsets_ok (snd (open img fname flags abs s))) /\
  (forall fd : Z, offsets_ok (snd (close fd s))) /\
  (forall fd count : Z,
      0 <= count < 2^32 -> offsets_ok (snd (read fd count s))) /\
  (forall fd offset seek_from : Z,
      offsets_ok (snd (lseek fd offset seek_from s))) /\
  (forall n m : nat,
      offsets_ok (mkState (replicate n (mkrfile None 0 0))
                          (replicate m (mkrdir None 0)) E_OK)).
Proof.
  intros Hok. split; [|split; [|split; [|split]]].
  - intros fname flags abs. unfold open.
    destruct (Z.land flags O_ACCMODE =? O_RDONLY); cbn [negb]; [|done].
    destruct (free_file (file s) 0) as [[idx r0]|]; [|done].
    destruct (find_decompress img fname (size r0)) as [[dat|] sz]; cbn [snd].
    + rewrite with_file_insert_twice. apply offsets_ok_insert; [done|].
      intros _. cbn [ofs size]. pose proof (u32_range sz). lia.
    + apply offsets_ok_errno. by apply offsets_ok_insert.
  - intros fd. unfold close. destruct (lookup_fd fd s); [|done].
    by apply offsets_ok_insert.
  - intros fd count Hc. unfold read.
    destruct (lookup_fd fd s) as [r|] eqn:Hl; [|done].
    destruct (Z.eqb_spec (Z.min (u32 (size r - ofs r)) count) 0); [done|].
    cbn [snd]. apply offsets_ok_insert; [done|]. cbn [data ofs size].
    intros Hd. apply lookup_fd_Some in Hl as (_ & Hl & _).
    destruct (data r) as [dat|] eqn:Hdat; [|done].
    destruct (Hok _ _ _ Hl Hdat) as [Ho Hs].
    rewrite (u32_small (size r - ofs r)) in * by lia.
    rewrite u32_small by lia. lia.
  - intros fd offset seek_from. unfold lseek.
    destruct (lookup_fd fd s) as [r|] eqn:Hl; [|done].
    apply lookup_fd_Some in Hl as (_ & Hl & _).
    assert (data r <> None -> 0 <= size r < 2^32) as Hsz.
    { destruct (data r) as [dat|] eqn:Hdat; [|done]. intros _.
      destruct (Hok _ _ _ Hl Hdat). lia. }
    destruct (seek_from =? SEEK_SET).
    { destruct (offset <? 0); [done|]. cbn [snd].
      apply offsets_ok_insert; [done|]. cbn [data ofs size]. intros Hd.
      pose proof (u32_range offset). specialize (Hsz Hd). lia. }
    destruct (seek_from =? SEEK_CUR).
    { cbn [snd]. apply offsets_ok_insert; [done|]. cbn [data ofs size].
      intros Hd. pose proof (u32_range (offset + ofs r)).
      specialize (Hsz Hd). lia. }
    destruct (seek_from =? SEEK_END); [|done].
    cbn [snd]. apply offsets_ok_insert; [done|]. cbn [data ofs size].
    intros Hd. specialize (Hsz Hd). lia.
  - intros n m i r dat Hi Hd. cbn [file] in Hi.
    apply lookup_replicate in Hi as [-> _]. done.
Qed.

(** X17.  Reads are sequential: a read delivers the bytes of the image
    from the offset on, as many as asked for or as are left, and two
    reads in a row deliver, and leave the backend in the state of, one
    read of the two counts together. *)
Theorem romfs_read_sequential (fd c1 c2 : Z) (s : romfs_state)
  (dat : list byte) (o : Z) :
  lookup_fd fd s = Some (mkrfile (Some dat) (Z.of_nat (length dat)) o) ->
  0 <= o <= Z.of_nat (length dat) ->
  Z.of_nat (length dat) < 2^32 ->
  0 <= c1 -> 0 <= c2 -> c1 + c2 < 2^31 ->
  let '(n1, b1, s1) := read fd c1 s in
  let '(n2, b2, s2) := read fd c2 s1 in
  n1 = Z.min (Z.of_nat (length dat) - o) c1 /\
  b1 = take (Z.to_nat c1) (drop (Z.to_nat o) dat) /\
  Z.of_nat (length b1) = n1 /\
  read fd (c1 + c2) s = (n1 + n2, b1 ++ b2, s2).
Proof.
  intros Hl Ho Hsz Hc1 Hc2 Hc.
  set (sz := Z.of_nat (length dat)) in *.
  rewrite (read_valid fd c1 s dat sz o) by (done || lia).
  set (n1 := Z.min (sz - o) c1).
  assert (lookup_fd fd
            (with_file (<[Z.to_nat fd := mkrfile (Some dat) sz (o + n1)]>
                          (file s)) s)
          = Some (mkrfile (Some dat) sz (o + n1))) as Hl1
    by by apply (lookup_fd_updated fd s _ _ Hl).
  rewrite (read_valid fd c2 _ dat sz (o + n1) Hl1) by lia.
  set (n2 := Z.min (sz - (o + n1)) c2).
  rewrite with_file_insert_twice.
  assert (length (drop (Z.to_nat o) dat) = Z.to_nat (sz - o)) as Hlen
    by (rewrite length_drop; lia).
  assert (take (Z.to_nat n1) (drop (Z.to_nat o) dat)
          = take (Z.to_nat c1) (drop (Z.to_nat o) dat)) as Htake.
  { destruct (Z.le_gt_cases c1 (sz - o)).
    - by replace n1 with c1 by lia.
    - rewrite !take_ge; [done|lia..]. }
  split; [done|]. split; [done|]. split.
  { rewrite length_take, Hlen. lia. }
  rewrite (read_valid fd (c1 + c2) s dat sz o) by (done || lia).
  assert (Z.min (sz - o) (c1 + c2) = n1 + n2) as -> by lia.
  rewrite Z.add_assoc. f_equal. f_equal.
  rewrite Z2Nat.inj_add by lia.
  rewrite <- take_take_drop, drop_drop. f_equal. f_equal. f_equal. lia.
Qed.

(** X18.  Seeking to an absolute position and reading delivers the
    bytes of the image at that position, none when the position is at or
    beyond the end; the position reported afterwards is the one sought,
    clamped to the size, plus the number of bytes read. *)
Theorem romfs_seek_then_read (fd p c : Z) (s : romfs_state)
  (dat : list byte) (o : Z) :
  lookup_fd fd s = Some (mkrfile (Some dat) (Z.of_nat (length dat)) o) ->
  Z.of_nat (length dat) < 2^31 ->
  0 <= p < 2^31 -> 0 <= c < 2^31 ->
  let '(pos, s1) := lseek fd p SEEK_SET s in
  let '(n, b, s2) := read fd c s1 in
  pos = Z.min (Z.of_nat (length dat)) p /\
  b = take (Z.to_nat c) (drop (Z.to_nat p) dat) /\
  n = Z.of_nat (length b) /\
  fst (lseek fd 0 SEEK_CUR s2) = pos + n.
Proof.
  intros Hl Hsz Hp Hc.
  set (sz := Z.of_nat (length dat)) in *.
  unfold lseek at 1. rewrite Hl. cbn [data size ofs].
  rewrite Z.eqb_refl. destruct (Z.ltb_spec p 0); [lia|].
  rewrite (u32_small p) by lia. rewrite to_int32_small by lia.
  set (pos := Z.min sz p).
  assert (lookup_fd fd
            (with_file (<[Z.to_nat fd := mkrfile (Some dat) sz pos]> (file s)) s)
          = Some (mkrfile (Some dat) sz pos)) as Hl1
    by by apply (lookup_fd_updated fd s _ _ Hl).
  rewrite (read_valid fd c _ dat sz pos Hl1) by lia.
  set (n := Z.min (sz - pos) c).
  rewrite with_file_insert_twice.
  assert (take (Z.to_nat n) (drop (Z.to_nat pos) dat)
          = take (Z.to_nat c) (drop (Z.to_nat p) dat)) as Htake.
  { destruct (Z.le_gt_cases sz p).
    - rewrite !drop_ge by lia. by rewrite !take_nil.
    - replace pos with p by lia.
      destruct (Z.le_gt_cases c (sz - p)).
      + by replace n with c by lia.
      + rewrite !take_ge; [done|rewrite length_drop; lia..]. }
  split; [done|]. split; [done|]. split.
  { rewrite length_take, length_drop. lia. }
  assert (lookup_fd fd
            (with_file (<[Z.to_nat fd := mkrfile (Some dat) sz (pos + n)]>
                          (file s)) s)
          = Some (mkrfile (Some dat) sz (pos + n))) as Hl2
    by by apply (lookup_fd_updated fd s _ _ Hl).
  unfold lseek. rewrite Hl2. cbn [data size ofs fst].
  change (SEEK_CUR =? SEEK_SET) with false. rewrite Z.eqb_refl. cbn [fst].
  rewrite Z.add_0_l, u32_small by lia.
  rewrite Z.min_r by lia. apply to_int32_small. lia.
Qed.

(** X19.  [close] of a valid descriptor returns 0 and releases its
    record, touching neither another descriptor nor [errno]: the next
    [open] is not refused for want of a record, and a second [close], a
    [read] or an [lseek] on the closed descriptor fails with [EBADF]. *)
Theorem romfs_close_releases (fd : Z) (s : romfs_state) (r : rfile) :
  lookup_fd fd s = Some r ->
  fst (close fd s) = 0 /\
  let s1 := snd (close fd s) in
  lookup_fd fd s1 = None /\
  (forall j : Z, j <> fd -> lookup_fd j s1 = lookup_fd j s) /\
  errno s1 = errno s /\ dir s1 = dir s /\
  free_file (file s1) 0 <> None /\
  close fd s1 = (-1, with_errno EBADF s1) /\
  (forall c : Z, read fd c s1 = (-1, [], with_errno EBADF s1)) /\
  (forall offset seek_from : Z,
      lseek fd offset seek_from s1 = (-1, with_errno EBADF s1)).
Proof.
  intros Hl. unfold close at 1 2. rewrite Hl. cbn [fst snd]. split; [done|].
  pose proof Hl as Hl'. apply lookup_fd_Some in Hl' as (H0 & Hf & _).
  pose proof (lookup_lt_Some _ _ _ Hf) as Hlt.
  assert (lookup_fd fd
            (with_file (<[Z.to_nat fd := mkrfile None (size r) (ofs r)]> (file s)) s)
          = None) as Hnone.
  { rewrite <- (Z2Nat.id fd) at 1 by done. by rewrite lookup_fd_insert_eq. }
  cbv zeta. split; [done|]. split.
  { intros j Hj. apply lookup_fd_insert_ne. lia. }
  split; [done|]. split; [done|]. split.
  { intros Hfree.
    refine (free_file_None _ _ Hfree (Z.to_nat fd)
              (mkrfile None (size r) (ofs r)) _ eq_refl).
    cbn [file with_file]. by apply list_lookup_insert_eq. }
  unfold close, read, lseek. rewrite Hnone. done.
Qed.

(** A record freed below which every record is in use is the next the
    scan finds. *)
Lemma free_dir_insert_free (l : list rdir) (k idx : nat) :
  (idx < length l)%nat ->
  (forall (j : nat) (r : rdir),
      (j < idx)%nat -> l !! j = Some r -> path r <> None) ->
  free_dir (<[idx := mkrdir None 0]> l) k
  = Some ((k + idx)%nat, mkrdir None 0).
Proof.
  revert k idx. induction l as [|rd l IH]; intros k idx Hlt Hlow;
    [cbn in Hlt; lia|].
  destruct idx as [|idx]; [cbn; by rewrite Nat.add_0_r|].
  cbn in Hlt |- *.
  destruct (path rd) eqn:Hp.
  - transitivity (Some ((S k + idx)%nat, mkrdir None 0));
      [|f_equal; f_equal; lia].
    apply (IH (S k) idx); [lia|].
    intros j r' Hj Hj'. apply (Hlow (S j) r'); [lia|done].
  - destruct (Hlow 0%nat rd); [lia|done|done].
Qed.

(** X20.  [opendir] of a path the image has no entry for returns null
    without setting [errno], yet the directory record it picked stays in
    use, holding the path: the scan does not offer it again, no handle
    exists to close it with, and when it was the last free record every
    later [opendir] fails with [ENFILE]. *)
Theorem romfs_opendir_missing_keeps_record (pathname : string)
  (s : romfs_state) (idx : nat) (r0 : rdir) (o : Z) :
  free_dir (dir s) 0 = Some (idx, r0) ->
  dir_list img pathname 0 = (None, o) ->
  fst (opendir img pathname true s) = None /\
  let s' := snd (opendir img pathname true s) in
  errno s' = errno s /\
  dir s' !! idx = Some (mkrdir (Some pathname) 0) /\
  (forall (i : nat) (r : rdir), free_dir (dir s') 0 = Some (i, r) -> i <> idx) /\
  ((forall (j : nat) (r : rdir),
       j <> idx -> dir s !! j = Some r -> path r <> None) ->
   forall (q : string) (ok : bool),
     opendir img q ok s' = (None, with_errno ENFILE s')).
Proof.
  intros Hfree Hlist. unfold opendir at 1 2. rewrite Hfree, Hlist.
  cbn [negb fst snd].
  destruct (free_dir_Some _ _ _ _ Hfree) as (_ & Hl & _ & _).
  rewrite Nat.sub_0_r in Hl. pose proof (lookup_lt_Some _ _ _ Hl) as Hlt.
  split; [done|]. cbv zeta. split; [done|].
  assert (dir (with_dir (<[idx:=mkrdir (Some pathname) 0]> (dir s)) s) !! idx
          = Some (mkrdir (Some pathname) 0)) as Hnew
    by (cbn [dir with_dir]; by apply list_lookup_insert_eq).
  split; [done|]. split.
  - intros i r Hi ->. apply free_dir_Some in Hi as (_ & Hi & Hp & _).
    rewrite Nat.sub_0_r, Hnew in Hi. injection Hi as <-. done.
  - intros Hall q ok. unfold opendir. rewrite free_dir_full; [done|].
    intros j r Hj. cbn [dir with_dir] in Hj.
    apply list_lookup_insert_Some in Hj as [(_ & <- & _)|(Hne & Hj)]; [done|].
    by apply (Hall j r).
Qed.

(** X21.  [opendir] of a path with an entry returns the lowest free
    directory record, and [closedir] on the handle returns 0 and frees
    that record again: the file records and [errno] are as before and
    the same record is the next to be handed out. *)
Theorem romfs_opendir_closedir_round_trip (pathname name : string)
  (s : romfs_state) (idx : nat) (r0 : rdir) (o : Z) :
  max_open_dir s <= 255 ->
  free_dir (dir s) 0 = Some (idx, r0) ->
  dir_list img pathname 0 = (Some name, o) ->
  fst (opendir img pathname true s) = Some (Z.of_nat idx) /\
  let s1 := snd (opendir img pathname true s) in
  let s2 := snd (closedir (Z.of_nat idx) s1) in
  fst (closedir (Z.of_nat idx) s1) = 0 /\
  dir s2 = <[idx := mkrdir None 0]> (dir s) /\
  file s2 = file s /\ errno s2 = errno s /\
  free_dir (dir s2) 0 = Some (idx, mkrdir None 0).
Proof.
  intros Hmax Hfree Hlist. unfold opendir. rewrite Hfree, Hlist.
  cbn [negb fst snd]. split; [done|].
  destruct (free_dir_Some _ _ _ _ Hfree) as (_ & Hl & _ & Hlow).
  rewrite Nat.sub_0_r in Hl, Hlow. pose proof (lookup_lt_Some _ _ _ Hl) as Hlt.
  unfold max_open_dir in Hmax.
  cbv zeta. unfold closedir, max_open_dir. cbn [dir with_dir].
  rewrite length_insert, u32_small by lia.
  destruct (Z.leb_spec (Z.of_nat (length (dir s))) (Z.of_nat idx)); [lia|].
  rewrite Nat2Z.id, list_lookup_insert_eq by done.
  cbn [fst snd dir with_dir file errno dir_ofs].
  rewrite list_insert_insert_eq. repeat split.
  by rewrite (free_dir_insert_free _ 0 idx).
Qed.

End RomRecords.

Lemma romfs_offsets_invariant_witness :
  ROMFS.offsets_ok (snd (ROMFS.read 0 3 RomScript.opened)).
Proof.
  assert (ROMFS.offsets_ok RomScript.opened) as Hok.
  { intros i r dat Hi Hd.
    destruct i as [|[|[|[|i]]]]; cbn in Hi; try discriminate Hi;
      injection Hi as <-; try discriminate Hd.
    vm_compute. repeat split; discriminate || reflexivity. }
  destruct (romfs_offsets_invariant RomScript.image RomScript.opened Hok)
    as (_ & _ & H & _).
  apply H. lia.
Defined.

Lemma romfs_read_sequential_witness :
  ROMFS.read 0 5 RomScript.opened
  = (5, [x01; x02; x03; x04; x05],
     snd (ROMFS.read 0 3 (snd (ROMFS.read 0 2 RomScript.opened)))).
Proof.
  pose proof (romfs_read_sequential 0 2 3 RomScript.opened
                [x01; x02; x03; x04; x05] 0 eq_refl) as H.
  cbn [length] in H. change (2 + 3) with 5 in H.
  specialize (H ltac:(lia) ltac:(lia) ltac:(lia) ltac:(lia) ltac:(lia)).
  destruct (ROMFS.read 0 2 RomScript.opened) as [[n1 b1] s1] eqn:E1.
  cbn [snd].
  destruct (ROMFS.read 0 3 s1) as [[n2 b2] s2] eqn:E2. cbn [snd].
  destruct H as (_ & _ & _ & H). rewrite H.
  vm_compute in E1. injection E1 as <- <- <-.
  vm_compute in E2. injection E2 as <- <- _. reflexivity.
Defined.

Lemma romfs_seek_then_read_witness :
  fst (ROMFS.read 0 10 (snd (ROMFS.lseek 0 3 ROMFS.SEEK_SET RomScript.opened)))
  = (2, [x04; x05]).
Proof.
  pose proof (romfs_seek_then_read 0 3 10 RomScript.opened
                [x01; x02; x03; x04; x05] 0 eq_refl) as H.
  cbn [length] in H.
  specialize (H ltac:(lia) ltac:(lia) ltac:(lia)).
  destruct (ROMFS.lseek 0 3 ROMFS.SEEK_SET RomScript.opened) as [pos s1].
  cbn [snd].
  destruct (ROMFS.read 0 10 s1) as [[n b] s2]. cbn [fst].
  destruct H as (_ & -> & -> & _). reflexivity.
Defined.

Lemma romfs_close_releases_witness :
  ROMFS.lookup_fd 0 (snd (ROMFS.close 0 RomScript.opened)) = None.
Proof.
  destruct (romfs_close_releases 0 RomScript.opened
              (ROMFS.mkrfile (Some [x01; x02; x03; x04; x05]) 5 0) eq_refl)
    as (_ & H & _).
  exact H.
Defined.

Lemma romfs_opendir_missing_keeps_record_witness :
  ROMFS.opendir RomScript.image "scripts" true
    (snd (ROMFS.opendir RomScript.image "nowhere" true RomScript.one_dir_left))
  = (None,
     ROMFS.with_errno ENFILE
       (snd (ROMFS.opendir RomScript.image "nowhere" true
               RomScript.one_dir_left))).
Proof.
  destruct (romfs_opendir_missing_keeps_record RomScript.image "nowhere"
              RomScript.one_dir_left 2 (ROMFS.mkrdir None 0) 0
              eq_refl eq_refl) as (_ & _ & _ & _ & H).
  apply H. intros j r Hj Hr.
  destruct j as [|[|[|[|j]]]]; cbn in Hr; try discriminate Hr;
    try (injection Hr as <-; discriminate). by destruct Hj.
Defined.

Lemma romfs_opendir_closedir_round_trip_witness :
  ROMFS.free_dir
    (ROMFS.dir
       (snd (ROMFS.closedir 2
               (snd (ROMFS.opendir RomScript.image "scripts" true
                       RomScript.one_dir_left))))) 0
  = Some (2%nat, ROMFS.mkrdir None 0).
Proof.
  destruct (romfs_opendir_closedir_round_trip RomScript.image
              "scripts" "scripts/a.lua" RomScript.one_dir_left 2
              (ROMFS.mkrdir None 0) 1)
    as (_ & _ & _ & _ & _ & H); [vm_compute; discriminate|reflexivity..|].
  exact H.
Defined.
